(** * The Redis memory plugin (extensions/memory-redis/index.ts)

    A shallow embedding of the memory store ([RedisMemoryDB]), the capture
    filter ([shouldCapture]), the agent tools ([memory_recall],
    [memory_store], [memory_forget]) and the [before_agent_start] hook,
    followed by the properties the specification states about them.

    Modelling conventions.
    - A JavaScript number is an extended rational: finite values are exact
      rationals kept in lowest terms, next to [NaN] and the two infinities.
      Rounding to binary64 and the sign of zero are not represented.
    - A JavaScript string is the list of its UTF-16 code units.
    - [await] is sequential: an asynchronous function is a state
      transformer that either returns a value or throws.
    - Everything outside the plugin (the Redis query engine, the embedding
      provider, the clock, the UUID generator) is an oracle of the [World],
      indexed by the number of external calls made so far. *)

From Stdlib Require Import QArith Lqa ZArith NArith Lia List String Ascii.
From Stdlib Require Import Sorted Permutation DecimalString.
From stdpp Require Import base list sorting gmap.

Local Open Scope N_scope.

(** ** JavaScript numbers *)

Module JsNumber.

Inductive number : Type :=
| NaN
| NegInf
| Fin (q : Q)
| PosInf.

Definition zero : number := Fin 0.
Definition one : number := Fin 1.
Definition two : number := Fin 2.

Definition ofZ (z : Z) : number := Fin (inject_Z z).
Definition ofNat (n : nat) : number := ofZ (Z.of_nat n).

Definition isNaN (a : number) : bool :=
  match a with NaN => true | _ => false end.

(** Sign of a finite operand, as needed by products and quotients with an
    infinity: [Lt] negative, [Eq] zero, [Gt] positive. *)
Definition sgn (q : Q) : comparison := (q ?= 0)%Q.

Definition inf_of (c : comparison) : number :=
  match c with Lt => NegInf | Eq => NaN | Gt => PosInf end.

Definition flip (c : comparison) : comparison := CompOpp c.

Definition neg (a : number) : number :=
  match a with
  | NaN => NaN
  | NegInf => PosInf
  | PosInf => NegInf
  | Fin x => Fin (Qred (- x))
  end.

Definition add (a b : number) : number :=
  match a, b with
  | NaN, _ | _, NaN => NaN
  | PosInf, NegInf | NegInf, PosInf => NaN
  | PosInf, _ | _, PosInf => PosInf
  | NegInf, _ | _, NegInf => NegInf
  | Fin x, Fin y => Fin (Qred (x + y))
  end.

Definition sub (a b : number) : number :=
  match a, b with
  | NaN, _ | _, NaN => NaN
  | PosInf, PosInf | NegInf, NegInf => NaN
  | PosInf, _ | _, NegInf => PosInf
  | NegInf, _ | _, PosInf => NegInf
  | Fin x, Fin y => Fin (Qred (x - y))
  end.

Definition mul (a b : number) : number :=
  match a, b with
  | NaN, _ | _, NaN => NaN
  | Fin x, Fin y => Fin (Qred (x * y))
  | PosInf, Fin y | Fin y, PosInf => inf_of (sgn y)
  | NegInf, Fin y | Fin y, NegInf => inf_of (flip (sgn y))
  | PosInf, PosInf | NegInf, NegInf => PosInf
  | PosInf, NegInf | NegInf, PosInf => NegInf
  end.

Definition div (a b : number) : number :=
  match a, b with
  | NaN, _ | _, NaN => NaN
  | Fin x, Fin y =>
      match sgn y with
      | Eq => inf_of (sgn x)
      | _ => Fin (Qred (x / y))
      end
  | Fin _, _ => zero
  | PosInf, Fin y => match sgn y with Lt => NegInf | _ => PosInf end
  | NegInf, Fin y => match sgn y with Lt => PosInf | _ => NegInf end
  | _, _ => NaN
  end.

(** [a <= b], [a < b], [a >= b], [a > b]: every comparison with [NaN] is
    false. *)
Definition le (a b : number) : bool :=
  match a, b with
  | NaN, _ | _, NaN => false
  | NegInf, _ => true
  | _, PosInf => true
  | Fin x, Fin y => Qle_bool x y
  | _, _ => false
  end.

Definition lt (a b : number) : bool :=
  match a, b with
  | NaN, _ | _, NaN => false
  | NegInf, NegInf => false
  | NegInf, _ => true
  | PosInf, _ => false
  | Fin x, Fin y => negb (Qle_bool y x)
  | Fin _, PosInf => true
  | Fin _, NegInf => false
  end.

Definition ge (a b : number) : bool := le b a.
Definition gt (a b : number) : bool := lt b a.

End JsNumber.

Export JsNumber (number, NaN, NegInf, Fin, PosInf).

Declare Scope js_scope.
Delimit Scope js_scope with js.
Bind Scope js_scope with number.
Notation "a + b" := (JsNumber.add a b) : js_scope.
Notation "a - b" := (JsNumber.sub a b) : js_scope.
Notation "a * b" := (JsNumber.mul a b) : js_scope.
Notation "a / b" := (JsNumber.div a b) : js_scope.
Notation "a >=? b" := (JsNumber.ge a b) (at level 70) : js_scope.
Notation "a >? b" := (JsNumber.gt a b) (at level 70) : js_scope.
Notation "a <? b" := (JsNumber.lt a b) (at level 70) : js_scope.
Notation "a <=? b" := (JsNumber.le a b) (at level 70) : js_scope.

(** ** JavaScript strings *)

Module JsString.

(** A string is its sequence of UTF-16 code units. *)
Definition jsstring : Type := list N.

(** An ASCII literal. *)
Definition js (s : string) : jsstring :=
  map N_of_ascii (list_ascii_of_string s).

Definition length (s : jsstring) : nat := List.length s.

Fixpoint startsWith (s p : jsstring) : bool :=
  match p, s with
  | [], _ => true
  | _ :: _, [] => false
  | c :: p', d :: s' => N.eqb c d && startsWith s' p'
  end.

Fixpoint includes (s p : jsstring) : bool :=
  startsWith s p ||
  match s with
  | [] => false
  | _ :: s' => includes s' p
  end.

(** [s.slice(0, n)]. *)
Definition slice0 (s : jsstring) (n : nat) : jsstring := firstn n s.

(** [parts.join(sep)]. *)
Fixpoint join (sep : jsstring) (parts : list jsstring) : jsstring :=
  match parts with
  | [] => []
  | [p] => p
  | p :: rest => p ++ sep ++ join sep rest
  end.

Definition isDigit (c : N) : bool := (48 <=? c) && (c <=? 57).
Definition digitVal (c : N) : Z := Z.of_N (c - 48).

(** White space and line terminators skipped by [parseFloat] and
    [parseInt]. *)
Definition isStrWhiteSpace (c : N) : bool :=
  existsb (N.eqb c)
    [9; 10; 11; 12; 13; 32; 160; 5760; 8232; 8233; 8239; 8287; 12288; 65279]
  || ((8192 <=? c) && (c <=? 8202)).

Fixpoint trimStart (s : jsstring) : jsstring :=
  match s with
  | c :: s' => if isStrWhiteSpace c then trimStart s' else s
  | [] => []
  end.

(** The longest run of decimal digits at the head of [s], and the rest. *)
Fixpoint spanDigits (s : jsstring) : list N * jsstring :=
  match s with
  | c :: s' =>
      if isDigit c
      then let '(ds, r) := spanDigits s' in (c :: ds, r)
      else ([], s)
  | [] => ([], [])
  end.

Definition digitsVal (ds : list N) : Z :=
  fold_left (fun acc c => (10 * acc + digitVal c)%Z) ds 0%Z.

Definition pow10 (e : Z) : Q :=
  match e with
  | Z0 => 1
  | Zpos p => inject_Z (10 ^ Zpos p)
  | Zneg p => / inject_Z (10 ^ Zpos p)
  end.

(** An optional sign; the flag is [true] for a minus sign. *)
Definition takeSign (s : jsstring) : bool * jsstring :=
  match s with
  | 43 :: r => (false, r)
  | 45 :: r => (true, r)
  | _ => (false, s)
  end.

(** The exponent part [e[+-]digits] of a decimal literal; [0] when the
    text does not continue with a complete exponent. *)
Definition takeExponent (s : jsstring) : Z :=
  match s with
  | c :: r =>
      if N.eqb c 101 || N.eqb c 69 then
        let '(sg, r1) := takeSign r in
        let '(ds, _) := spanDigits r1 in
        match ds with
        | [] => 0%Z
        | _ => if sg then (- digitsVal ds)%Z else digitsVal ds
        end
      else 0%Z
  | [] => 0%Z
  end.

(** [parseFloat(s)]: the longest prefix of the trimmed text that is a
    decimal literal, [NaN] when there is none. *)
Definition parseFloat (s : jsstring) : number :=
  let '(sg, r) := takeSign (trimStart s) in
  if startsWith r (js "Infinity") then (if sg then NegInf else PosInf)
  else
    let '(ip, r1) := spanDigits r in
    let '(fp, r2) :=
      match r1 with
      | 46 :: r' => spanDigits r'
      | _ => ([], r1)
      end in
    match ip ++ fp with
    | [] => NaN
    | ds =>
        let m := inject_Z (digitsVal ds) in
        let e := (takeExponent r2 - Z.of_nat (List.length fp))%Z in
        let v := (m * pow10 e)%Q in
        Fin (Qred (if sg then - v else v))
    end.

(** [parseInt(s, 10)]. *)
Definition parseInt10 (s : jsstring) : number :=
  let '(sg, r) := takeSign (trimStart s) in
  let '(ds, _) := spanDigits r in
  match ds with
  | [] => NaN
  | _ => JsNumber.ofZ (if sg then - digitsVal ds else digitsVal ds)
  end.

End JsString.

Export JsString (jsstring, js).

(** ** Regular expressions

    The patterns of the plugin use literals, classes, alternation and
    repetition only, so [RegExp.prototype.test] is membership of some
    substring (or of the whole text, for an anchored pattern) in the
    language of the pattern; it is decided with derivatives. *)

Module Regex.

Inductive regex : Type :=
| Empty
| Eps
| Class (ranges : list (N * N))
| Seq (r1 r2 : regex)
| Alt (r1 r2 : regex)
| Star (r : regex).

Definition inClass (ranges : list (N * N)) (c : N) : bool :=
  existsb (fun '(lo, hi) => (lo <=? c) && (c <=? hi)) ranges.

(** Upper-case mapping of a code unit as the [i] flag applies it, over
    Basic Latin, Latin-1 Supplement and Latin Extended-A; a code unit
    whose upper case is several characters, or is ASCII while the unit
    itself is not, is left alone. *)
Definition toUpper (c : N) : N :=
  if (97 <=? c) && (c <=? 122) then c - 32
  else if (224 <=? c) && (c <=? 254) && negb (c =? 247) then c - 32
  else if c =? 255 then 376
  else if (256 <=? c) && (c <=? 311) && N.odd c && negb (c =? 305) then c - 1
  else if (313 <=? c) && (c <=? 328) && N.even c then c - 1
  else if (330 <=? c) && (c <=? 375) && N.odd c then c - 1
  else if (377 <=? c) && (c <=? 382) && N.even c then c - 1
  else c.

Definition toLower (c : N) : N :=
  if (65 <=? c) && (c <=? 90) then c + 32
  else if (192 <=? c) && (c <=? 222) && negb (c =? 215) then c + 32
  else if c =? 376 then 255
  else if (256 <=? c) && (c <=? 311) && N.even c && negb (c =? 304) then c + 1
  else if (313 <=? c) && (c <=? 328) && N.odd c then c + 1
  else if (330 <=? c) && (c <=? 375) && N.even c then c + 1
  else if (377 <=? c) && (c <=? 382) && N.odd c then c + 1
  else c.

Definition chr (c : N) : regex := Class [(c, c)].

(** A literal character under the [i] flag. *)
Definition chrI (c : N) : regex :=
  Class [(c, c); (toUpper c, toUpper c); (toLower c, toLower c)].

Fixpoint lit (s : jsstring) : regex :=
  match s with
  | [] => Eps
  | [c] => chr c
  | c :: s' => Seq (chr c) (lit s')
  end.

Fixpoint litI (s : jsstring) : regex :=
  match s with
  | [] => Eps
  | [c] => chrI c
  | c :: s' => Seq (chrI c) (litI s')
  end.

Fixpoint alts (rs : list regex) : regex :=
  match rs with
  | [] => Empty
  | [r] => r
  | r :: rs' => Alt r (alts rs')
  end.

Fixpoint seqs (rs : list regex) : regex :=
  match rs with
  | [] => Eps
  | [r] => r
  | r :: rs' => Seq r (seqs rs')
  end.

(** [r{n}], [r{n,}], [r+]. *)
Fixpoint times (n : nat) (r : regex) : regex :=
  match n with
  | O => Eps
  | S O => r
  | S n' => Seq r (times n' r)
  end.

Definition atLeast (n : nat) (r : regex) : regex := Seq (times n r) (Star r).
Definition plus (r : regex) : regex := Seq r (Star r).

(** [\d], [\w], [\s]. *)
Definition digit : regex := Class [(48, 57)].
Definition word : regex := Class [(65, 90); (97, 122); (48, 57); (95, 95)].
Definition space : regex :=
  Class [(9, 13); (32, 32); (160, 160); (5760, 5760); (8192, 8202);
         (8232, 8233); (8239, 8239); (8287, 8287); (12288, 12288);
         (65279, 65279)].

Fixpoint nullable (r : regex) : bool :=
  match r with
  | Empty => false
  | Eps => true
  | Class _ => false
  | Seq a b => nullable a && nullable b
  | Alt a b => nullable a || nullable b
  | Star _ => true
  end.

Definition mkSeq (a b : regex) : regex :=
  match a, b with
  | Empty, _ | _, Empty => Empty
  | Eps, _ => b
  | _, _ => Seq a b
  end.

Definition mkAlt (a b : regex) : regex :=
  match a, b with
  | Empty, _ => b
  | _, Empty => a
  | _, _ => Alt a b
  end.

Fixpoint deriv (c : N) (r : regex) : regex :=
  match r with
  | Empty | Eps => Empty
  | Class rs => if inClass rs c then Eps else Empty
  | Seq a b =>
      mkAlt (mkSeq (deriv c a) b) (if nullable a then deriv c b else Empty)
  | Alt a b => mkAlt (deriv c a) (deriv c b)
  | Star a => mkSeq (deriv c a) (Star a)
  end.

(** The whole text is in the language: a pattern written [^...$]. *)
Fixpoint matches (r : regex) (s : jsstring) : bool :=
  match s with
  | [] => nullable r
  | c :: s' => matches (deriv c r) s'
  end.

(** Some prefix of the text is in the language. *)
Fixpoint matchesPrefix (r : regex) (s : jsstring) : bool :=
  nullable r ||
  match s with
  | [] => false
  | c :: s' => matchesPrefix (deriv c r) s'
  end.

(** Some substring of the text is in the language: [r.test(s)] for a
    pattern without anchors. *)
Fixpoint test (r : regex) (s : jsstring) : bool :=
  matchesPrefix r s ||
  match s with
  | [] => false
  | _ :: s' => test r s'
  end.

End Regex.

(** ** Rule-based capture filter *)

Module Capture.
Import JsString Regex.

Definition MEMORY_TRIGGERS : list regex :=
  [ (* /zapamatuj si|pamatuj|remember/i *)
    alts [litI (js "zapamatuj si"); litI (js "pamatuj"); litI (js "remember")];
    (* /preferuji|radši|nechci|prefer/i *)
    alts [litI (js "preferuji"); litI (js "rad" ++ [353] ++ js "i");
          litI (js "nechci"); litI (js "prefer")];
    (* /rozhodli jsme|budeme používat/i *)
    alts [litI (js "rozhodli jsme");
          litI (js "budeme pou" ++ [382; 237] ++ js "vat")];
    (* /\+\d{10,}/ *)
    Seq (chr 43) (atLeast 10 digit);
    (* /[\w.-]+@[\w.-]+\.\w+/ *)
    (let wdh := Class [(65, 90); (97, 122); (48, 57); (95, 95); (46, 46); (45, 45)] in
     seqs [plus wdh; chr 64; plus wdh; chr 46; plus word]);
    (* /můj\s+\w+\s+je|je\s+můj/i *)
    (let muj := litI [109; 367; 106] in
     Alt (seqs [muj; plus space; plus word; plus space; litI (js "je")])
         (seqs [litI (js "je"); plus space; muj]));
    (* /my\s+\w+\s+is|is\s+my/i *)
    Alt (seqs [litI (js "my"); plus space; plus word; plus space; litI (js "is")])
        (seqs [litI (js "is"); plus space; litI (js "my")]);
    (* /i (like|prefer|hate|love|want|need)/i *)
    Seq (litI (js "i "))
        (alts [litI (js "like"); litI (js "prefer"); litI (js "hate");
               litI (js "love"); litI (js "want"); litI (js "need")]);
    (* /always|never|important/i *)
    alts [litI (js "always"); litI (js "never"); litI (js "important")] ].

(** The code points of a text, as a pattern with the [u] flag reads it:
    a high surrogate followed by a low one is a single code point. [hi]
    is the high surrogate read just before, if any. *)
Definition isHighSurrogate (c : N) : bool := (55296 <=? c) && (c <=? 56319).
Definition isLowSurrogate (c : N) : bool := (56320 <=? c) && (c <=? 57343).

Fixpoint codePointsFrom (hi : option N) (s : jsstring) : list N :=
  match s with
  | [] => match hi with Some h => [h] | None => [] end
  | c :: s' =>
      match hi with
      | Some h =>
          if isLowSurrogate c
          then (65536 + (h - 55296) * 1024 + (c - 56320)) :: codePointsFrom None s'
          else if isHighSurrogate c then h :: codePointsFrom (Some c) s'
          else h :: c :: codePointsFrom None s'
      | None =>
          if isHighSurrogate c then codePointsFrom (Some c) s'
          else c :: codePointsFrom None s'
      end
  end.

Definition codePoints (s : jsstring) : list N := codePointsFrom None s.

(** [(text.match(/[\u{1F300}-\u{1F9FF}]/gu) || []).length] *)
Definition emojiCount (text : jsstring) : nat :=
  List.length (filter (fun cp => (127744 <=? cp) && (cp <=? 129535)) (codePoints text)).

Definition shouldCapture (text : jsstring) : bool :=
  if (length text <? 10)%nat || (500 <? length text)%nat then false
  (* Skip injected context from memory recall *)
  else if includes text (js "<relevant-memories>") then false
  (* Skip system-generated content *)
  else if startsWith text (js "<") && includes text (js "</") then false
  (* Skip agent summary responses (contain markdown formatting) *)
  else if includes text (js "**") && includes text (10 :: js "-") then false
  (* Skip emoji-heavy responses (likely agent output) *)
  else if (3 <? emojiCount text)%nat then false
  else existsb (fun r => test r text) MEMORY_TRIGGERS.

End Capture.

(** ** Data model *)

(** A value of type [unknown] read from a search result document. *)
Inductive jsval : Type :=
| JUndefined
| JNull
| JBool (b : bool)
| JNum (n : number)
| JStr (s : jsstring)
| JObject.

(** [category] is cast to [MemoryCategory] without a check when a document
    is read back, so it is a string here. *)
Record MemoryEntry : Type := {
  id : jsstring;
  text : jsstring;
  vector : list number;
  importance : number;
  category : jsstring;
  createdAt : number;
  role : option jsstring;
  embeddingModel : option jsstring
}.

Record MemorySearchResult : Type := {
  entry : MemoryEntry;
  score : number
}.

(** [Omit<MemoryEntry, "id" | "createdAt">], the argument of [store]. *)
Record NewEntry : Type := {
  new_text : jsstring;
  new_vector : list number;
  new_importance : number;
  new_category : jsstring;
  new_role : option jsstring;
  new_embeddingModel : option jsstring
}.

(** [doc.value] of a search result: the fields the plugin reads from it.
    A field the engine did not return is [JUndefined]. *)
Record Document : Type := {
  data_id : jsval;
  data_text : jsval;
  data_category : jsval;
  data_importance : jsval;
  data_createdAt : jsval;
  data_role : jsval;
  data_embeddingModel : jsval;
  data_score : jsval
}.

(** ** Effects *)

Inductive jserror : Type :=
| InvalidMemoryId (id : jsstring)     (* Error(`Invalid memory ID format: ${id}`) *)
| Rejected (reason : jsstring).       (* an error raised outside the plugin *)

Inductive outcome (A : Type) : Type :=
| Returns (a : A)
| Throws (e : jserror).
Arguments Returns {A} a.
Arguments Throws {A} e.

(** The Redis keyspace: JSON documents by key. *)
Abbreviation keyspace := (gmap jsstring MemoryEntry).

Record Provider : Type := {
  provider_id : jsstring;
  provider_model : jsstring
}.

(** What lies outside the plugin. Every oracle takes the number of
    external calls made before it, so that two calls with the same
    arguments may answer differently. *)
Record World : Type := {
  connect : nat -> outcome unit;
  ft_info : nat -> outcome unit;
  ft_create : nat -> nat -> outcome unit;
  (* FT.SEARCH idx "*=>[KNN limit @vector $BLOB AS score]" SORTBY score ASC *)
  ft_search_knn : nat -> keyspace -> list number -> nat -> outcome (list Document);
  (* FT.SEARCH idx query LIMIT 0 size *)
  ft_search_text : nat -> keyspace -> jsstring -> nat -> outcome (list Document);
  createEmbeddingProvider : nat -> outcome Provider;
  embedQuery : nat -> jsstring -> outcome (list number);
  randomUUID : nat -> jsstring;
  dateNow : nat -> number
}.

(** The fields of the [RedisMemoryDB] object. [client] is [None] for
    [null] and otherwise holds the client's [isOpen] flag; a promise is
    represented by its outcome. *)
Record DbFields : Type := {
  client : option bool;
  db_initPromise : option (outcome unit);
  indexCreated : bool;
  vectorDim : nat
}.

(** The fields of the [Embeddings] object. *)
Record EmbFields : Type := {
  provider : option Provider;
  emb_initPromise : option (outcome unit);
  providerInfo : jsstring
}.

Record State : Type := {
  tick : nat;
  keys : keyspace;
  db : DbFields;
  emb : EmbFields
}.

Definition M (A : Type) : Type := State -> outcome A * State.

Definition ret {A} (a : A) : M A := fun s => (Returns a, s).
Definition throw {A} (e : jserror) : M A := fun s => (Throws e, s).

Definition bind {A B} (m : M A) (k : A -> M B) : M B :=
  fun s =>
    match m s with
    | (Returns a, s') => k a s'
    | (Throws e, s') => (Throws e, s')
    end.

Definition tryCatch {A} (m : M A) (handler : jserror -> M A) : M A :=
  fun s =>
    match m s with
    | (Returns a, s') => (Returns a, s')
    | (Throws e, s') => handler e s'
    end.

(** Re-raise or return a settled promise. *)
Definition settle {A} (o : outcome A) : M A := fun s => (o, s).

(** An external call: consult the oracle and advance the call counter. *)
Definition advance (s : State) : State :=
  {| tick := S (tick s); keys := keys s; db := db s; emb := emb s |}.

Definition extern {A} (f : nat -> outcome A) : M A :=
  fun s => (f (tick s), advance s).

Definition getDb : M DbFields := fun s => (Returns (db s), s).
Definition getEmb : M EmbFields := fun s => (Returns (emb s), s).
Definition getKeys : M keyspace := fun s => (Returns (keys s), s).

Definition setDb (d : DbFields) : M unit :=
  fun s => (Returns tt, {| tick := tick s; keys := keys s; db := d; emb := emb s |}).
Definition setEmb (e : EmbFields) : M unit :=
  fun s => (Returns tt, {| tick := tick s; keys := keys s; db := db s; emb := e |}).
Definition setKeys (k : keyspace) : M unit :=
  fun s => (Returns tt, {| tick := tick s; keys := k; db := db s; emb := emb s |}).

Declare Scope m_scope.
Delimit Scope m_scope with M.
Notation "'let*' x ':=' m 'in' k" := (bind m (fun x => k))
  (at level 10, x name, m at level 100, k at level 200) : m_scope.
Notation "'do' m 'in' k" := (bind m (fun _ => k))
  (at level 10, m at level 100, k at level 200) : m_scope.
Local Open Scope m_scope.

Record Config : Type := {
  indexName : jsstring;
  keyPrefix : jsstring;
  autoCapture : bool;
  autoRecall : bool
}.

(** ** Redis memory provider *)

Module RedisMemoryDB.
Import JsNumber JsString.

Section WithWorld.
Variable w : World.
Variable cfg : Config.

Definition setVectorDim (dim : nat) : M unit :=
  let* d := getDb in
  setDb {| client := client d; db_initPromise := db_initPromise d;
           indexCreated := indexCreated d; vectorDim := dim |}.

Definition setClient (c : option bool) : M unit :=
  let* d := getDb in
  setDb {| client := c; db_initPromise := db_initPromise d;
           indexCreated := indexCreated d; vectorDim := vectorDim d |}.

Definition setInitPromise (p : option (outcome unit)) : M unit :=
  let* d := getDb in
  setDb {| client := client d; db_initPromise := p;
           indexCreated := indexCreated d; vectorDim := vectorDim d |}.

Definition setIndexCreated (b : bool) : M unit :=
  let* d := getDb in
  setDb {| client := client d; db_initPromise := db_initPromise d;
           indexCreated := b; vectorDim := vectorDim d |}.

Definition ensureIndex : M unit :=
  let* d := getDb in
  if indexCreated d then ret tt
  else
    tryCatch
      ((* Check if index exists *)
       do extern (ft_info w) in
       setIndexCreated true)
      (fun _ =>
         (* Index doesn't exist, create it *)
         tryCatch
           (do extern (fun t => ft_create w t (vectorDim d)) in
            setIndexCreated true)
           (fun createErr => throw createErr)).

Definition doInitialize : M unit :=
  do setClient (Some false) in
  do extern (connect w) in
  do setClient (Some true) in
  ensureIndex.

(** [this.initPromise = this.doInitialize(); return this.initPromise]:
    the promise is recorded together with the way it settles. *)
Definition ensureInitialized : M unit :=
  let* d := getDb in
  match client d with
  | Some true => ret tt
  | _ =>
      match db_initPromise d with
      | Some p => settle p
      | None =>
          fun s =>
            let '(o, s') := doInitialize s in
            (do setInitPromise (Some o) in settle o) s'
      end
  end.

Definition key_of (i : jsstring) : jsstring := keyPrefix cfg ++ js ":" ++ i.

Definition store (e : NewEntry) : M MemoryEntry :=
  do ensureInitialized in
  let* uuid := extern (fun t => Returns (randomUUID w t)) in
  let* now := extern (fun t => Returns (dateNow w t)) in
  let fullEntry :=
    {| id := uuid; text := new_text e; vector := new_vector e;
       importance := new_importance e; category := new_category e;
       createdAt := now; role := new_role e;
       embeddingModel := new_embeddingModel e |} in
  let key := key_of (id fullEntry) in
  let* ks := getKeys in
  do setKeys (<[key := fullEntry]> ks) in
  ret fullEntry.

(** The entry the two search functions build from a result document. *)
Definition entryOf (data : Document) : MemoryEntry :=
  let idVal := match data_id data with JStr s => s | _ => [] end in
  let textVal := match data_text data with JStr s => s | _ => [] end in
  let importanceVal :=
    match data_importance data with
    | JNum n => n
    | JStr s => parseFloat s
    | _ => zero
    end in
  let categoryVal := match data_category data with JStr s => s | _ => js "other" end in
  let createdAtVal :=
    match data_createdAt data with
    | JNum n => n
    | JStr s => parseInt10 s
    | _ => zero
    end in
  let roleVal := match data_role data with JStr s => Some s | _ => None end in
  let embeddingModelVal :=
    match data_embeddingModel data with JStr s => Some s | _ => None end in
  {| id := idVal; text := textVal;
     vector := [];  (* Don't return vector in search results *)
     importance := importanceVal; category := categoryVal;
     createdAt := createdAtVal; role := roleVal;
     embeddingModel := embeddingModelVal |}.

(** Redis returns cosine distance (0 = identical, 2 = opposite). *)
Definition distanceOf (data : Document) : number :=
  match data_score data with
  | JNum n => n
  | JStr s => parseFloat s
  | _ => zero
  end.

(** Convert to similarity score (1 = identical, 0 = opposite). *)
Definition scoreOfDistance (distance : number) : number :=
  (one - distance / two)%js.

(** The loop of [search] over [results.documents]. *)
Fixpoint searchMapped (documents : list Document) (minScore : number)
  : list MemorySearchResult :=
  match documents with
  | [] => []
  | data :: rest =>
      let distance := distanceOf data in
      let score := scoreOfDistance distance in
      if (score >=? minScore)%js
      then {| entry := entryOf data; score := score |} :: searchMapped rest minScore
      else searchMapped rest minScore
  end.

Definition search (vector : list number) (limit : nat) (minScore : number)
  : M (list MemorySearchResult) :=
  do ensureInitialized in
  let* ks := getKeys in
  let* documents := extern (fun t => ft_search_knn w t ks vector limit) in
  ret (searchMapped documents minScore).

(** [/^[0-9a-f]{8}-[0-9a-f]{4}-[0-9a-f]{4}-[0-9a-f]{4}-[0-9a-f]{12}$/i] *)
Definition uuidRegex : Regex.regex :=
  let hex := Regex.Class [(48, 57); (97, 102); (65, 70)] in
  let dash := Regex.chr 45 in
  Regex.seqs [Regex.times 8 hex; dash; Regex.times 4 hex; dash;
              Regex.times 4 hex; dash; Regex.times 4 hex; dash;
              Regex.times 12 hex].

Definition delete (i : jsstring) : M bool :=
  do ensureInitialized in
  (* Validate UUID format to prevent injection *)
  if negb (Regex.matches uuidRegex i) then throw (InvalidMemoryId i)
  else
    let key := key_of i in
    let* ks := getKeys in
    (* DEL key: the number of keys removed *)
    let deleted := match ks !! key with Some _ => 1%nat | None => 0%nat end in
    do setKeys (base.delete key ks) in
    ret (0 <? deleted)%nat.

(** The class of the pattern in [query.replace(..., ...)] of [textSearch]:
    backslash, at sign, exclamation mark, braces, parentheses, bar,
    brackets, double and single quote, colon, semicolon, comma, full stop,
    angle brackets, tilde, star, question mark, caret, dollar, plus and
    hyphen. Each occurrence is replaced by a backslash and itself. *)
Definition isSpecial (c : N) : bool :=
  existsb (N.eqb c)
    [92; 64; 33; 123; 125; 40; 41; 124; 91; 93; 34; 39; 58; 59; 44; 46;
     60; 62; 126; 42; 63; 94; 36; 43; 45].

Definition escapeQuery (query : jsstring) : jsstring :=
  flat_map (fun c => if isSpecial c then [92; c] else [c]) query.

Definition textMapped (documents : list Document) : list MemorySearchResult :=
  map (fun data =>
         {| entry := entryOf data;
            (* Text search doesn't return similarity scores, use 1.0 for matches *)
            score := one |})
      documents.

Definition textSearch (query : jsstring) (limit : nat)
  : M (list MemorySearchResult) :=
  do ensureInitialized in
  let escapedQuery := escapeQuery query in
  let* ks := getKeys in
  let* documents :=
    extern (fun t => ft_search_text w t ks (js "@text:" ++ escapedQuery ++ js "*") limit) in
  ret (textMapped documents).

End WithWorld.
End RedisMemoryDB.

(** ** Embedding wrapper *)

Module Embeddings.
Import JsString.

Section WithWorld.
Variable w : World.
Variable cfg : Config.

Definition doInitialize : M unit :=
  let* result := extern (createEmbeddingProvider w) in
  let* e := getEmb in
  do setEmb {| provider := Some result;
               emb_initPromise := emb_initPromise e;
               providerInfo := provider_id result ++ js "/" ++ provider_model result |} in
  (* Detect vector dimension by doing a test embedding *)
  let* testVector := extern (fun t => embedQuery w t (js "test")) in
  (* onDimensionKnown, as [register] passes it *)
  RedisMemoryDB.setVectorDim (List.length testVector).

Definition ensureInitialized : M unit :=
  let* e := getEmb in
  match provider e with
  | Some _ => ret tt
  | None =>
      match emb_initPromise e with
      | Some p => settle p
      | None =>
          fun s =>
            let '(o, s') := doInitialize s in
            (let* e' := getEmb in
             do setEmb {| provider := provider e'; emb_initPromise := Some o;
                          providerInfo := providerInfo e' |} in
             settle o) s'
      end
  end.

Definition embed (t : jsstring) : M (list number) :=
  do ensureInitialized in
  extern (fun n => embedQuery w n t).

Definition getProviderInfo : M jsstring :=
  let* e := getEmb in ret (providerInfo e).

End WithWorld.
End Embeddings.

(** ** Plugin definition: tools and lifecycle hooks *)

Module Plugin.
Import JsNumber JsString.

(** [Map<string, MemorySearchResult>]: entries in insertion order; setting
    an existing key replaces its value where it stands. *)
Definition jsmap : Type := list (jsstring * MemorySearchResult).

Fixpoint map_has (m : jsmap) (k : jsstring) : bool :=
  match m with
  | [] => false
  | (k', _) :: m' => if decide (k' = k) then true else map_has m' k
  end.

Fixpoint map_set (m : jsmap) (k : jsstring) (v : MemorySearchResult) : jsmap :=
  match m with
  | [] => [(k, v)]
  | (k', v') :: m' =>
      if decide (k' = k) then (k', v) :: m' else (k', v') :: map_set m' k v
  end.

Definition map_values (m : jsmap) : list MemorySearchResult := map snd m.

(** [toSorted(compareFn)]: the stable sort of the list. [compareFn a b > 0]
    puts [a] after [b]; any other answer, [NaN] included, keeps [a] first.
    For a consistent comparator every stable sort returns this list; for
    an inconsistent one the language leaves the order open, and only the
    facts that hold of any rearrangement are stated below. *)
Fixpoint insertSorted {A} (compareFn : A -> A -> number) (a : A) (l : list A)
  : list A :=
  match l with
  | [] => [a]
  | b :: l' =>
      if (compareFn a b >? zero)%js
      then b :: insertSorted compareFn a l'
      else a :: l
  end.

Definition toSorted {A} (compareFn : A -> A -> number) (l : list A) : list A :=
  foldr (insertSorted compareFn) [] l.

Definition withScore (r : MemorySearchResult) (s : number) : MemorySearchResult :=
  {| entry := entry r; score := s |}.

(** The two loops that fill [seen]. *)
Definition seenVector (vectorResults : list MemorySearchResult) : jsmap :=
  fold_left (fun seen r => map_set seen (id (entry r)) r) vectorResults [].

Definition seenText (seen0 : jsmap) (textResults : list MemorySearchResult) : jsmap :=
  fold_left
    (fun seen r =>
       if negb (map_has seen (id (entry r)))
       then
         (* Text-only matches get a lower score boost *)
         map_set seen (id (entry r)) (withScore r (score r * Fin (4 # 5))%js)
       else seen)
    textResults seen0.

(** Merge results, preferring vector scores for duplicates; sort by score
    descending, take top limit. *)
Definition hybridMerge (vectorResults textResults : list MemorySearchResult)
    (limit : nat) : list MemorySearchResult :=
  let seen := seenText (seenVector vectorResults) textResults in
  firstn limit
    (toSorted (fun a b => (score b - score a)%js) (map_values seen)).

Inductive SearchMode : Type := ModeVector | ModeText | ModeHybrid.

(** [String(n)] for a length or an index. *)
Definition natToString (n : nat) : jsstring :=
  js (NilZero.string_of_uint (Nat.to_uint n)).

Definition modeName (m : SearchMode) : jsstring :=
  match m with
  | ModeVector => js "vector"
  | ModeText => js "text"
  | ModeHybrid => js "hybrid"
  end.

(** [r.entry.role ? ` (${r.entry.role})` : ""]: an empty string is falsy. *)
Definition roleSuffix (r : option jsstring) : jsstring :=
  match r with
  | Some (c :: rest) => js " (" ++ c :: rest ++ js ")"
  | _ => []
  end.

Record SanitizedMemory : Type := {
  mem_id : jsstring;
  mem_text : jsstring;
  mem_category : jsstring;
  mem_importance : number;
  mem_role : option jsstring;
  mem_embeddingModel : option jsstring;
  mem_score : number
}.

Definition sanitize (r : MemorySearchResult) : SanitizedMemory :=
  {| mem_id := id (entry r); mem_text := text (entry r);
     mem_category := category (entry r); mem_importance := importance (entry r);
     mem_role := role (entry r); mem_embeddingModel := embeddingModel (entry r);
     mem_score := score r |}.

Record RecallDetails : Type := {
  recall_count : nat;
  recall_mode : SearchMode;
  recall_memories : option (list SanitizedMemory)
}.

Inductive StoreDetails : Type :=
| StoreDuplicate (existingId existingText : jsstring)
| StoreCreated (newId embeddingModel : jsstring).

Record Candidate : Type := {
  cand_id : jsstring;
  cand_text : jsstring;
  cand_category : jsstring;
  cand_score : number
}.

Inductive ForgetDetails : Type :=
| ForgetDeleted (deletedId : jsstring)      (* { action: "deleted", id } *)
| ForgetFound0                              (* { found: 0 } *)
| ForgetCandidates (cs : list Candidate)    (* { action: "candidates", candidates } *)
| ForgetMissingParam.                       (* { error: "missing_param" } *)

(** A tool result: the text of its single content block and its details. *)
Record ToolResult (D : Type) : Type := {
  content : jsstring;
  details : D
}.
Arguments content {D} _.
Arguments details {D} _.

Definition MEMORY_SYSTEM_PROMPT : jsstring :=
  join [10]
    [ js "You have access to a long-term memory system stored in Redis. Use these tools to remember important information across conversations:";
      [];
      js "- **memory_store**: Store important facts, preferences, decisions, or entities. Use this when the user shares personal information, preferences, or asks you to remember something.";
      js "- **memory_recall**: Search your memories when you need context about the user or past conversations.";
      js "- **memory_forget**: Delete memories when requested (GDPR compliance).";
      [];
      js "IMPORTANT: When the user tells you something about themselves (name, preferences, important facts) or explicitly asks you to remember something, use memory_store to save it - don't just write it to a file." ].

Section WithWorld.
Variable w : World.
Variable cfg : Config.
(** [x.toFixed(0)]: its digits depend on the binary64 value of [x], which
    the number model does not represent. *)
Variable toFixed0 : number -> jsstring.

Local Abbreviation search := (RedisMemoryDB.search w).
Local Abbreviation textSearch := (RedisMemoryDB.textSearch w).
Local Abbreviation embed := (Embeddings.embed w).

(** The [results] of [memory_recall] for a mode. [Promise.all] of the two
    searches of the hybrid mode is the vector search followed by the text
    search. *)
Definition recallResults (query : jsstring) (limit : nat) (mode : SearchMode)
  : M (list MemorySearchResult) :=
  match mode with
  | ModeText =>
      (* Full-text keyword search *)
      textSearch query limit
  | ModeHybrid =>
      (* Hybrid: combine vector and text results, deduplicate by ID *)
      let* vector := embed query in
      let* vectorResults := search vector limit (Fin (1 # 10)) in
      let* textResults := textSearch query limit in
      ret (hybridMerge vectorResults textResults limit)
  | ModeVector =>
      (* Default: vector semantic search *)
      let* vector := embed query in
      search vector limit (Fin (1 # 10))
  end.

Definition recallLine (i : nat) (r : MemorySearchResult) : jsstring :=
  natToString (i + 1) ++ js ". [" ++ category (entry r) ++ js "]"
  ++ roleSuffix (role (entry r)) ++ js " " ++ text (entry r)
  ++ js " (" ++ toFixed0 (score r * Fin 100)%js ++ js "%)".

Definition memory_recall (query : jsstring) (limitParam : option nat)
    (modeParam : option SearchMode) : M (ToolResult RecallDetails) :=
  let limit := default 5%nat limitParam in
  let mode := default ModeVector modeParam in
  let* results := recallResults query limit mode in
  match results with
  | [] =>
      ret {| content := js "No relevant memories found.";
             details := {| recall_count := 0; recall_mode := mode;
                           recall_memories := None |} |}
  | _ =>
      let text := join [10] (imap recallLine results) in
      let sanitizedResults := map sanitize results in
      ret {| content :=
               js "Found " ++ natToString (List.length results) ++ js " memories ("
               ++ modeName mode ++ js " search):" ++ [10; 10] ++ text;
             details := {| recall_count := List.length results; recall_mode := mode;
                           recall_memories := Some sanitizedResults |} |}
  end.

Definition memory_store (txt : jsstring) (importanceParam : option number)
    (categoryParam : option jsstring) : M (ToolResult StoreDetails) :=
  let importance := default (Fin (7 # 10)) importanceParam in
  let category := default (js "other") categoryParam in
  let* vector := embed txt in
  (* Check for duplicates *)
  let* existing := search vector 1 (Fin (19 # 20)) in
  match existing with
  | existing0 :: _ =>
      ret {| content :=
               js "Similar memory already exists: " ++ [34] ++ text (entry existing0) ++ [34];
             details := StoreDuplicate (id (entry existing0)) (text (entry existing0)) |}
  | [] =>
      let* info := Embeddings.getProviderInfo in
      let* stored :=
        RedisMemoryDB.store w cfg
          {| new_text := txt; new_vector := vector; new_importance := importance;
             new_category := category;
             new_role := Some (js "user");  (* Tool-based storage is typically user-requested *)
             new_embeddingModel := Some info |} in
      let* info' := Embeddings.getProviderInfo in
      ret {| content := js "Stored in Redis: " ++ [34] ++ slice0 txt 100 ++ js "..." ++ [34];
             details := StoreCreated (id stored) info' |}
  end.

Definition truthy (s : option jsstring) : option jsstring :=
  match s with
  | Some (c :: rest) => Some (c :: rest)
  | _ => None
  end.

Definition candidateOf (r : MemorySearchResult) : Candidate :=
  {| cand_id := id (entry r); cand_text := text (entry r);
     cand_category := category (entry r); cand_score := score r |}.

Definition memory_forget (query memoryId : option jsstring)
  : M (ToolResult ForgetDetails) :=
  match truthy memoryId with
  | Some memoryId =>
      do RedisMemoryDB.delete w cfg memoryId in
      ret {| content := js "Memory " ++ memoryId ++ js " forgotten.";
             details := ForgetDeleted memoryId |}
  | None =>
      match truthy query with
      | Some query =>
          let* vector := embed query in
          let* results := search vector 5 (Fin (7 # 10)) in
          match results with
          | [] =>
              ret {| content := js "No matching memories found.";
                     details := ForgetFound0 |}
          | results0 :: rest =>
              if (match rest with [] => true | _ => false end)
                 && (score results0 >? Fin (9 # 10))%js
              then
                do RedisMemoryDB.delete w cfg (id (entry results0)) in
                ret {| content := js "Forgotten: " ++ [34] ++ text (entry results0) ++ [34];
                       details := ForgetDeleted (id (entry results0)) |}
              else
                let list :=
                  join [10]
                    (map (fun r => js "- [" ++ slice0 (id (entry r)) 8 ++ js "] "
                                   ++ slice0 (text (entry r)) 60 ++ js "...")
                         results) in
                let sanitizedCandidates := map candidateOf results in
                ret {| content :=
                         js "Found " ++ natToString (List.length results)
                         ++ js " candidates. Specify memoryId:" ++ [10] ++ list;
                       details := ForgetCandidates sanitizedCandidates |}
          end
      | None =>
          ret {| content := js "Provide query or memoryId.";
                 details := ForgetMissingParam |}
      end
  end.

(** The [results] of the [redis-memory search] command. *)
Definition cliSearchResults (query : jsstring) (limit : nat) (mode : SearchMode)
  : M (list MemorySearchResult) :=
  match mode with
  | ModeText => textSearch query limit
  | ModeHybrid =>
      let* vector := embed query in
      let* vectorResults := search vector limit (Fin (3 # 10)) in
      let* textResults := textSearch query limit in
      ret (hybridMerge vectorResults textResults limit)
  | ModeVector =>
      let* vector := embed query in
      search vector limit (Fin (3 # 10))
  end.

(** Auto-recall: inject relevant memories before agent starts. The result
    is the [prependContext] of the object the hook returns. *)
Definition before_agent_start (prompt : option jsstring) : M jsstring :=
  match truthy prompt with
  | None =>
      (* Still return tool instructions even without recall *)
      ret MEMORY_SYSTEM_PROMPT
  | Some prompt =>
      if (length prompt <? 5)%nat then ret MEMORY_SYSTEM_PROMPT
      else
        tryCatch
          (if negb (autoRecall cfg) then ret MEMORY_SYSTEM_PROMPT
           else
             let* vector := embed prompt in
             let* results := search vector 3 (Fin (3 # 10)) in
             match results with
             | [] => ret MEMORY_SYSTEM_PROMPT
             | _ =>
                 let memoryContext :=
                   join [10]
                     (map (fun r => js "- [" ++ category (entry r) ++ js "]"
                                    ++ roleSuffix (role (entry r)) ++ js " "
                                    ++ text (entry r))
                          results) in
                 ret (MEMORY_SYSTEM_PROMPT ++ [10; 10] ++ js "<relevant-memories>" ++ [10]
                      ++ js "The following memories may be relevant to this conversation:"
                      ++ [10] ++ memoryContext ++ [10] ++ js "</relevant-memories>")
             end)
          (fun err => ret MEMORY_SYSTEM_PROMPT)
  end.

End WithWorld.
End Plugin.

(** ** Orders used in the statements *)

(** Ascending distance, the order the engine is asked for. *)
Definition byDistance (a b : Document) : Prop :=
  JsNumber.le (RedisMemoryDB.distanceOf a) (RedisMemoryDB.distanceOf b) = true.

(** Descending score: best similarity first. *)
Definition byScoreDesc (a b : MemorySearchResult) : Prop :=
  JsNumber.ge (score a) (score b) = true.

(** ** Initialised objects

    The store needs no further initialisation when its client is open or
    its initialisation promise is fulfilled; likewise the embedding
    wrapper when it has a provider or a fulfilled promise. *)
Definition dbReady (d : DbFields) : Prop :=
  client d = Some true \/ db_initPromise d = Some (Returns tt).

Definition embReady (e : EmbFields) : Prop :=
  is_Some (provider e) \/ emb_initPromise e = Some (Returns tt).

(** ** The canonical UUID shape

    36 code units: hexadecimal digits of either case in groups of 8, 4, 4,
    4 and 12, with a hyphen between the groups. *)
Definition isHexDigit (c : N) : bool :=
  Regex.inClass [(48, 57); (97, 102); (65, 70)] c.

(** [hasShape pat s]: [s] is as long as [pat] and has a hexadecimal digit
    where [pat] says [true] and a hyphen where it says [false]. *)
Fixpoint hasShape (pat : list bool) (s : jsstring) : bool :=
  match pat, s with
  | [], [] => true
  | h :: pat', c :: s' => (if h then isHexDigit c else N.eqb c 45) && hasShape pat' s'
  | _, _ => false
  end.

Definition uuidPattern : list bool :=
  repeat true 8 ++ [false] ++ repeat true 4 ++ [false] ++ repeat true 4
  ++ [false] ++ repeat true 4 ++ [false] ++ repeat true 12.

(** ** Vocabulary of the hybrid search statements *)

(** The ids of a result list, in order. *)
Definition idsOf (l : list MemorySearchResult) : list jsstring :=
  map (fun r => id (entry r)) l.

Definition noNaNScores (l : list MemorySearchResult) : Prop :=
  Forall (fun r => JsNumber.isNaN (score r) = false) l.

(** [x] stands before [y] in [l]. *)
Definition before {A} (x y : A) (l : list A) : Prop :=
  exists l1 l2 l3, l = l1 ++ x :: l2 ++ y :: l3.

(** The invariant of the map built from a prefix [V] of the vector
    results: keys are distinct, every entry sits under its own id and
    comes from [V], and every id of [V] has an entry. *)
Definition seenInv (m : Plugin.jsmap) (V : list MemorySearchResult) : Prop :=
  NoDup (map fst m) /\
  (forall k r, In (k, r) m -> k = id (entry r) /\ In r V) /\
  (forall r, In r V -> In (id (entry r)) (map fst m)).

(** ** A small world for concrete runs *)

Module Scenario.

Definition uuid1 : jsstring := js "123e4567-e89b-42d3-a456-426614174000".
Definition uuid2 : jsstring := js "0f8fad5b-d9cb-469f-a165-70867728950e".
Definition uuid3 : jsstring := js "7c9e6679-7425-40de-944b-e07fc1f90ae7".

(** A result document as the engine returns it: every field a string. *)
Definition document (i txt distance : jsstring) : Document :=
  {| data_id := JStr i; data_text := JStr txt; data_category := JStr (js "fact");
     data_importance := JStr (js "0.7"); data_createdAt := JStr (js "1700000000000");
     data_role := JStr (js "user"); data_embeddingModel := JUndefined;
     data_score := JStr distance |}.

(** An engine that answers a KNN query with every stored entry, at
    distance 0, and a text query with [textAnswer]; a provider that embeds
    every text as the same vector. *)
Definition world (textAnswer : list Document) : World :=
  {| connect := fun _ => Returns tt;
     ft_info := fun _ => Returns tt;
     ft_create := fun _ _ => Returns tt;
     ft_search_knn := fun _ ks _ limit =>
       Returns (firstn limit
                  (map (fun kv => document (id (snd kv)) (text (snd kv)) (js "0"))
                       (map_to_list ks)));
     ft_search_text := fun _ _ _ limit => Returns (firstn limit textAnswer);
     createEmbeddingProvider := fun _ =>
       Returns {| provider_id := js "local"; provider_model := js "toy" |};
     embedQuery := fun _ _ => Returns [Fin 1; Fin 0];
     randomUUID := fun _ => uuid1;
     dateNow := fun _ => Fin 1700000000000 |}.

(** The same world with a fixed answer to every KNN query. *)
Definition worldKnn (knnAnswer textAnswer : list Document) : World :=
  {| connect := connect (world textAnswer);
     ft_info := ft_info (world textAnswer);
     ft_create := ft_create (world textAnswer);
     ft_search_knn := fun _ _ _ _ => Returns knnAnswer;
     ft_search_text := ft_search_text (world textAnswer);
     createEmbeddingProvider := createEmbeddingProvider (world textAnswer);
     embedQuery := embedQuery (world textAnswer);
     randomUUID := randomUUID (world textAnswer);
     dateNow := dateNow (world textAnswer) |}.

Definition config : Config :=
  {| indexName := js "idx:openclaw:memories"; keyPrefix := js "openclaw:memory";
     autoCapture := false; autoRecall := true |}.

(** A document of a text query: the engine returns no score field. *)
Definition textDocument (i txt : jsstring) : Document :=
  {| data_id := JStr i; data_text := JStr txt; data_category := JStr (js "fact");
     data_importance := JStr (js "0.7"); data_createdAt := JStr (js "1700000000000");
     data_role := JStr (js "user"); data_embeddingModel := JUndefined;
     data_score := JUndefined |}.

(** Two vector matches, the second of which the text query finds too,
    next to a text-only match. *)
Definition knnTwo : list Document :=
  [document uuid1 (js "likes tea") (js "0.2");
   document uuid2 (js "has a dog") (js "1.4")].
Definition textTwo : list Document :=
  [textDocument uuid3 (js "owns a dog"); textDocument uuid2 (js "has a dog")].

(** One vector match at distance 1 and one text-only match. *)
Definition knnFar : list Document := [document uuid1 (js "likes tea") (js "1.0")].
Definition textOne : list Document := [textDocument uuid3 (js "drinks tea")].

(** A stored record and a keyspace that holds exactly it. *)
Definition stored (i txt : jsstring) : MemoryEntry :=
  {| id := i; text := txt; vector := [Fin 1; Fin 0]; importance := Fin (7 # 10);
     category := js "fact"; createdAt := Fin 1700000000000;
     role := Some (js "user"); embeddingModel := Some (js "local/toy") |}.

Definition oneRecord (i txt : jsstring) : keyspace :=
  {[ RedisMemoryDB.key_of config i := stored i txt ]}.

End Scenario.

(** The state in which [register] leaves the two objects, over a given
    keyspace: no client yet, the default vector dimension, no provider. *)
Definition initialState (ks : keyspace) : State :=
  {| tick := 0; keys := ks;
     db := {| client := None; db_initPromise := None; indexCreated := false;
              vectorDim := 1536 |};
     emb := {| provider := None; emb_initPromise := None;
               providerInfo := js "initializing" |} |}.

(** * More of the plugin

    The rest of [index.ts] and [config.ts]: tearing the connection down,
    the delete command, reading an escaped query back, the category
    rules, the capture hook and the configuration schema. *)

(** ** Connection teardown *)

Module Lifecycle.

Section WithQuit.
(** [client.quit()], an external call like those of the [World]. *)
Variable quit : nat -> outcome unit.

Definition disconnect : M unit :=
  let* d := getDb in
  do (match client d with
      | Some true => extern quit
      | _ => ret tt
      end) in
  let* d' := getDb in
  setDb {| client := None; db_initPromise := None;
           indexCreated := indexCreated d'; vectorDim := vectorDim d' |}.

End WithQuit.
End Lifecycle.

(** ** The delete command *)

Module Commands.

(** [redis-memory delete <id>]: the line the command prints. *)
Definition cliDelete (w : World) (cfg : Config) (i : jsstring) : M jsstring :=
  let* deleted := RedisMemoryDB.delete w cfg i in
  if deleted
  then ret (js "Deleted memory: " ++ i)
  else ret (js "Memory not found: " ++ i).

End Commands.

(** ** Reading an escaped query

    How the query syntax reads what [escapeQuery] produced: a backslash
    makes the next character literal. *)
Fixpoint unescapeQuery (s : jsstring) : jsstring :=
  match s with
  | [] => []
  | c :: r =>
      if N.eqb c 92
      then match r with
           | [] => [c]
           | c' :: r' => c' :: unescapeQuery r'
           end
      else c :: unescapeQuery r
  end.

(** ** Later states of a running plugin

    What a state can become while the plugin runs and the service is not
    stopped: any method of the store and of the embedding wrapper may be
    called, in any order and with any arguments (the tools, hooks and
    commands are sequences of such calls), and between two calls other
    clients may change the keyspace and the outside world may move on.
    [disconnect] is not among the steps: it is the service's stop. *)
Inductive later (w : World) (cfg : Config) (s : State) : State -> Prop :=
| later_now : later w cfg s s
| later_ensureInitialized s' :
    later w cfg s s' -> later w cfg s (snd (RedisMemoryDB.ensureInitialized w s'))
| later_store e s' :
    later w cfg s s' -> later w cfg s (snd (RedisMemoryDB.store w cfg e s'))
| later_search v limit minScore s' :
    later w cfg s s' -> later w cfg s (snd (RedisMemoryDB.search w v limit minScore s'))
| later_textSearch query limit s' :
    later w cfg s s' -> later w cfg s (snd (RedisMemoryDB.textSearch w query limit s'))
| later_delete i s' :
    later w cfg s s' -> later w cfg s (snd (RedisMemoryDB.delete w cfg i s'))
| later_embed t s' :
    later w cfg s s' -> later w cfg s (snd (Embeddings.embed w t s'))
| later_outside t ks s' :
    later w cfg s s' ->
    later w cfg s {| tick := t; keys := ks; db := db s'; emb := emb s' |}.

(** A computation that takes a state of the running plugin to a later
    one. *)
Definition staysLater (w : World) (cfg : Config) {A : Type} (m : M A) : Prop :=
  forall s0 s, later w cfg s0 s -> later w cfg s0 (snd (m s)).

(** The fields of the store that decide what [ensureInitialized] does
    next are the same in both states. *)
Definition sameConnection (d d' : DbFields) : Prop :=
  client d' = client d /\ db_initPromise d' = db_initPromise d /\
  indexCreated d' = indexCreated d.

(** The store has been through an initialisation: its client is open or
    its promise has settled, one way or the other. *)
Definition dbSettled (d : DbFields) : Prop :=
  client d = Some true \/ is_Some (db_initPromise d).

(** ** Values of unknown shape

    Messages of a conversation and the raw plugin configuration reach
    the plugin as values of type [unknown]. *)

Module JsData.
Import JsString.

(** An object is the list of its own enumerable properties, in the order
    in which [Object.keys] lists them, each name once. *)
#[warnings="-register-all"]
Inductive jsdata : Type :=
| DUndefined
| DNull
| DBool (b : bool)
| DNum (n : number)
| DStr (s : jsstring)
| DArr (items : list jsdata)
| DObj (fields : list (jsstring * jsdata)).

(** [!!v] *)
Definition toBoolean (v : jsdata) : bool :=
  match v with
  | DUndefined | DNull => false
  | DBool b => b
  | DNum (Fin q) => negb (Qeq_bool q 0)
  | DNum NaN => false
  | DNum _ => true
  | DStr s => match s with [] => false | _ => true end
  | DArr _ | DObj _ => true
  end.

(** [v && typeof v === "object"] *)
Definition isObject (v : jsdata) : bool :=
  match v with
  | DArr _ | DObj _ => true
  | _ => false
  end.

Fixpoint lookupField (fields : list (jsstring * jsdata)) (key : jsstring) : option jsdata :=
  match fields with
  | [] => None
  | (k, v) :: rest => if decide (k = key) then Some v else lookupField rest key
  end.

(** [v.key] for a key that is neither an index, nor [length], nor a name
    found on a prototype: only a plain object can have it. *)
Definition getField (v : jsdata) (key : jsstring) : jsdata :=
  match v with
  | DObj fields => default DUndefined (lookupField fields key)
  | _ => DUndefined
  end.

(** [key in v], for such a key. *)
Definition hasField (v : jsdata) (key : jsstring) : bool :=
  match v with
  | DObj fields => bool_decide (is_Some (lookupField fields key))
  | _ => false
  end.

(** [typeof v.key === "string" ? v.key : undefined] *)
Definition stringField (v : jsdata) (key : jsstring) : option jsstring :=
  match getField v key with
  | DStr s => Some s
  | _ => None
  end.

Definition indexKeys (n : nat) : list jsstring := map Plugin.natToString (seq 0 n).

(** [Object.keys(v)] of a value that is neither null nor undefined: the
    indices of an array or of a string, nothing for a number or a
    boolean. *)
Definition objectKeys (v : jsdata) : list jsstring :=
  match v with
  | DObj fields => map fst fields
  | DArr items => indexKeys (List.length items)
  | DStr s => indexKeys (List.length s)
  | _ => []
  end.

End JsData.

(** ** Category rules *)

Module Category.
Import JsString Regex.

Definition MEMORY_CATEGORIES : list jsstring :=
  [js "preference"; js "fact"; js "decision"; js "entity"; js "other"].

Section WithLowerCase.
(** [text.toLowerCase()]: the Unicode lower-case mapping, whose tables
    are not reproduced here. *)
Variable toLowerCase : jsstring -> jsstring.

Definition detectCategory (text : jsstring) : jsstring :=
  let lower := toLowerCase text in
  (* /prefer|radši|like|love|hate|want/i *)
  if test (alts [litI (js "prefer"); litI (js "rad" ++ [353] ++ js "i");
                 litI (js "like"); litI (js "love"); litI (js "hate");
                 litI (js "want")]) lower
  then js "preference"
  (* /rozhodli|decided|will use|budeme/i *)
  else if test (alts [litI (js "rozhodli"); litI (js "decided");
                      litI (js "will use"); litI (js "budeme")]) lower
  then js "decision"
  (* /\+\d{10,}|@[\w.-]+\.\w+|is called|jmenuje se/i *)
  else if test (alts [Seq (chr 43) (atLeast 10 digit);
                      seqs [chr 64;
                            plus (Class [(65, 90); (97, 122); (48, 57); (95, 95);
                                         (46, 46); (45, 45)]);
                            chr 46; plus word];
                      litI (js "is called"); litI (js "jmenuje se")]) lower
  then js "entity"
  (* /is|are|has|have|je|má|jsou/i *)
  else if test (alts [litI (js "is"); litI (js "are"); litI (js "has");
                      litI (js "have"); litI (js "je"); litI [109; 225];
                      litI (js "jsou")]) lower
  then js "fact"
  else js "other".

End WithLowerCase.
End Category.

(** ** Auto-capture after the agent ends *)

Module CaptureHook.
Import JsString JsData.

Record TextWithRole : Type := {
  item_text : jsstring;
  item_role : jsstring
}.

(** The text blocks of an array content. *)
Definition blockTexts (role : jsstring) (content : list jsdata) : list TextWithRole :=
  flat_map
    (fun block =>
       if isObject block && hasField block (js "type")
          && (match getField block (js "type") with
              | DStr t => bool_decide (t = js "text")
              | _ => false
              end)
          && hasField block (js "text")
       then match getField block (js "text") with
            | DStr t => [{| item_text := t; item_role := role |}]
            | _ => []
            end
       else [])
    content.

(** Extract text content from messages with role tracking. *)
Definition extractTexts (messages : list jsdata) : list TextWithRole :=
  flat_map
    (fun msg =>
       if negb (isObject msg) then []
       else
         match getField msg (js "role") with
         | DStr role =>
             if bool_decide (role = js "user") || bool_decide (role = js "assistant")
             then
               match getField msg (js "content") with
               | DStr content => [{| item_text := content; item_role := role |}]
               | DArr content => blockTexts role content
               | _ => []
               end
             else []
         | _ => []
         end)
    messages.

(** The event: [success] as its truth value, [messages] when it is an
    array. *)
Record AgentEndEvent : Type := {
  success : bool;
  messages : option (list jsdata)
}.

Section WithWorld.
Variable w : World.
Variable cfg : Config.
Variable toLowerCase : jsstring -> jsstring.

(** Filter for capturable content (keeping role association). *)
Definition capturable (item : TextWithRole) : bool :=
  match item_text item with
  | [] => false
  | _ => Capture.shouldCapture (item_text item)
  end.

(** Store each capturable piece; [stored] counts the entries written. *)
Fixpoint captureLoop (items : list TextWithRole) (stored : nat) : M nat :=
  match items with
  | [] => ret stored
  | item :: rest =>
      let category := Category.detectCategory toLowerCase (item_text item) in
      let* vector := Embeddings.embed w (item_text item) in
      (* Check for duplicates *)
      let* existing := RedisMemoryDB.search w vector 1 (Fin (19 # 20)) in
      match existing with
      | _ :: _ => captureLoop rest stored
      | [] =>
          let* info := Embeddings.getProviderInfo in
          do RedisMemoryDB.store w cfg
               {| new_text := item_text item; new_vector := vector;
                  new_importance := Fin (7 # 10); new_category := category;
                  new_role := Some (item_role item);
                  new_embeddingModel := Some info |} in
          captureLoop rest (S stored)
      end
  end.

(** The handler of [agent_end]; it is registered only when
    [cfg.autoCapture] is set, so without the flag the event does nothing.
    Log lines are not part of the state. *)
Definition agent_end (event : AgentEndEvent) : M unit :=
  if negb (autoCapture cfg) then ret tt
  else
    match messages event with
    | Some (m :: ms) =>
        if negb (success event) then ret tt
        else
          tryCatch
            (let textsWithRole := extractTexts (m :: ms) in
             let toCapture := List.filter capturable textsWithRole in
             match toCapture with
             | [] => ret tt
             | _ =>
                 (* limit to 3 per conversation *)
                 do captureLoop (firstn 3 toCapture) 0 in
                 ret tt
             end)
            (fun err => ret tt)
    | _ => ret tt
    end.

End WithWorld.
End CaptureHook.

(** ** Configuration (extensions/memory-redis/config.ts) *)

Module ConfigSchema.
Import JsString JsData.

(** The errors [parse] throws, by their message:
    - [ConfigRequired]: memory-redis config required
    - [UnknownKeys label keys]: label, then: has unknown keys, then the
      keys joined by a comma and a space
    - [RedisUrlRequired]: redis.url is required
    - [EmbeddingRequired]: embedding config is required
    - [InvalidProvider p]: Invalid embedding provider, then the value
    - [ApiKeyRequired provider]: embedding.apiKey is required for that
      provider
    - [EnvNotSet name]: Environment variable name is not set *)
Inductive configError : Type :=
| ConfigRequired
| UnknownKeys (label : jsstring) (unknown : list jsstring)
| RedisUrlRequired
| EmbeddingRequired
| InvalidProvider (p : jsdata)
| ApiKeyRequired (provider : jsstring)
| EnvNotSet (envVar : jsstring).

Inductive checked (A : Type) : Type :=
| Ok (a : A)
| Err (e : configError).
Arguments Ok {A} a.
Arguments Err {A} e.

Definition andThen {A B : Type} (m : checked A) (k : A -> checked B) : checked B :=
  match m with
  | Ok a => k a
  | Err e => Err e
  end.

Notation "'let?' x := m 'in' k" := (andThen m (fun x => k))
  (at level 10, x name, m at level 100, k at level 200, only parsing).

Record RedisMemoryConfig : Type := {
  redis_url : jsstring;
  redis_password : option jsstring;
  redis_tls : option bool;
  embedding_provider : jsstring;
  embedding_apiKey : option jsstring;
  embedding_model : option jsstring;
  embedding_baseUrl : option jsstring;
  embedding_fallback : jsdata;
  config_indexName : jsstring;
  config_keyPrefix : jsstring;
  config_autoCapture : bool;
  config_autoRecall : bool
}.

Definition DEFAULT_INDEX_NAME : jsstring := js "idx:openclaw:memories".
Definition DEFAULT_KEY_PREFIX : jsstring := js "openclaw:memory".
Definition DEFAULT_VECTOR_DIM : nat := 1536.

Definition allowed (names : list jsstring) (key : jsstring) : bool :=
  bool_decide (key ∈ names).

Definition assertAllowedKeys (value : jsdata) (names : list jsstring)
    (label : jsstring) : checked unit :=
  match List.filter (fun key => negb (allowed names key)) (objectKeys value) with
  | [] => Ok tt
  | unknown => Err (UnknownKeys label unknown)
  end.

Definition getDefaultVectorDim : nat := DEFAULT_VECTOR_DIM.

(** The matches of [/\$\{([^}]+)\}/g] in a text, read from the left: a
    dollar sign, an opening brace, a name of one or more characters other
    than the closing brace, and the closing brace; wherever no match
    starts the character stands for itself. *)
Inductive part : Type :=
| Chr (c : N)
| Ref (envVar : jsstring).

(** What the scanner has read of a possible match. *)
Inductive scanState : Type :=
| Outside
| Dollar
| Name (acc : jsstring).

Fixpoint scan (st : scanState) (s : jsstring) : list part :=
  match s with
  | [] =>
      match st with
      | Outside => []
      | Dollar => [Chr 36]
      | Name acc => Chr 36 :: Chr 123 :: map Chr acc
      end
  | c :: s' =>
      match st with
      | Outside => if c =? 36 then scan Dollar s' else Chr c :: scan Outside s'
      | Dollar =>
          if c =? 123 then scan (Name []) s'
          else if c =? 36 then Chr 36 :: scan Dollar s'
          else Chr 36 :: Chr c :: scan Outside s'
      | Name acc =>
          if c =? 125 then
            match acc with
            | [] => Chr 36 :: Chr 123 :: Chr 125 :: scan Outside s'
            | _ => Ref acc :: scan Outside s'
            end
          else scan (Name (acc ++ [c])) s'
      end
  end.

(** [value.replace(pattern, callback)] with a callback that may throw:
    the callback runs match by match from the left. *)
Fixpoint replaceRefs (callback : jsstring -> checked jsstring) (parts : list part)
    : checked jsstring :=
  match parts with
  | [] => Ok []
  | Chr c :: rest =>
      let? out := replaceRefs callback rest in Ok (c :: out)
  | Ref envVar :: rest =>
      let? v := callback envVar in
      let? out := replaceRefs callback rest in Ok (v ++ out)
  end.

Section WithEnv.
(** [process.env[name]]: the value of a variable, a string, when it is
    set. *)
Variable env : jsstring -> option jsstring.

Definition resolveEnvVars (value : jsstring) : checked jsstring :=
  replaceRefs
    (fun envVar =>
       match env envVar with
       | Some (c :: v) => Ok (c :: v)
       | _ => Err (EnvNotSet envVar)
       end)
    (scan Outside value).

(** [value.replace(pattern, callback)] with the callback of
    [resolveEnvVarsOptional]. *)
Definition fillRefs (parts : list part) : jsstring :=
  flat_map
    (fun p =>
       match p with
       | Chr c => [c]
       (* Return empty string if env var not set (optional) *)
       | Ref envVar => default [] (env envVar)
       end)
    parts.

Definition resolveEnvVarsOptional (value : option jsstring) : option jsstring :=
  match value with
  | None | Some [] => None
  | Some v =>
      (* Check if it contains env var syntax *)
      if negb (includes v (js "${")) then Some v
      else Some (fillRefs (scan Outside v))
  end.

Definition validProviders : list jsstring :=
  [js "openai"; js "gemini"; js "local"; js "auto"].

(** [embedding.provider ?? "auto"], then [validProviders.includes]. *)
Definition providerOf (p : jsdata) : checked jsstring :=
  match p with
  | DUndefined | DNull => Ok (js "auto")
  | DStr name =>
      if bool_decide (name ∈ validProviders) then Ok name else Err (InvalidProvider p)
  | _ => Err (InvalidProvider p)
  end.

Definition parse (value : jsdata) : checked RedisMemoryConfig :=
  match value with
  | DObj _ =>
      let cfg := value in
      let? _ := assertAllowedKeys cfg
                  [js "redis"; js "embedding"; js "indexName"; js "keyPrefix";
                   js "autoCapture"; js "autoRecall"]
                  (js "memory-redis config") in
      (* Validate redis config *)
      let redis := getField cfg (js "redis") in
      match toBoolean redis, getField redis (js "url") with
      | true, DStr url =>
          let? _ := assertAllowedKeys redis [js "url"; js "password"; js "tls"]
                      (js "redis config") in
          (* Validate embedding config *)
          let embedding := getField cfg (js "embedding") in
          if negb (toBoolean embedding) then Err EmbeddingRequired
          else
            let? _ := assertAllowedKeys embedding
                        [js "provider"; js "apiKey"; js "model"; js "baseUrl";
                         js "fallback"]
                        (js "embedding config") in
            let? provider := providerOf (getField embedding (js "provider")) in
            (* API key is optional for local and auto providers *)
            let apiKey :=
              match getField embedding (js "apiKey") with
              | DStr k => resolveEnvVarsOptional (Some k)
              | _ => None
              end in
            if (bool_decide (provider = js "openai") || bool_decide (provider = js "gemini"))
               && negb (match apiKey with Some (_ :: _) => true | _ => false end)
            then Err (ApiKeyRequired provider)
            else
              let fallback :=
                match getField embedding (js "fallback") with
                | DUndefined | DNull => DStr (js "none")
                | f => f
                end in
              let? url' := resolveEnvVars url in
              Ok {| redis_url := url';
                    redis_password :=
                      match getField redis (js "password") with
                      | DStr p => resolveEnvVarsOptional (Some p)
                      | _ => None
                      end;
                    redis_tls :=
                      match getField redis (js "tls") with
                      | DBool b => Some b
                      | _ => None
                      end;
                    embedding_provider := provider;
                    embedding_apiKey := apiKey;
                    embedding_model := stringField embedding (js "model");
                    embedding_baseUrl :=
                      match getField embedding (js "baseUrl") with
                      | DStr b => resolveEnvVarsOptional (Some b)
                      | _ => None
                      end;
                    embedding_fallback := fallback;
                    config_indexName :=
                      default DEFAULT_INDEX_NAME (stringField cfg (js "indexName"));
                    config_keyPrefix :=
                      default DEFAULT_KEY_PREFIX (stringField cfg (js "keyPrefix"));
                    config_autoCapture :=
                      match getField cfg (js "autoCapture") with
                      | DBool b => b
                      | _ => false
                      end;
                    config_autoRecall :=
                      match getField cfg (js "autoRecall") with
                      | DBool b => b
                      | _ => false
                      end |}
      | _, _ => Err RedisUrlRequired
      end
  | _ => Err ConfigRequired
  end.

End WithEnv.

(** The part of the parsed configuration the memory store and the hooks
    read. *)
Definition pluginConfig (c : RedisMemoryConfig) : Config :=
  {| indexName := config_indexName c; keyPrefix := config_keyPrefix c;
     autoCapture := config_autoCapture c; autoRecall := config_autoRecall c |}.

End ConfigSchema.

(** ** What a capture leaves in the keyspace *)

(** The keyspace after the given records were written one after the
    other, each under its id. *)
Definition writeAll (cfg : Config) (added : list MemoryEntry) (ks : keyspace) : keyspace :=
  fold_left (fun m e => <[RedisMemoryDB.key_of cfg (id e) := e]> m) added ks.

(** An entry written for one of the given pieces of text. *)
Definition capturedFrom (toLowerCase : jsstring -> jsstring)
    (items : list CaptureHook.TextWithRole) (e : MemoryEntry) : Prop :=
  exists item, In item items /\
    text e = CaptureHook.item_text item /\
    role e = Some (CaptureHook.item_role item) /\
    importance e = Fin (7 # 10) /\
    category e = Category.detectCategory toLowerCase (CaptureHook.item_text item).

(** The names a text refers to, from the left. *)
Definition refsOf (value : jsstring) : list jsstring :=
  flat_map (fun p => match p with ConfigSchema.Ref n => [n] | _ => [] end)
           (ConfigSchema.scan ConfigSchema.Outside value).

(** A variable that [resolveEnvVars] accepts: set, and not empty. *)
Definition isSet (env : jsstring -> option jsstring) (name : jsstring) : Prop :=
  exists c v, env name = Some (c :: v).

(** ** Transformers that only read

    A state transformer that leaves the keyspace as it found it, whatever
    it returns or throws. *)
Definition keepsKeys {A} (m : M A) : Prop :=
  forall s, keys (snd (m s)) = keys s.

(** ** Worlds with faults *)

Module Faults.

(** A world in which each initialisation step answers as given, and the
    UUID generator moves on to a second id after the first store of a
    fresh plugin. *)
Definition world (connectAnswer infoAnswer createAnswer : outcome unit)
    (providerAnswer : outcome Provider)
    (embedAnswer : jsstring -> outcome (list number)) : World :=
  {| connect := fun _ => connectAnswer;
     ft_info := fun _ => infoAnswer;
     ft_create := fun _ _ => createAnswer;
     ft_search_knn := ft_search_knn (Scenario.world []);
     ft_search_text := ft_search_text (Scenario.world []);
     createEmbeddingProvider := fun _ => providerAnswer;
     embedQuery := fun _ t => embedAnswer t;
     randomUUID := fun t => if (t <? 4)%nat then Scenario.uuid1 else Scenario.uuid2;
     dateNow := fun _ => Fin 1700000000000 |}.

Definition refused : jserror := Rejected (js "ECONNREFUSED").
Definition noIndex : jserror := Rejected (js "Unknown index name").
Definition createFailed : jserror := Rejected (js "index creation failed").
Definition noProvider : jserror := Rejected (js "no embedding provider").
Definition embedFailed : jserror := Rejected (js "embedding failed").

Definition toyProvider : Provider :=
  {| provider_id := js "local"; provider_model := js "toy" |}.

End Faults.

(** ** A conversation and a configuration for concrete runs *)

Module CaptureScenario.
Import JsData CaptureHook.

Definition config : Config :=
  {| indexName := js "idx:openclaw:memories"; keyPrefix := js "openclaw:memory";
     autoCapture := true; autoRecall := false |}.

(** Lower case of a text in the Latin blocks. *)
Definition toLowerCase (s : jsstring) : jsstring := map Regex.toLower s.

Definition preference : jsstring := js "I prefer dark mode themes for all my apps".
Definition reminder : jsstring := js "Remember that my editor is vim".

Definition message (role : jsstring) (content : jsdata) : jsdata :=
  DObj [(js "role", DStr role); (js "content", content)].

Definition textBlock (t : jsstring) : jsdata :=
  DObj [(js "type", DStr (js "text")); (js "text", DStr t)].

(** A user message, a system message, an assistant message made of a
    tool call and a text block, and a tool result. *)
Definition conversation : list jsdata :=
  [ message (js "user") (DStr preference);
    message (js "system") (DStr (js "I prefer to be ignored, remember"));
    message (js "assistant")
      (DArr [DObj [(js "type", DStr (js "toolCall")); (js "name", DStr (js "memory_recall"))];
             textBlock reminder]);
    message (js "toolResult") (DArr [textBlock (js "I always prefer tool output")]);
    DStr (js "I prefer not to be an object") ].

Definition event : AgentEndEvent :=
  {| success := true; messages := Some conversation |}.

(** A conversation none of whose messages can be captured. *)
Definition smallTalk : AgentEndEvent :=
  {| success := true;
     messages := Some [message (js "user") (DStr (js "hi"));
                       message (js "assistant") (DStr (js "Hello there"))] |}.

(** A provider that fails on the reminder only. *)
Definition failsOnReminder (t : jsstring) : outcome (list number) :=
  if bool_decide (t = reminder) then Throws Faults.embedFailed
  else Returns [Fin 1; Fin 0].

End CaptureScenario.

Module ConfigScenario.
Import JsData ConfigSchema.

(** An environment with one variable set and one set to the empty
    string. *)
Definition env (name : jsstring) : option jsstring :=
  if bool_decide (name = js "REDIS_HOST") then Some (js "cache.internal")
  else if bool_decide (name = js "EMPTY") then Some []
  else if bool_decide (name = js "NESTED") then Some (js "${REDIS_HOST}")
  else None.

Definition raw (embedding : jsdata) : jsdata :=
  DObj [(js "redis", DObj [(js "url", DStr (js "redis://${REDIS_HOST}:6379"))]);
        (js "embedding", embedding)].

End ConfigScenario.

(** * Properties *)

(** ** Order and arithmetic of numbers *)

Section NumberFacts.
Import JsNumber.

Lemma le_trans (a b c : number) :
  le a b = true -> le b c = true -> le a c = true.
Proof.
  destruct a, b, c; simpl; try congruence; auto.
  rewrite !Qle_bool_iff. apply Qle_trans.
Qed.

Lemma le_refl (a : number) : isNaN a = false -> le a a = true.
Proof.
  destruct a; simpl; try congruence; auto.
  intros _. apply Qle_bool_iff, Qle_refl.
Qed.

Lemma le_isNaN (a b : number) :
  le a b = true -> isNaN a = false /\ isNaN b = false.
Proof. destruct a, b; simpl; try congruence; auto. Qed.

Lemma lt_le (a b : number) : lt a b = true -> le a b = true.
Proof.
  destruct a, b; simpl; try congruence; auto.
  rewrite negb_true_iff, Qle_bool_iff. intros H.
  destruct (Qlt_le_dec q q0) as [Hlt | Hle].
  - now apply Qlt_le_weak.
  - apply Qle_bool_iff in Hle. congruence.
Qed.

(** Without [NaN] the order is total. *)
Lemma not_lt_le (a b : number) :
  isNaN a = false -> isNaN b = false -> lt a b = false -> le b a = true.
Proof.
  destruct a, b; simpl; try congruence; auto.
  intros _ _. rewrite negb_false_iff. auto.
Qed.

Lemma lt_not_le (a b : number) : lt a b = true -> le b a = false.
Proof.
  destruct a, b; simpl; try congruence; auto.
  now rewrite negb_true_iff.
Qed.

(** The sign of a difference is the comparison of its operands: this is
    what makes [(a, b) => b.score - a.score] a descending comparator. *)
Lemma sub_gt_zero (a b : number) : gt (sub b a) zero = gt b a.
Proof.
  unfold gt, zero.
  destruct a, b; simpl; try reflexivity.
  f_equal.
  destruct (Qle_bool (Qred (q0 - q)) 0) eqn:E1, (Qle_bool q0 q) eqn:E2; auto.
  - apply Qle_bool_iff in E1. rewrite Qred_correct in E1.
    assert (q0 <= q)%Q by lra. apply Qle_bool_iff in H. congruence.
  - apply Qle_bool_iff in E2.
    assert (Qred (q0 - q) <= 0)%Q by (rewrite Qred_correct; lra).
    apply Qle_bool_iff in H. congruence.
Qed.

Lemma half_Q (x : Q) : (x / 2 == x * (1 # 2))%Q.
Proof. reflexivity. Qed.

Lemma div_two_Fin (x : Q) : div (Fin x) two = Fin (Qred (x / 2)).
Proof. reflexivity. Qed.

End NumberFacts.

(** ** Vector search: score conversion *)

Section SearchFacts.
Import JsNumber RedisMemoryDB.

Lemma scoreOfDistance_antitone (d1 d2 : number) :
  le d1 d2 = true -> ge (scoreOfDistance d1) (scoreOfDistance d2) = true.
Proof.
  unfold ge, scoreOfDistance.
  destruct d1 as [| | x |], d2 as [| | y |]; simpl; try congruence; auto.
  rewrite !Qle_bool_iff, !Qred_correct. intros H.
  rewrite !half_Q. lra.
Qed.

Lemma searchMapped_In (documents : list Document) (minScore : number)
    (r : MemorySearchResult) :
  In r (searchMapped documents minScore) <->
  exists data, In data documents /\
    ge (scoreOfDistance (distanceOf data)) minScore = true /\
    r = {| entry := entryOf data; score := scoreOfDistance (distanceOf data) |}.
Proof.
  induction documents as [| d ds IH]; simpl.
  - split; [tauto | intros (data & [] & _)].
  - destruct (ge (scoreOfDistance (distanceOf d)) minScore) eqn:E; simpl;
      rewrite ?IH; split.
    + intros [<- | (data & Hin & Hge & ->)]; eauto 6.
    + intros (data & [-> | Hin] & Hge & ->); eauto 6.
    + intros (data & Hin & Hge & ->); eauto 6.
    + intros (data & [-> | Hin] & Hge & ->); [congruence | eauto 6].
Qed.

(** C2. The conversion used by [search] is [score = 1 - distance / 2]:
    distance 0 gives score 1, distance 2 gives score 0, and a smaller
    distance never gives a smaller score. Every result of the search loop
    carries the conversion of the distance of the document it was built
    from. *)
Theorem score_conversion :
  (forall d, scoreOfDistance d = (one - d / two)%js) /\
  scoreOfDistance (Fin 0) = Fin 1 /\
  scoreOfDistance (Fin 2) = Fin 0 /\
  (forall d1 d2, le d1 d2 = true ->
     ge (scoreOfDistance d1) (scoreOfDistance d2) = true) /\
  (forall documents minScore r, In r (searchMapped documents minScore) ->
     exists data, In data documents /\
       score r = scoreOfDistance (distanceOf data)).
Proof.
  repeat split; auto using scoreOfDistance_antitone.
  intros documents minScore r Hr.
  apply searchMapped_In in Hr as (data & Hin & _ & ->). eauto.
Qed.

Example parseFloat_examples :
  JsString.parseFloat (js "0.25") = Fin (1 # 4) /\
  JsString.parseFloat (js "1.19209289551e-07") = Fin (119209289551 # 1000000000000000000) /\
  JsString.parseFloat (js "  -2.5xyz") = Fin (-5 # 2) /\
  JsString.parseFloat (js ".5") = Fin (1 # 2) /\
  JsString.parseFloat (js "nan") = NaN /\
  JsString.parseFloat (js "-Infinity") = NegInf /\
  JsString.parseInt10 (js "1700000000000.9") = Fin 1700000000000.
Proof. vm_compute. repeat split. Qed.

(** A string that is not a number is read as [NaN], whose score is [NaN]
    and passes no threshold. *)
Example search_drops_unreadable_score :
  searchMapped
    [Scenario.document Scenario.uuid1 (js "likes tea") (js "0.2");
     Scenario.document Scenario.uuid2 (js "has a dog") (js "n/a");
     Scenario.document Scenario.uuid3 (js "owns a car") (js "1.9")]
    (Fin (1 # 10))
  = [{| entry := entryOf (Scenario.document Scenario.uuid1 (js "likes tea") (js "0.2"));
        score := Fin (9 # 10) |}].
Proof. vm_compute. reflexivity. Qed.

(** C10 (amended). A document whose score field is neither a number nor
    a string is read as distance 0 and gets score 1, the score of a
    perfect match, which no document at a distance of 0 or more exceeds.
    The search loop keeps it under every threshold up to 1 and drops it
    under a threshold above 1 (or [NaN]). A numeric field [d] gives the
    score [1 - d / 2] and a string field [s] the score
    [1 - parseFloat(s) / 2]; the document is kept exactly when that score
    reaches the threshold. *)
Theorem score_field_fallback (data : Document) (minScore : number)
    (rest : list Document) :
  match data_score data with
  | JNum d =>
      searchMapped (data :: rest) minScore =
      (if ((one - d / two) >=? minScore)%js
       then [{| entry := entryOf data; score := (one - d / two)%js |}]
       else [])
      ++ searchMapped rest minScore
  | JStr s =>
      searchMapped (data :: rest) minScore =
      (if ((one - JsString.parseFloat s / two) >=? minScore)%js
       then [{| entry := entryOf data;
                score := (one - JsString.parseFloat s / two)%js |}]
       else [])
      ++ searchMapped rest minScore
  | _ =>
      distanceOf data = Fin 0 /\
      (one - distanceOf data / two)%js = Fin 1 /\
      (le minScore (Fin 1) = true ->
         searchMapped (data :: rest) minScore =
         {| entry := entryOf data; score := Fin 1 |} :: searchMapped rest minScore) /\
      (le minScore (Fin 1) = false ->
         searchMapped (data :: rest) minScore = searchMapped rest minScore) /\
      (forall d, le (Fin 0) d = true -> le (one - d / two)%js (Fin 1) = true)
  end.
Proof.
  assert (Hmax : forall d, le (Fin 0) d = true -> le (one - d / two)%js (Fin 1) = true).
  { intros [| | x |]; simpl; try congruence; auto.
    rewrite !Qle_bool_iff, !Qred_correct. intros H. rewrite half_Q. lra. }
  cbn [searchMapped]. unfold scoreOfDistance, distanceOf.
  destruct (data_score data) eqn:E;
    try (split; [reflexivity | split; [reflexivity | split; [| split; [| exact Hmax]]]];
         change (one - zero / two)%js with (Fin 1); unfold ge; intros Hle;
         now rewrite Hle).
  - now destruct ((one - n / two) >=? minScore)%js.
  - now destruct ((one - JsString.parseFloat s / two) >=? minScore)%js.
Qed.

(** The claim as it was written fails above 1: a document without a
    score field is dropped by a search with threshold 2. *)
Lemma fallback_score_below_threshold :
  let data := Scenario.textDocument Scenario.uuid1 (js "likes tea") in
  data_score data = JUndefined /\
  scoreOfDistance (distanceOf data) = Fin 1 /\
  searchMapped [data] (Fin 2) = [] /\
  fst (search (Scenario.worldKnn [data] []) [Fin 1; Fin 0] 5 (Fin 2)
         (initialState ∅)) = Returns [].
Proof. repeat split; vm_compute; reflexivity. Qed.

End SearchFacts.

(** ** Running the state transformers *)

Ltac unfold_m :=
  unfold bind, ret, throw, tryCatch, settle, extern, getDb, getEmb, getKeys,
    setDb, setEmb, setKeys in *.

(** Split on every outcome, flag or promise that the goal branches on. *)
Ltac split_m :=
  repeat match goal with
    | |- context [match ?o with Returns _ => _ | Throws _ => _ end] =>
        destruct o eqn:?
    | |- context [match ?o with Some _ => _ | None => _ end] =>
        destruct o eqn:?
    | |- context [if ?b then _ else _] => destruct b eqn:?
    | |- context [let '(_, _) := ?p in _] => destruct p eqn:?
    end.

Ltac inv_pair :=
  repeat match goal with
    | H : (_, _) = (_, _) |- _ => inversion H; subst; clear H
    end.

Section InitFacts.
Variable w : World.

(** What a state keeps across an initialisation of the store: the
    keyspace and the embedding wrapper. *)
Lemma db_doInitialize_frame (s : State) :
  keys (snd (RedisMemoryDB.doInitialize w s)) = keys s /\
  emb (snd (RedisMemoryDB.doInitialize w s)) = emb s.
Proof.
  unfold RedisMemoryDB.doInitialize, RedisMemoryDB.ensureIndex,
    RedisMemoryDB.setClient, RedisMemoryDB.setIndexCreated.
  unfold_m. simpl. split_m; simpl; auto.
Qed.

Lemma db_ensureInitialized_frame (s : State) :
  keys (snd (RedisMemoryDB.ensureInitialized w s)) = keys s /\
  emb (snd (RedisMemoryDB.ensureInitialized w s)) = emb s.
Proof.
  unfold RedisMemoryDB.ensureInitialized.
  pose proof (db_doInitialize_frame s) as Hf.
  unfold RedisMemoryDB.setInitPromise.
  unfold_m. simpl.
  destruct (client (db s)) as [[]|]; simpl; auto;
    destruct (db_initPromise (db s)); simpl; auto;
    destruct (RedisMemoryDB.doInitialize w s) as [o s']; simpl in *; auto.
Qed.

End InitFacts.

(** ** Vector search: the returned list *)

Section SearchResults.
Import JsNumber RedisMemoryDB.

Lemma searchMapped_ge (documents : list Document) (minScore : number) :
  Forall (fun r => ge (score r) minScore = true) (searchMapped documents minScore).
Proof.
  apply List.Forall_forall. intros r Hr.
  apply searchMapped_In in Hr as (data & _ & Hge & ->). exact Hge.
Qed.

Lemma searchMapped_vector (documents : list Document) (minScore : number) :
  Forall (fun r => vector (entry r) = []) (searchMapped documents minScore).
Proof.
  apply List.Forall_forall. intros r Hr.
  apply searchMapped_In in Hr as (data & _ & _ & ->). reflexivity.
Qed.

Lemma searchMapped_length (documents : list Document) (minScore : number) :
  (List.length (searchMapped documents minScore) <= List.length documents)%nat.
Proof.
  induction documents as [| d ds IH]; simpl; [lia |].
  destruct (ge _ minScore); simpl; lia.
Qed.

Lemma byDistance_strongly (documents : list Document) :
  Sorted byDistance documents -> StronglySorted byDistance documents.
Proof.
  apply Sorted_StronglySorted. intros a b c. unfold byDistance. apply le_trans.
Qed.

Lemma searchMapped_sorted (documents : list Document) (minScore : number) :
  Sorted byDistance documents ->
  StronglySorted byScoreDesc (searchMapped documents minScore).
Proof.
  intros Hs. apply byDistance_strongly in Hs.
  induction Hs as [| d ds Hs IH Hall]; simpl; [constructor |].
  destruct (ge (scoreOfDistance (distanceOf d)) minScore); auto.
  constructor; auto.
  apply List.Forall_forall. intros r Hr.
  apply searchMapped_In in Hr as (data & Hin & _ & ->).
  unfold byScoreDesc; simpl. apply scoreOfDistance_antitone.
  rewrite List.Forall_forall in Hall. now apply Hall.
Qed.

(** C1. When the store is initialised and the engine answers the KNN
    query with at most [limit] documents in ascending order of distance,
    [search] returns a list in which every score is at least [minScore],
    with at most [limit] entries, best score first, and with the vector of
    every entry cleared. *)
Theorem search_results (w : World) (queryVector : list number) (limit : nat)
    (minScore : number) (s s1 : State) (documents : list Document) :
  ensureInitialized w s = (Returns tt, s1) ->
  ft_search_knn w (tick s1) (keys s1) queryVector limit = Returns documents ->
  (List.length documents <= limit)%nat ->
  Sorted byDistance documents ->
  exists results s2,
    search w queryVector limit minScore s = (Returns results, s2) /\
    Forall (fun r => ge (score r) minScore = true) results /\
    (List.length results <= limit)%nat /\
    StronglySorted byScoreDesc results /\
    Forall (fun r => vector (entry r) = []) results.
Proof.
  intros Hinit Hknn Hlen Hsorted.
  unfold search. unfold_m. rewrite Hinit, Hknn. simpl.
  eexists _, _. split; [reflexivity |].
  repeat split.
  - apply searchMapped_ge.
  - pose proof (searchMapped_length documents minScore). lia.
  - now apply searchMapped_sorted.
  - apply searchMapped_vector.
Qed.

End SearchResults.

Lemma search_results_witness :
  let w := Scenario.worldKnn
             [Scenario.document Scenario.uuid1 (js "likes tea") (js "0.2");
              Scenario.document Scenario.uuid2 (js "has a dog") (js "1.4");
              Scenario.document Scenario.uuid3 (js "owns a car") (js "1.9")] [] in
  exists results s2,
    RedisMemoryDB.search w [Fin 1; Fin 0] 5 (Fin (1 # 10)) (initialState ∅)
      = (Returns results, s2) /\
    Forall (fun r => JsNumber.ge (score r) (Fin (1 # 10)) = true) results /\
    (List.length results <= 5)%nat /\
    StronglySorted byScoreDesc results /\
    Forall (fun r => vector (entry r) = []) results.
Proof.
  intros w.
  apply (search_results w [Fin 1; Fin 0] 5 (Fin (1 # 10)) (initialState ∅)
           (snd (RedisMemoryDB.ensureInitialized w (initialState ∅)))
           [Scenario.document Scenario.uuid1 (js "likes tea") (js "0.2");
            Scenario.document Scenario.uuid2 (js "has a dog") (js "1.4");
            Scenario.document Scenario.uuid3 (js "owns a car") (js "1.9")]).
  - reflexivity.
  - reflexivity.
  - simpl. lia.
  - repeat constructor; reflexivity.
Defined.

(** ** Capture filter *)

Section CaptureFacts.
Import JsString Capture.

(** C7. [shouldCapture] rejects every text shorter than 10 or longer than
    500 code units and every text that contains the recall delimiter,
    whatever else the text contains; it rejects "hi" and accepts the
    preference statement of the specification. *)
Theorem shouldCapture_gates :
  (forall text, (length text < 10 \/ 500 < length text)%nat ->
     shouldCapture text = false) /\
  (forall text, includes text (js "<relevant-memories>") = true ->
     shouldCapture text = false) /\
  shouldCapture (js "hi") = false /\
  shouldCapture (js "I prefer dark mode themes for all my apps") = true.
Proof.
  split; [| split; [| split]].
  - intros text Hlen. unfold shouldCapture.
    destruct (Nat.ltb_spec (length text) 10), (Nat.ltb_spec 500 (length text));
      simpl; auto; lia.
  - intros text Hinc. unfold shouldCapture. rewrite Hinc.
    now destruct (_ || _).
  - reflexivity.
  - vm_compute. reflexivity.
Qed.

(** The two ends of the interval are accepted lengths, and a trigger word
    does not save a text that carries the delimiter. *)
Example shouldCapture_length_10 : shouldCapture (js "I like tea") = true.
Proof. vm_compute. reflexivity. Qed.

Example shouldCapture_length_500 :
  shouldCapture (js "I like tea" ++ repeat 97 490) = true /\
  shouldCapture (js "I like tea" ++ repeat 97 491) = false.
Proof. vm_compute. split; reflexivity. Qed.

(** Length is [text.length], a number of UTF-16 code units: nine code
    points, two of them outside the basic plane, make eleven units. *)
Example shouldCapture_counts_code_units :
  length (js "I like " ++ [55356; 57205; 55356; 57205]) = 11%nat /\
  List.length (codePoints (js "I like " ++ [55356; 57205; 55356; 57205])) = 9%nat /\
  shouldCapture (js "I like " ++ [55356; 57205; 55356; 57205]) = true.
Proof. vm_compute. repeat split. Qed.

Example shouldCapture_delimiter_with_trigger :
  shouldCapture (js "<relevant-memories> I prefer tea, remember") = false.
Proof. vm_compute. reflexivity. Qed.

End CaptureFacts.

(** ** The id pattern *)

Section UuidFacts.
Import Regex.

Lemma matches_Empty (s : jsstring) : matches Empty s = false.
Proof. induction s; auto. Qed.

Lemma matches_Eps (s : jsstring) :
  matches Eps s = match s with [] => true | _ => false end.
Proof. destruct s; simpl; auto using matches_Empty. Qed.

Lemma inClass_hyphen (c : N) : inClass [(45, 45)] c = N.eqb c 45.
Proof.
  unfold inClass. simpl. rewrite orb_false_r.
  destruct (N.eqb_spec c 45) as [-> | Hne]; [reflexivity |].
  destruct (N.leb_spec 45 c), (N.leb_spec c 45); simpl; auto. lia.
Qed.

(** The pattern of [delete] accepts exactly the texts of the UUID shape. *)
Lemma uuidRegex_shape (i : jsstring) :
  matches RedisMemoryDB.uuidRegex i = hasShape uuidPattern i.
Proof.
  unfold RedisMemoryDB.uuidRegex, uuidPattern.
  cbn [repeat app times seqs]. unfold chr.
  do 36 (destruct i as [| ?c i]; [reflexivity |];
    cbn [matches hasShape deriv nullable andb orb]; unfold isHexDigit;
    rewrite ?inClass_hyphen;
    match goal with
    | |- context [if inClass ?r ?c then _ else _] => destruct (inClass r c)
    | |- context [if N.eqb ?c 45 then _ else _] => destruct (N.eqb c 45)
    end;
    cbn [mkSeq mkAlt andb]; [| now rewrite matches_Empty]).
  rewrite matches_Eps. now destruct i.
Qed.

Lemma hasShape_length (pat : list bool) (s : jsstring) :
  hasShape pat s = true -> List.length s = List.length pat.
Proof.
  revert s. induction pat as [| h pat IH]; intros [| c s]; simpl; try discriminate;
    [reflexivity |].
  intros H. apply andb_prop in H as [_ H]. f_equal. auto.
Qed.

Example uuidRegex_examples :
  matches RedisMemoryDB.uuidRegex (js "123e4567-e89b-42d3-a456-426614174000") = true /\
  matches RedisMemoryDB.uuidRegex (js "123E4567-E89B-42D3-A456-426614174000") = true /\
  matches RedisMemoryDB.uuidRegex (js "not-a-uuid") = false /\
  matches RedisMemoryDB.uuidRegex (js "123e4567-e89b-42d3-a456-426614174000" ++ [10]) = false /\
  matches RedisMemoryDB.uuidRegex (js "x:123e4567-e89b-42d3-a456-426614174000") = false /\
  matches RedisMemoryDB.uuidRegex (js "123e4567e89b42d3a456426614174000") = false.
Proof. vm_compute. repeat split. Qed.

End UuidFacts.

(** ** Deleting by id *)

Section DeleteFacts.
Import JsString RedisMemoryDB Plugin.
Variable w : World.
Variable cfg : Config.

Lemma ensureInitialized_keys (s s1 : State) (o : outcome unit) :
  ensureInitialized w s = (o, s1) -> keys s1 = keys s.
Proof.
  intros H. pose proof (db_ensureInitialized_frame w s) as [Hk _].
  now rewrite H in Hk.
Qed.

Lemma uuidRegex_nonempty : Regex.matches uuidRegex [] = false.
Proof. reflexivity. Qed.

(** A malformed id never costs a record, initialised or not. *)
Lemma delete_malformed_keeps_keys (i : jsstring) (s : State) :
  Regex.matches uuidRegex i = false ->
  exists e s', delete w cfg i s = (Throws e, s') /\ keys s' = keys s.
Proof.
  intros Hbad. unfold delete. unfold_m.
  destruct (ensureInitialized w s) as [[[] | e] s1] eqn:Hinit;
    rewrite ?Hbad; simpl; eexists _, _; (split; [reflexivity |]);
    eauto using ensureInitialized_keys.
Qed.

(** [delete] once the store is initialised. *)
Lemma delete_initialised (i : jsstring) (s s1 : State) :
  ensureInitialized w s = (Returns tt, s1) ->
  delete w cfg i s =
    if Regex.matches uuidRegex i
    then (Returns (bool_decide (is_Some (keys s !! key_of cfg i))),
          {| tick := tick s1; keys := base.delete (key_of cfg i) (keys s);
             db := db s1; emb := emb s1 |})
    else (Throws (InvalidMemoryId i), s1).
Proof.
  intros Hinit. pose proof (ensureInitialized_keys _ _ _ Hinit) as Hk.
  unfold delete. unfold_m. rewrite Hinit.
  destruct (Regex.matches uuidRegex i); simpl; [| reflexivity].
  rewrite Hk. now destruct (keys s !! key_of cfg i).
Qed.

(** C5 (amended). [delete] first awaits the initialisation of the store.
    When that succeeds: an id that is not of the UUID shape makes
    [delete] throw the invalid-id error and leaves every record in place;
    a well-formed id with no record under [keyPrefix:id] returns false; a
    well-formed id with a record removes it and returns true. When the
    initialisation fails, [delete] throws the error of the
    initialisation for every id, malformed or not, and removes nothing.
    So a malformed id always makes [delete] throw and costs no record. *)
Theorem delete_outcomes (i : jsstring) (s : State) :
  match ensureInitialized w s with
  | (Returns _, s1) =>
      (Regex.matches uuidRegex i = false ->
         delete w cfg i s = (Throws (InvalidMemoryId i), s1) /\ keys s1 = keys s) /\
      (Regex.matches uuidRegex i = true -> keys s !! key_of cfg i = None ->
         exists s2, delete w cfg i s = (Returns false, s2) /\ keys s2 = keys s) /\
      (Regex.matches uuidRegex i = true -> is_Some (keys s !! key_of cfg i) ->
         exists s2, delete w cfg i s = (Returns true, s2) /\
           keys s2 = base.delete (key_of cfg i) (keys s) /\
           keys s2 !! key_of cfg i = None)
  | (Throws e, s1) =>
      delete w cfg i s = (Throws e, s1) /\ keys s1 = keys s
  end /\
  (Regex.matches uuidRegex i = false ->
     exists e s', delete w cfg i s = (Throws e, s') /\ keys s' = keys s).
Proof.
  split; [| apply delete_malformed_keeps_keys].
  destruct (ensureInitialized w s) as [[[] | e] s1] eqn:Hinit.
  - pose proof (ensureInitialized_keys _ _ _ Hinit) as Hk.
    rewrite (delete_initialised i s s1 Hinit).
    split; [| split].
    + intros Hbad. now rewrite Hbad.
    + intros Hok Hnone. rewrite Hok, Hnone.
      eexists. split; [reflexivity |]. simpl. now apply delete_id.
    + intros Hok [e He]. rewrite Hok, He.
      eexists. split; [reflexivity |]. simpl. split; [reflexivity |].
      apply lookup_delete_eq.
  - split; [| now apply (ensureInitialized_keys s s1 (Throws e))].
    unfold delete, bind. now rewrite Hinit.
Qed.

(** The claim as it was written fails on a store that cannot connect: a
    malformed id gets the connection error, not the invalid-id error, and
    a well-formed id of a stored record throws too instead of returning
    true, the record staying where it is. *)
Lemma delete_unreachable_store :
  let w' := Faults.world (Throws Faults.refused) (Returns tt) (Returns tt)
              (Returns Faults.toyProvider) (fun _ => Returns [Fin 1; Fin 0]) in
  let s := initialState (Scenario.oneRecord Scenario.uuid1 (js "likes tea")) in
  Regex.matches uuidRegex (js "not-a-uuid") = false /\
  fst (delete w' Scenario.config (js "not-a-uuid") s) = Throws Faults.refused /\
  Faults.refused <> InvalidMemoryId (js "not-a-uuid") /\
  Regex.matches uuidRegex Scenario.uuid1 = true /\
  is_Some (keys s !! key_of Scenario.config Scenario.uuid1) /\
  fst (delete w' Scenario.config Scenario.uuid1 s) = Throws Faults.refused /\
  keys (snd (delete w' Scenario.config Scenario.uuid1 s)) = keys s.
Proof.
  intros w' s.
  split; [vm_compute; reflexivity |]. split; [vm_compute; reflexivity |].
  split; [discriminate |]. split; [vm_compute; reflexivity |].
  split; [eexists; vm_compute; reflexivity |].
  split; vm_compute; reflexivity.
Qed.

(** C9. For a well-formed id, [memory_forget] answers "deleted" with the
    same text whichever boolean [delete] returned, that is, whether or not
    a record was stored under the id. *)
Theorem memory_forget_by_id (query : option jsstring) (i : jsstring)
    (s s1 : State) :
  Regex.matches uuidRegex i = true ->
  ensureInitialized w s = (Returns tt, s1) ->
  exists removed s2,
    delete w cfg i s = (Returns removed, s2) /\
    (removed = true <-> is_Some (keys s !! key_of cfg i)) /\
    memory_forget w cfg query (Some i) s =
      (Returns {| content := js "Memory " ++ i ++ js " forgotten.";
                  details := ForgetDeleted i |}, s2).
Proof.
  intros Hok Hinit.
  assert (Hi : truthy (Some i) = Some i).
  { destruct i; [discriminate | reflexivity]. }
  unfold memory_forget. rewrite Hi. unfold bind.
  rewrite (delete_initialised i s s1 Hinit), Hok.
  eexists _, _. split; [reflexivity |]. split; [| reflexivity].
  apply bool_decide_eq_true.
Qed.

End DeleteFacts.

Lemma delete_outcomes_witness :
  let w := Scenario.world [] in
  let cfg := Scenario.config in
  let s := initialState (Scenario.oneRecord Scenario.uuid1 (js "likes tea")) in
  let s1 := snd (RedisMemoryDB.ensureInitialized w s) in
  (RedisMemoryDB.delete w cfg (js "not-a-uuid") s
     = (Throws (InvalidMemoryId (js "not-a-uuid")), s1) /\ keys s1 = keys s) /\
  (exists s2, RedisMemoryDB.delete w cfg Scenario.uuid2 s = (Returns false, s2) /\
     keys s2 = keys s) /\
  (exists s2, RedisMemoryDB.delete w cfg Scenario.uuid1 s = (Returns true, s2) /\
     keys s2 = base.delete (RedisMemoryDB.key_of cfg Scenario.uuid1) (keys s) /\
     keys s2 !! RedisMemoryDB.key_of cfg Scenario.uuid1 = None).
Proof.
  intros w cfg s s1.
  assert (Hinit : RedisMemoryDB.ensureInitialized w s = (Returns tt, s1))
    by reflexivity.
  split; [| split].
  - pose proof (delete_outcomes w cfg (js "not-a-uuid") s) as [H _].
    rewrite Hinit in H. apply H. reflexivity.
  - pose proof (delete_outcomes w cfg Scenario.uuid2 s) as [H _].
    rewrite Hinit in H. apply H; reflexivity.
  - pose proof (delete_outcomes w cfg Scenario.uuid1 s) as [H _].
    rewrite Hinit in H. apply H; [reflexivity | eexists; reflexivity].
Defined.

Lemma memory_forget_by_id_witness :
  let w := Scenario.world [] in
  let cfg := Scenario.config in
  let answer := {| Plugin.content :=
                     js "Memory 123e4567-e89b-42d3-a456-426614174000 forgotten.";
                   Plugin.details := Plugin.ForgetDeleted Scenario.uuid1 |} in
  (* a record is stored under the id *)
  (exists s2,
     RedisMemoryDB.delete w cfg Scenario.uuid1
       (initialState (Scenario.oneRecord Scenario.uuid1 (js "likes tea")))
       = (Returns true, s2) /\
     Plugin.memory_forget w cfg None (Some Scenario.uuid1)
       (initialState (Scenario.oneRecord Scenario.uuid1 (js "likes tea")))
       = (Returns answer, s2)) /\
  (* no record is stored under the id *)
  (exists s2,
     RedisMemoryDB.delete w cfg Scenario.uuid1 (initialState ∅) = (Returns false, s2) /\
     Plugin.memory_forget w cfg None (Some Scenario.uuid1) (initialState ∅)
       = (Returns answer, s2)).
Proof.
  intros w cfg answer. split.
  - destruct (memory_forget_by_id w cfg None Scenario.uuid1
                (initialState (Scenario.oneRecord Scenario.uuid1 (js "likes tea")))
                (snd (RedisMemoryDB.ensureInitialized w
                   (initialState (Scenario.oneRecord Scenario.uuid1 (js "likes tea")))))
                eq_refl eq_refl) as (removed & s2 & Hd & Hr & Hf).
    exists s2. split; [| exact Hf].
    rewrite Hd. f_equal. f_equal. apply Hr. eexists; reflexivity.
  - destruct (memory_forget_by_id w cfg None Scenario.uuid1 (initialState ∅)
                (snd (RedisMemoryDB.ensureInitialized w (initialState ∅)))
                eq_refl eq_refl) as (removed & s2 & Hd & Hr & Hf).
    exists s2. split; [| exact Hf].
    rewrite Hd. f_equal. f_equal.
    destruct removed; [| reflexivity].
    destruct (proj1 Hr eq_refl) as [e He]. discriminate He.
Defined.

(** ** Pre-turn recall *)

Section RecallHook.
Import JsString Plugin.
Variable w : World.
Variable cfg : Config.

(** C8. For every event the hook returns, never throws, and the context
    it returns begins with the guidance text. The context is the guidance
    text alone when recall is disabled, when the prompt is absent or
    shorter than 5 code units, and when embedding the prompt or the search
    throws. *)
Theorem before_agent_start_guidance (prompt : option jsstring) (s : State) :
  exists ctx s',
    before_agent_start w cfg prompt s = (Returns ctx, s') /\
    (exists memories, ctx = MEMORY_SYSTEM_PROMPT ++ memories) /\
    (autoRecall cfg = false -> ctx = MEMORY_SYSTEM_PROMPT) /\
    (prompt = None -> ctx = MEMORY_SYSTEM_PROMPT) /\
    (forall p, prompt = Some p -> (length p < 5)%nat ->
       ctx = MEMORY_SYSTEM_PROMPT) /\
    (forall p e s1, prompt = Some p ->
       Embeddings.embed w p s = (Throws e, s1) -> ctx = MEMORY_SYSTEM_PROMPT) /\
    (forall p v s1 e s2, prompt = Some p ->
       Embeddings.embed w p s = (Returns v, s1) ->
       RedisMemoryDB.search w v 3 (Fin (3 # 10)) s1 = (Throws e, s2) ->
       ctx = MEMORY_SYSTEM_PROMPT).
Proof.
  assert (Hnil : exists memories,
             MEMORY_SYSTEM_PROMPT = MEMORY_SYSTEM_PROMPT ++ memories)
    by (exists []; now rewrite app_nil_r).
  unfold before_agent_start.
  destruct prompt as [[| c p] |]; cbn [truthy].
  1, 3: eexists _, _; split; [reflexivity |]; repeat split; auto.
  destruct (Nat.ltb_spec (length (c :: p)) 5) as [Hshort | Hlong].
  { eexists _, _. split; [reflexivity |]. repeat split; auto. }
  unfold tryCatch at 1.
  destruct (autoRecall cfg) eqn:Hrecall; cbn [negb].
  2: { eexists _, _. split; [reflexivity |]. repeat split; auto. }
  unfold bind at 1.
  destruct (Embeddings.embed w (c :: p) s) as [[v | e] s1] eqn:Hembed.
  2: { eexists _, _. split; [reflexivity |]. repeat split; auto. }
  unfold bind at 1.
  destruct (RedisMemoryDB.search w v 3 (Fin (3 # 10)) s1)
    as [[results | e] s2] eqn:Hsearch.
  2: { eexists _, _. split; [reflexivity |]. repeat split; auto. }
  destruct results as [| r results].
  { eexists _, _. split; [reflexivity |]. repeat split; auto. }
  eexists _, _. split; [reflexivity |].
  split; [eexists; reflexivity |].
  split; [congruence |]. split; [congruence |].
  split; [| split].
  - intros p' Hp Hlen. injection Hp as <-. lia.
  - intros p' e s1' Hp He. injection Hp as <-. congruence.
  - intros p' v' s1' e s2' Hp He Hs. injection Hp as <-.
    rewrite Hembed in He. injection He as <- <-. congruence.
Qed.

End RecallHook.

(** ** Initialisation happens once *)

Section ReadyFacts.
Variable w : World.
Variable cfg : Config.

Lemma db_ready_after (s s1 : State) :
  RedisMemoryDB.ensureInitialized w s = (Returns tt, s1) -> dbReady (db s1).
Proof.
  unfold RedisMemoryDB.ensureInitialized, dbReady. unfold_m.
  destruct (client (db s)) as [[] |] eqn:Hc.
  - intros [= <-]. auto.
  - destruct (db_initPromise (db s)) as [p |] eqn:Hp.
    + intros [= -> <-]. auto.
    + destruct (RedisMemoryDB.doInitialize w s) as [o s']. simpl.
      intros [= -> <-]. simpl. auto.
  - destruct (db_initPromise (db s)) as [p |] eqn:Hp.
    + intros [= -> <-]. auto.
    + destruct (RedisMemoryDB.doInitialize w s) as [o s']. simpl.
      intros [= -> <-]. simpl. auto.
Qed.

Lemma db_ready_noop (s : State) :
  dbReady (db s) -> RedisMemoryDB.ensureInitialized w s = (Returns tt, s).
Proof.
  unfold RedisMemoryDB.ensureInitialized, dbReady. unfold_m.
  intros [Hc | Hp].
  - now rewrite Hc.
  - rewrite Hp. now destruct (client (db s)) as [[] |].
Qed.

Lemma emb_doInitialize_frame (s : State) :
  keys (snd (Embeddings.doInitialize w s)) = keys s /\
  client (db (snd (Embeddings.doInitialize w s))) = client (db s) /\
  db_initPromise (db (snd (Embeddings.doInitialize w s))) = db_initPromise (db s).
Proof.
  unfold Embeddings.doInitialize, RedisMemoryDB.setVectorDim. unfold_m. simpl.
  split_m; simpl; auto.
Qed.

Lemma emb_ensureInitialized_frame (s : State) :
  keys (snd (Embeddings.ensureInitialized w s)) = keys s /\
  (dbReady (db s) -> dbReady (db (snd (Embeddings.ensureInitialized w s)))).
Proof.
  unfold Embeddings.ensureInitialized, dbReady.
  pose proof (emb_doInitialize_frame s) as (Hk & Hc & Hp).
  unfold_m. simpl.
  destruct (provider (emb s)); simpl; auto.
  destruct (emb_initPromise (emb s)); simpl; auto.
  destruct (Embeddings.doInitialize w s) as [o s']; simpl in *.
  rewrite Hc, Hp. auto.
Qed.

Lemma emb_ready_after (s s1 : State) :
  Embeddings.ensureInitialized w s = (Returns tt, s1) -> embReady (emb s1).
Proof.
  unfold Embeddings.ensureInitialized, embReady. unfold_m.
  destruct (provider (emb s)) as [pr |] eqn:Hpr.
  - intros [= <-]. rewrite Hpr. eauto.
  - destruct (emb_initPromise (emb s)) as [p |] eqn:Hp.
    + intros [= -> <-]. auto.
    + destruct (Embeddings.doInitialize w s) as [o s']. simpl.
      intros [= -> <-]. simpl. auto.
Qed.

Lemma emb_ready_noop (s : State) :
  embReady (emb s) -> Embeddings.ensureInitialized w s = (Returns tt, s).
Proof.
  unfold Embeddings.ensureInitialized, embReady. unfold_m.
  intros [[pr Hpr] | Hp].
  - now rewrite Hpr.
  - rewrite Hp. now destruct (provider (emb s)).
Qed.

End ReadyFacts.

(** ** Storing the same text twice *)

Section StoreTwice.
Import JsNumber JsString RedisMemoryDB Plugin.
Variable w : World.
Variable cfg : Config.

Lemma embed_inv (t : jsstring) (s s' : State) (v : list number) :
  Embeddings.embed w t s = (Returns v, s') ->
  exists s0, Embeddings.ensureInitialized w s = (Returns tt, s0) /\
    embedQuery w (tick s0) t = Returns v /\ s' = advance s0.
Proof.
  unfold Embeddings.embed. unfold_m.
  destruct (Embeddings.ensureInitialized w s) as [[[] | e] s0]; [| discriminate].
  intros [= Hq <-]. eauto.
Qed.

Lemma embed_ready (t : jsstring) (s : State) :
  embReady (emb s) ->
  Embeddings.embed w t s = (embedQuery w (tick s) t, advance s).
Proof.
  intros Hr. unfold Embeddings.embed. unfold_m.
  rewrite (emb_ready_noop w s Hr).
  now destruct (embedQuery w (tick s) t).
Qed.

Lemma search_inv (v : list number) (limit : nat) (minScore : number)
    (s s' : State) (results : list MemorySearchResult) :
  search w v limit minScore s = (Returns results, s') ->
  exists s0 documents, ensureInitialized w s = (Returns tt, s0) /\
    ft_search_knn w (tick s0) (keys s0) v limit = Returns documents /\
    results = searchMapped documents minScore /\ s' = advance s0.
Proof.
  unfold search. unfold_m.
  destruct (ensureInitialized w s) as [[[] | e] s0]; [| discriminate].
  destruct (ft_search_knn w (tick s0) (keys s0) v limit) as [docs | e] eqn:Hk;
    [| discriminate].
  intros [= <- <-]. eauto 6.
Qed.

Lemma search_ready (v : list number) (limit : nat) (minScore : number)
    (s : State) (documents : list Document) :
  dbReady (db s) ->
  ft_search_knn w (tick s) (keys s) v limit = Returns documents ->
  search w v limit minScore s = (Returns (searchMapped documents minScore), advance s).
Proof.
  intros Hr Hk. unfold search. unfold_m.
  now rewrite (db_ready_noop w s Hr), Hk.
Qed.

Lemma store_ready (e : NewEntry) (s : State) :
  dbReady (db s) ->
  let fullEntry :=
    {| id := randomUUID w (tick s); text := new_text e; vector := new_vector e;
       importance := new_importance e; category := new_category e;
       createdAt := dateNow w (S (tick s)); role := new_role e;
       embeddingModel := new_embeddingModel e |} in
  store w cfg e s =
    (Returns fullEntry,
     {| tick := S (S (tick s));
        keys := <[key_of cfg (id fullEntry) := fullEntry]> (keys s);
        db := db s; emb := emb s |}).
Proof.
  intros Hr. unfold store. unfold_m.
  now rewrite (db_ready_noop w s Hr).
Qed.

(** A call that reports a duplicate writes nothing. *)
Lemma memory_store_duplicate_keeps_keys (txt : jsstring)
    (imp : option number) (cat : option jsstring) (s s' : State)
    (r : ToolResult StoreDetails) (i t : jsstring) :
  memory_store w cfg txt imp cat s = (Returns r, s') ->
  details r = StoreDuplicate i t -> keys s' = keys s.
Proof.
  unfold memory_store. unfold bind at 1.
  destruct (Embeddings.embed w txt s) as [[v | e] sa] eqn:Hembed; [| discriminate].
  apply embed_inv in Hembed as (s0 & Hinit & _ & ->).
  pose proof (emb_ensureInitialized_frame w s) as [Hk0 _].
  rewrite Hinit in Hk0. simpl in Hk0.
  unfold bind at 1.
  destruct (search w v 1 (Fin (19 # 20)) (advance s0))
    as [[existing | e] sb] eqn:Hsearch; [| discriminate].
  apply search_inv in Hsearch as (s1 & docs & Hinit1 & _ & _ & ->).
  apply ensureInitialized_keys in Hinit1. simpl in Hinit1.
  destruct existing as [| existing0 rest].
  - unfold Embeddings.getProviderInfo. unfold_m.
    destruct (store w cfg _ _) as [[stored | e] sc]; [| discriminate].
    intros [= <- <-]. discriminate.
  - intros [= <- <-] _. simpl. congruence.
Qed.

(** C6. Let the provider embed the text as the same vector at every
    call, let a first [memory_store] of the text create an entry, and let
    the engine answer the next nearest-neighbour query for that vector
    with the document of this entry at a distance whose score reaches
    0.95. Then a second [memory_store] of the same text reports
    "duplicate" with the id of the first entry and writes nothing: the two
    calls together persist exactly the one entry of the first call. *)
Theorem memory_store_twice (txt : jsstring) (imp1 imp2 : option number)
    (cat1 cat2 : option jsstring) (s0 s1 : State)
    (r1 : ToolResult StoreDetails) (newId model : jsstring)
    (v : list number) (d : Document) (rest : list Document) :
  (forall t, embedQuery w t txt = Returns v) ->
  memory_store w cfg txt imp1 cat1 s0 = (Returns r1, s1) ->
  details r1 = StoreCreated newId model ->
  ft_search_knn w (S (tick s1)) (keys s1) v 1 = Returns (d :: rest) ->
  data_id d = JStr newId ->
  data_text d = JStr txt ->
  ge (scoreOfDistance (distanceOf d)) (Fin (19 # 20)) = true ->
  exists e1 r2 s2,
    keys s1 = <[key_of cfg newId := e1]> (keys s0) /\
    id e1 = newId /\ text e1 = txt /\ vector e1 = v /\
    memory_store w cfg txt imp2 cat2 s1 = (Returns r2, s2) /\
    details r2 = StoreDuplicate newId txt /\
    keys s2 = keys s1 /\
    (keys s0 !! key_of cfg newId = None -> size (keys s2) = S (size (keys s0))).
Proof.
  intros Hdet H1 Hd1 Hknn Hid Htxt Hscore.
  (* the first call *)
  unfold memory_store in H1. unfold bind at 1 in H1.
  destruct (Embeddings.embed w txt s0) as [[v0 | e] sa] eqn:Hembed; [| discriminate].
  apply embed_inv in Hembed as (sa0 & Hinit & Hq & ->).
  rewrite Hdet in Hq. injection Hq as <-.
  pose proof (emb_ensureInitialized_frame w s0) as [Hka _].
  rewrite Hinit in Hka. simpl in Hka.
  apply emb_ready_after in Hinit as Hemb.
  unfold bind at 1 in H1.
  destruct (search w v 1 (Fin (19 # 20)) (advance sa0))
    as [[existing | e] sb] eqn:Hsearch; [| discriminate].
  apply search_inv in Hsearch as (sb0 & docs & Hinit1 & _ & _ & ->).
  pose proof (db_ensureInitialized_frame w (advance sa0)) as [Hkb Heb].
  rewrite Hinit1 in Hkb, Heb. simpl in Hkb, Heb.
  apply db_ready_after in Hinit1 as Hdb.
  destruct existing as [| existing0 others].
  2: { injection H1 as <- <-. discriminate. }
  unfold Embeddings.getProviderInfo in H1. unfold bind at 1 in H1.
  unfold bind at 1, getEmb at 1, ret at 1 in H1.
  unfold bind at 1 in H1.
  rewrite (store_ready _ (advance sb0) Hdb) in H1.
  unfold_m. simpl in H1. injection H1 as <- <-. simpl in Hd1.
  injection Hd1 as <- <-. simpl in Hknn.
  (* the second call *)
  eexists _, _, _.
  split; [simpl; rewrite Hkb, Hka; reflexivity |].
  split; [reflexivity |]. split; [reflexivity |]. split; [reflexivity |].
  unfold memory_store. unfold bind at 1.
  rewrite embed_ready by (simpl; congruence).
  rewrite Hdet. unfold bind at 1.
  erewrite search_ready; [| exact Hdb | exact Hknn].
  cbn [searchMapped]. rewrite Hscore. unfold ret.
  split; [reflexivity |]. split; [simpl; now rewrite Hid, Htxt |].
  split; [reflexivity |].
  simpl. intros Hfresh. rewrite Hkb, Hka.
  apply map_size_insert_None. exact Hfresh.
Qed.

End StoreTwice.

Lemma memory_store_twice_witness :
  let w := Scenario.world [] in
  let cfg := Scenario.config in
  let txt := js "I like tea" in
  let s0 := initialState ∅ in
  let s1 := snd (Plugin.memory_store w cfg txt None None s0) in
  exists e1 r2 s2,
    keys s1 = <[RedisMemoryDB.key_of cfg Scenario.uuid1 := e1]> (keys s0) /\
    id e1 = Scenario.uuid1 /\ text e1 = txt /\ vector e1 = [Fin 1; Fin 0] /\
    Plugin.memory_store w cfg txt (Some (Fin (9 # 10))) (Some (js "preference")) s1
      = (Returns r2, s2) /\
    Plugin.details r2 = Plugin.StoreDuplicate Scenario.uuid1 txt /\
    keys s2 = keys s1 /\
    (keys s0 !! RedisMemoryDB.key_of cfg Scenario.uuid1 = None ->
     size (keys s2) = S (size (keys s0))).
Proof.
  intros w cfg txt s0 s1.
  apply (memory_store_twice w cfg txt None (Some (Fin (9 # 10)))
           None (Some (js "preference")) s0 s1
           {| Plugin.content :=
                js "Stored in Redis: " ++ [34] ++ txt ++ js "..." ++ [34];
              Plugin.details := Plugin.StoreCreated Scenario.uuid1 (js "local/toy") |}
           Scenario.uuid1 (js "local/toy") [Fin 1; Fin 0]
           (Scenario.document Scenario.uuid1 txt (js "0")) []).
  - intros t. reflexivity.
  - vm_compute. reflexivity.
  - reflexivity.
  - vm_compute. reflexivity.
  - reflexivity.
  - reflexivity.
  - vm_compute. reflexivity.
Defined.

(** ** The insertion-ordered map of the hybrid merge *)

Section MapFacts.
Import Plugin.

Lemma map_has_In (m : jsmap) (k : jsstring) :
  map_has m k = true <-> In k (map fst m).
Proof.
  induction m as [| [k' v'] m IH]; simpl; [split; [discriminate | tauto] |].
  destruct (decide (k' = k)) as [-> | Hne]; [tauto |].
  rewrite IH. split; [tauto | intros [? | ?]; [congruence | assumption]].
Qed.

Lemma map_has_false (m : jsmap) (k : jsstring) :
  map_has m k = false <-> ~ In k (map fst m).
Proof.
  rewrite <- map_has_In. destruct (map_has m k); split; congruence.
Qed.

(** Setting a new key appends the entry. *)
Lemma map_set_absent (m : jsmap) (k : jsstring) (v : MemorySearchResult) :
  map_has m k = false -> map_set m k v = m ++ [(k, v)].
Proof.
  induction m as [| [k' v'] m IH]; simpl; [reflexivity |].
  destruct (decide (k' = k)); [discriminate |].
  intros H. now rewrite IH.
Qed.

(** Setting a key keeps the keys that were there, in place. *)
Lemma map_set_keys (m : jsmap) (k : jsstring) (v : MemorySearchResult) :
  map fst (map_set m k v) =
  if map_has m k then map fst m else map fst m ++ [k].
Proof.
  induction m as [| [k' v'] m IH]; simpl; [reflexivity |].
  destruct (decide (k' = k)); simpl; [reflexivity |].
  rewrite IH. now destruct (map_has m k).
Qed.

Lemma map_set_In (m : jsmap) (k k' : jsstring) (v v' : MemorySearchResult) :
  In (k', v') (map_set m k v) -> (k' = k /\ v' = v) \/ In (k', v') m.
Proof.
  induction m as [| [k0 v0] m IH]; simpl.
  - intros [[= <- <-] | []]. auto.
  - destruct (decide (k0 = k)) as [-> | Hne]; simpl.
    + intros [[= <- <-] | Hin]; auto.
    + intros [Heq | Hin]; [auto |]. apply IH in Hin. tauto.
Qed.

Lemma map_set_NoDup (m : jsmap) (k : jsstring) (v : MemorySearchResult) :
  NoDup (map fst m) -> NoDup (map fst (map_set m k v)).
Proof.
  intros Hnd. rewrite map_set_keys.
  destruct (map_has m k) eqn:Hhas; [assumption |].
  apply map_has_false in Hhas.
  apply NoDup_app. split; [assumption |].
  split; [| apply NoDup_singleton].
  intros x Hx Hk. apply list_elem_of_In in Hx.
  apply list_elem_of_singleton in Hk. congruence.
Qed.

Lemma map_set_keys_In (m : jsmap) (k k' : jsstring) (v : MemorySearchResult) :
  In k' (map fst (map_set m k v)) <-> k' = k \/ In k' (map fst m).
Proof.
  rewrite map_set_keys.
  destruct (map_has m k) eqn:Hhas.
  - apply map_has_In in Hhas. split; [tauto | intros [-> | ?]; assumption].
  - rewrite List.in_app_iff. simpl.
    split; [intros [? | [? | []]]; auto | intros [-> | ?]; auto].
Qed.

Lemma seenVector_from (V V0 : list MemorySearchResult) (m : jsmap) :
  seenInv m V0 ->
  seenInv (fold_left (fun seen r => map_set seen (id (entry r)) r) V m) (V0 ++ V).
Proof.
  revert V0 m. induction V as [| r V IH]; intros V0 m Hinv; simpl.
  - now rewrite app_nil_r.
  - replace (V0 ++ r :: V) with ((V0 ++ [r]) ++ V) by now rewrite <- app_assoc.
    apply IH. destruct Hinv as (Hnd & Hin & Hall).
    split; [now apply map_set_NoDup |]. split.
    + intros k r' Hr'. apply map_set_In in Hr' as [[-> ->] | Hr'].
      * split; [reflexivity |]. apply List.in_app_iff. simpl. auto.
      * destruct (Hin _ _ Hr'). split; [assumption |].
        apply List.in_app_iff. auto.
    + intros r' Hr'. apply map_set_keys_In.
      apply List.in_app_iff in Hr' as [Hr' | [<- | []]]; auto.
Qed.

Lemma seenVector_inv (V : list MemorySearchResult) : seenInv (seenVector V) V.
Proof.
  apply (seenVector_from V [] []).
  split; [constructor |]. split; [intros ? ? [] | intros ? []].
Qed.

(** The text loop only appends: what the vector loop stored stays where
    it is, and each appended entry is a text result under an id the map
    did not hold, with its score multiplied by 0.8. *)
Lemma seenText_appends (T : list MemorySearchResult) (m : jsmap) :
  NoDup (map fst m) ->
  exists extra,
    seenText m T = m ++ extra /\
    NoDup (map fst (m ++ extra)) /\
    (forall k r, In (k, r) extra ->
       exists t, In t T /\ k = id (entry t) /\
         r = withScore t (score t * Fin (4 # 5))%js) /\
    (forall t, In t T -> In (id (entry t)) (map fst (m ++ extra))).
Proof.
  revert m. induction T as [| t T IH]; intros m Hnd.
  - exists []. rewrite app_nil_r.
    split; [reflexivity |]. split; [assumption |].
    split; [intros ? ? [] | intros ? []].
  - unfold seenText. simpl.
    destruct (map_has m (id (entry t))) eqn:Hhas; simpl.
    + destruct (IH m Hnd) as (extra & Heq & Hnd' & Hex & Hall).
      exists extra. split; [exact Heq |]. split; [exact Hnd' |]. split.
      * intros k r Hr. destruct (Hex k r Hr) as (t' & ? & ? & ?). eauto.
      * intros t' [<- | Ht']; [| auto].
        apply map_has_In in Hhas. rewrite map_app. apply List.in_app_iff. auto.
    + rewrite (map_set_absent m _ _ Hhas).
      assert (Hnd1 : NoDup (map fst (m ++ [(id (entry t),
                       withScore t (score t * Fin (4 # 5))%js)]))).
      { rewrite <- (map_set_absent m _ _ Hhas). now apply map_set_NoDup. }
      destruct (IH _ Hnd1) as (extra & Heq & Hnd' & Hex & Hall).
      exists ((id (entry t), withScore t (score t * Fin (4 # 5))%js) :: extra).
      rewrite <- app_assoc in Heq, Hnd', Hall. simpl in Heq, Hnd', Hall.
      split; [exact Heq |]. split; [exact Hnd' |]. split.
      * intros k r [[= <- <-] | Hr]; [eauto |].
        destruct (Hex k r Hr) as (t' & ? & ? & ?). eauto.
      * intros t' [<- | Ht']; [| auto].
        rewrite map_app. apply List.in_app_iff. simpl. auto.
Qed.

End MapFacts.

(** ** The stable sort *)

Section SortFacts.
Import JsNumber Plugin.
Context {A : Type}.
Variable compareFn : A -> A -> number.

Lemma insertSorted_perm (a : A) (l : list A) :
  Permutation (insertSorted compareFn a l) (a :: l).
Proof.
  induction l as [| b l IH]; cbn [insertSorted]; [reflexivity |].
  destruct (gt (compareFn a b) zero); [| reflexivity].
  rewrite IH. apply perm_swap.
Qed.

Lemma toSorted_perm (l : list A) : Permutation (toSorted compareFn l) l.
Proof.
  induction l as [| a l IH]; [reflexivity |].
  unfold toSorted in *. cbn [foldr]. rewrite insertSorted_perm. now constructor.
Qed.

(** Inserting an element keeps the order of those already there. *)
Lemma insertSorted_before_old (a x y : A) (l : list A) :
  before x y l -> before x y (insertSorted compareFn a l).
Proof.
  induction l as [| b l IH]; intros (l1 & l2 & l3 & Heq).
  - now destruct l1.
  - cbn [insertSorted]. destruct (gt (compareFn a b) zero).
    + destruct l1 as [| c l1]; simpl in Heq; injection Heq as -> ->.
      * (* [x] is the head: [y] is still somewhere behind it *)
        assert (Hy : In y (insertSorted compareFn a (l2 ++ y :: l3))).
        { apply (Permutation_in y (Permutation_sym (insertSorted_perm a _))).
          right. apply in_elt. }
        apply in_split in Hy as (m1 & m2 & ->).
        exists [], m1, m2. reflexivity.
      * destruct IH as (m1 & m2 & m3 & ->); [now exists l1, l2, l3 |].
        exists (c :: m1), m2, m3. reflexivity.
    + rewrite Heq. exists (a :: l1), l2, l3. reflexivity.
Qed.

(** The inserted element stops in front of the first element it is not
    to come after. *)
Lemma insertSorted_before_new (a y : A) (l : list A) :
  In y l -> gt (compareFn a y) zero = false ->
  before a y (insertSorted compareFn a l).
Proof.
  induction l as [| b l IH]; intros Hin Hcmp; [destruct Hin |].
  cbn [insertSorted]. destruct (gt (compareFn a b) zero) eqn:E.
  - destruct Hin as [-> | Hin]; [congruence |].
    destruct (IH Hin Hcmp) as (m1 & m2 & m3 & ->).
    exists (b :: m1), m2, m3. reflexivity.
  - apply in_split in Hin as (m1 & m2 & Hl).
    exists [], m1, m2. simpl. now rewrite Hl.
Qed.

(** Stability: two elements that the comparator does not ask to swap keep
    their order. *)
Lemma toSorted_stable (x y : A) (l : list A) :
  before x y l -> gt (compareFn x y) zero = false ->
  before x y (toSorted compareFn l).
Proof.
  induction l as [| a l IH]; intros (l1 & l2 & l3 & Heq) Hcmp.
  - now destruct l1.
  - unfold toSorted in *. cbn [foldr].
    destruct l1 as [| c l1]; simpl in Heq; injection Heq as -> ->.
    + apply insertSorted_before_new; [| exact Hcmp].
      apply (Permutation_in y (Permutation_sym (toSorted_perm _))).
      apply in_elt.
    + apply insertSorted_before_old. apply IH; [| exact Hcmp].
      now exists l1, l2, l3.
Qed.

End SortFacts.

(** ** Hybrid search: the merged list *)

Section HybridFacts.
Import JsNumber Plugin.

(** [(a, b) => b.score - a.score] *)
Local Abbreviation byScore :=
  (fun a b : MemorySearchResult => (score b - score a)%js).

Lemma byScore_gt (a b : MemorySearchResult) :
  gt (byScore a b) zero = lt (score a) (score b).
Proof. apply sub_gt_zero. Qed.

Lemma insertSorted_desc (a : MemorySearchResult) (l : list MemorySearchResult) :
  isNaN (score a) = false -> noNaNScores l ->
  StronglySorted byScoreDesc l ->
  StronglySorted byScoreDesc (insertSorted byScore a l).
Proof.
  intros Ha Hl Hs. induction Hs as [| b l Hs IH Hall]; cbn [insertSorted].
  - repeat constructor.
  - inversion Hl as [| ? ? Hb Hl']; subst.
    rewrite byScore_gt. destruct (lt (score a) (score b)) eqn:E.
    + constructor; [now apply IH |].
      apply List.Forall_forall. intros x Hx.
      apply (Permutation_in x (insertSorted_perm byScore a l)) in Hx.
      destruct Hx as [<- | Hx].
      * unfold byScoreDesc, ge. now apply lt_le.
      * rewrite List.Forall_forall in Hall. now apply Hall.
    + assert (Hab : byScoreDesc a b)
        by (unfold byScoreDesc, ge; now apply not_lt_le).
      constructor; [now constructor |].
      constructor; [exact Hab |].
      apply List.Forall_forall. intros x Hx.
      rewrite List.Forall_forall in Hall.
      unfold byScoreDesc, ge in *. eapply le_trans; [now apply Hall | exact Hab].
Qed.

Lemma toSorted_desc (l : list MemorySearchResult) :
  noNaNScores l -> StronglySorted byScoreDesc (toSorted byScore l).
Proof.
  induction 1 as [| a l Ha Hl IH]; [constructor |].
  unfold toSorted in *. cbn [foldr].
  apply insertSorted_desc; auto.
  unfold noNaNScores. rewrite List.Forall_forall. intros x Hx.
  apply (Permutation_in x (toSorted_perm byScore l)) in Hx.
  unfold noNaNScores in Hl. rewrite List.Forall_forall in Hl. now apply Hl.
Qed.

Lemma keys_ids (m : jsmap) :
  (forall k r, In (k, r) m -> k = id (entry r)) ->
  idsOf (map snd m) = map fst m.
Proof.
  induction m as [| [k r] m IH]; intros H; simpl; [reflexivity |].
  rewrite IH by (intros; apply H; now right).
  now rewrite (H k r) by now left.
Qed.

(** The list handed to the sort: the vector results, one per id, then the
    text-only results with their reduced score. *)
Lemma merged_structure (V T : list MemorySearchResult) :
  exists vs ts,
    map_values (seenText (seenVector V) T) = vs ++ ts /\
    NoDup (idsOf (vs ++ ts)) /\
    (forall r, In r vs -> In r V) /\
    (forall r, In r V -> In (id (entry r)) (idsOf vs)) /\
    (forall r, In r ts -> ~ In (id (entry r)) (idsOf V) /\
       exists t, In t T /\ r = withScore t (score t * Fin (4 # 5))%js) /\
    (forall t, In t T -> In (id (entry t)) (idsOf (vs ++ ts))).
Proof.
  destruct (seenVector_inv V) as (Hnd & Hin & Hall).
  destruct (seenText_appends T (seenVector V) Hnd)
    as (extra & Heq & Hnd' & Hex & HallT).
  assert (Hkv : idsOf (map snd (seenVector V)) = map fst (seenVector V)).
  { apply keys_ids. intros k r Hr. now destruct (Hin k r Hr). }
  assert (Hke : idsOf (map snd extra) = map fst extra).
  { apply keys_ids. intros k r Hr.
    destruct (Hex k r Hr) as (t & _ & -> & ->). reflexivity. }
  assert (Hk : idsOf (map snd (seenVector V) ++ map snd extra)
               = map fst (seenVector V ++ extra)).
  { unfold idsOf in *. now rewrite !map_app, Hkv, Hke. }
  exists (map snd (seenVector V)), (map snd extra).
  split; [unfold map_values; now rewrite Heq, map_app |].
  split; [now rewrite Hk |].
  split; [| split; [| split]].
  - intros r Hr. apply in_map_iff in Hr as ([k r'] & <- & Hr).
    now destruct (Hin k r' Hr).
  - intros r Hr. rewrite Hkv. now apply Hall.
  - intros r Hr. apply in_map_iff in Hr as ([k r'] & <- & Hr). simpl.
    destruct (Hex k r' Hr) as (t & Ht & -> & ->). split; [| eauto].
    intros Hv. simpl in Hv.
    apply in_map_iff in Hv as (v & Hid & Hv). apply Hall in Hv.
    rewrite Hid in Hv.
    rewrite map_app in Hnd'. apply NoDup_app in Hnd' as (_ & Hdisj & _).
    apply (Hdisj (id (entry t))); [now apply list_elem_of_In |].
    apply list_elem_of_In. apply (in_map fst) in Hr. exact Hr.
  - intros t Ht. rewrite Hk. now apply HallT.
Qed.

Lemma reduced_score_noNaN (t : MemorySearchResult) :
  isNaN (score t) = false -> isNaN (score t * Fin (4 # 5))%js = false.
Proof. now destruct (score t). Qed.

Lemma merged_noNaN (V T vs ts : list MemorySearchResult) :
  noNaNScores V -> noNaNScores T ->
  (forall r, In r vs -> In r V) ->
  (forall r, In r ts ->
     exists t, In t T /\ r = withScore t (score t * Fin (4 # 5))%js) ->
  noNaNScores (vs ++ ts).
Proof.
  unfold noNaNScores. rewrite !List.Forall_forall.
  intros HV HT Hvs Hts r Hr. apply List.in_app_iff in Hr as [Hr | Hr].
  - auto.
  - destruct (Hts r Hr) as (t & Ht & ->). simpl.
    apply reduced_score_noNaN. auto.
Qed.


Lemma hybridMerge_sorted (V T : list MemorySearchResult) (limit : nat) :
  noNaNScores V -> noNaNScores T ->
  StronglySorted byScoreDesc (hybridMerge V T limit).
Proof.
  intros HnV HnT. unfold hybridMerge.
  destruct (merged_structure V T) as (vs & ts & -> & _ & Hvs & _ & Hts & _).
  assert (Hs : StronglySorted byScoreDesc (toSorted byScore (vs ++ ts))).
  { apply toSorted_desc. apply (merged_noNaN V T vs ts HnV HnT Hvs).
    intros r Hr. now destruct (Hts r Hr). }
  rewrite <- (firstn_skipn limit (toSorted byScore (vs ++ ts))) in Hs.
  now apply StronglySorted_app_1_l in Hs.
Qed.

(** Both hybrid call sites, the tool and the command, return the merge of
    the lists their two sub-searches returned. *)
Lemma hybrid_call_sites (w : World) (query : jsstring) (limit : nat)
    (minScore : number) (s s1 s2 s3 : State) (v : list number)
    (V T : list MemorySearchResult) :
  Embeddings.embed w query s = (Returns v, s1) ->
  RedisMemoryDB.search w v limit minScore s1 = (Returns V, s2) ->
  RedisMemoryDB.textSearch w query limit s2 = (Returns T, s3) ->
  (minScore = Fin (1 # 10) ->
     recallResults w query limit ModeHybrid s = (Returns (hybridMerge V T limit), s3)) /\
  (minScore = Fin (3 # 10) ->
     cliSearchResults w query limit ModeHybrid s = (Returns (hybridMerge V T limit), s3)).
Proof.
  intros He Hs Ht. split; intros ->; unfold recallResults, cliSearchResults, bind;
    now rewrite He, Hs, Ht.
Qed.




(** ** Hybrid search: where text-only matches rank *)

Lemma before_app_In {A} (x y : A) (l1 l2 : list A) :
  In x l1 -> In y l2 -> before x y (l1 ++ l2).
Proof.
  intros Hx Hy.
  apply in_split in Hx as (a & b & ->). apply in_split in Hy as (c & d & ->).
  exists a, (b ++ c), d. now rewrite <- !app_assoc.
Qed.

Lemma before_lookup {A} (x y : A) (l : list A) (i j : nat) :
  NoDup l -> before x y l -> l !! i = Some x -> l !! j = Some y -> (i < j)%nat.
Proof.
  intros Hnd (l1 & l2 & l3 & ->) Hi Hj.
  assert (Hx : (l1 ++ x :: l2 ++ y :: l3) !! List.length l1 = Some x)
    by now apply list_lookup_middle.
  assert (Hy : (l1 ++ x :: l2 ++ y :: l3) !! (List.length l1 + S (List.length l2))%nat
               = Some y).
  { rewrite lookup_app_r by lia.
    replace (List.length l1 + S (List.length l2) - List.length l1)%nat
      with (S (List.length l2)) by lia.
    simpl. now apply list_lookup_middle. }
  rewrite (NoDup_lookup _ _ _ _ Hnd Hi Hx), (NoDup_lookup _ _ _ _ Hnd Hj Hy). lia.
Qed.

Lemma sorted_lookup {A} (R : A -> A -> Prop) (l : list A) (i j : nat) (x y : A) :
  StronglySorted R l -> l !! i = Some x -> l !! j = Some y -> (i < j)%nat ->
  R x y.
Proof.
  intros Hs. revert i j. induction Hs as [| a l Hs IH Hall]; intros i j Hi Hj Hlt.
  - discriminate.
  - destruct j as [| j]; [lia |]. simpl in Hj.
    destruct i as [| i]; simpl in Hi.
    + injection Hi as ->. rewrite List.Forall_forall in Hall.
      apply Hall. apply list_elem_of_In. eapply list_elem_of_lookup_2; eauto.
    + apply (IH i j); auto. lia.
Qed.

Lemma NoDup_of_ids (l : list MemorySearchResult) : NoDup (idsOf l) -> NoDup l.
Proof.
  induction l as [| r l IH]; simpl; [constructor |].
  rewrite !NoDup_cons. intros [Hr Hl]. split; [| auto].
  intros Hin. apply Hr. apply list_elem_of_In. apply list_elem_of_In in Hin.
  now apply (in_map (fun r => id (entry r))).
Qed.

Lemma searchMapped_noNaN (documents : list Document) (minScore : number) :
  noNaNScores (RedisMemoryDB.searchMapped documents minScore).
Proof.
  unfold noNaNScores. rewrite List.Forall_forall. intros r Hr.
  apply searchMapped_In in Hr as (data & _ & Hge & ->). simpl.
  unfold ge in Hge. now apply le_isNaN in Hge.
Qed.

Lemma textMapped_scores (documents : list Document) (t : MemorySearchResult) :
  In t (RedisMemoryDB.textMapped documents) -> score t = one.
Proof.
  unfold RedisMemoryDB.textMapped. intros Ht.
  apply in_map_iff in Ht as (data & <- & _). reflexivity.
Qed.

(** What the two sub-searches return never holds a [NaN] score, so the
    merge of their results is always in descending order. *)
Lemma hybrid_search_sorted (vectorDocs textDocs : list Document)
    (minScore : number) (limit : nat) :
  StronglySorted byScoreDesc
    (hybridMerge (RedisMemoryDB.searchMapped vectorDocs minScore)
       (RedisMemoryDB.textMapped textDocs) limit).
Proof.
  apply hybridMerge_sorted; [apply searchMapped_noNaN |].
  unfold noNaNScores. rewrite List.Forall_forall. intros t Ht.
  now rewrite (textMapped_scores textDocs t Ht).
Qed.

(** C4, as amended. In a hybrid result every text-only match carries the
    score 0.8 (its fixed text score 1.0 times the penalty); it ranks below
    every vector match whose score is at least 0.8 and above every vector
    match whose score is less than 0.8. *)
Theorem text_only_rank (vectorDocs textDocs : list Document)
    (minScore : number) (limit i j : nat) (t v : MemorySearchResult) :
  let V := RedisMemoryDB.searchMapped vectorDocs minScore in
  let T := RedisMemoryDB.textMapped textDocs in
  hybridMerge V T limit !! i = Some t ->
  hybridMerge V T limit !! j = Some v ->
  ~ In (id (entry t)) (idsOf V) ->
  In (id (entry v)) (idsOf V) ->
  score t = Fin (4 # 5) /\
  (ge (score v) (Fin (4 # 5)) = true -> (j < i)%nat) /\
  (lt (score v) (Fin (4 # 5)) = true -> (i < j)%nat).
Proof.
  intros V T. unfold hybridMerge.
  destruct (merged_structure V T) as (vs & ts & -> & Hnd & Hvs & HV & Hts & HT).
  set (sorted := toSorted byScore (vs ++ ts)).
  intros Hi Hj Htext Hvec.
  apply lookup_take_Some in Hi as [Hi _]. apply lookup_take_Some in Hj as [Hj _].
  assert (Hperm : Permutation sorted (vs ++ ts)) by apply toSorted_perm.
  assert (Hin : forall k r, sorted !! k = Some r -> In r vs \/ In r ts).
  { intros k r Hr. apply List.in_app_iff. apply (Permutation_in r Hperm).
    apply list_elem_of_In. eapply list_elem_of_lookup_2; eauto. }
  assert (Ht : In t ts).
  { destruct (Hin i t Hi) as [H | H]; [| exact H].
    destruct Htext. apply in_map_iff. eauto. }
  assert (Hv : In v vs).
  { destruct (Hin j v Hj) as [H | H]; [exact H |]. now destruct (Hts v H). }
  assert (Hscore : score t = Fin (4 # 5)).
  { destruct (Hts t Ht) as (_ & t0 & Ht0 & ->). simpl.
    now rewrite (textMapped_scores textDocs t0 Ht0). }
  assert (HndS : NoDup sorted).
  { rewrite Hperm. now apply NoDup_of_ids. }
  split; [exact Hscore |]. split.
  - intros Hge. apply (before_lookup v t sorted j i HndS); auto.
    apply toSorted_stable; [now apply before_app_In |].
    rewrite byScore_gt, Hscore.
    destruct (lt (score v) (Fin (4 # 5))) eqn:E; [| reflexivity].
    apply lt_not_le in E. unfold ge in Hge. congruence.
  - intros Hlt.
    assert (Hsorted : StronglySorted byScoreDesc sorted).
    { apply toSorted_desc.
      apply (merged_noNaN V T vs ts (searchMapped_noNaN _ _)); auto.
      - unfold noNaNScores. rewrite List.Forall_forall. intros t0 Ht0.
        now rewrite (textMapped_scores textDocs t0 Ht0).
      - intros r Hr. now destruct (Hts r Hr). }
    destruct (Nat.lt_trichotomy i j) as [H | [-> | H]]; [exact H | |].
    + rewrite Hi in Hj. injection Hj as ->.
      destruct Htext. exact Hvec.
    + pose proof (sorted_lookup _ _ _ _ _ _ Hsorted Hj Hi H) as Hd.
      unfold byScoreDesc, ge in Hd. rewrite Hscore in Hd.
      apply lt_not_le in Hlt. congruence.
Qed.


(** The claim as stated fails: a vector match at distance 1 is admitted
    (score 0.5, above the threshold 0.1) and the text-only match, at 0.8,
    ranks above it. *)
Lemma text_only_above_vector_match :
  fst (recallResults (Scenario.worldKnn Scenario.knnFar Scenario.textOne)
         (js "tea") 5 ModeHybrid (initialState ∅))
    = Returns
        [ {| entry := RedisMemoryDB.entryOf
                        (Scenario.textDocument Scenario.uuid3 (js "drinks tea"));
             score := Fin (4 # 5) |};
          {| entry := RedisMemoryDB.entryOf
                        (Scenario.document Scenario.uuid1 (js "likes tea") (js "1.0"));
             score := Fin (1 # 2) |} ] /\
  idsOf (RedisMemoryDB.searchMapped Scenario.knnFar (Fin (1 # 10)))
    = [Scenario.uuid1] /\
  idsOf (RedisMemoryDB.textMapped Scenario.textOne) = [Scenario.uuid3].
Proof. repeat split; vm_compute; reflexivity. Qed.

End HybridFacts.

Lemma text_only_rank_witness :
  let V := RedisMemoryDB.searchMapped Scenario.knnTwo (Fin (1 # 10)) in
  let T := RedisMemoryDB.textMapped Scenario.textTwo in
  let t := {| entry := RedisMemoryDB.entryOf
                         (Scenario.textDocument Scenario.uuid3 (js "owns a dog"));
              score := Fin (4 # 5) |} in
  let strong := {| entry := RedisMemoryDB.entryOf
                     (Scenario.document Scenario.uuid1 (js "likes tea") (js "0.2"));
                   score := Fin (9 # 10) |} in
  let weak := {| entry := RedisMemoryDB.entryOf
                   (Scenario.document Scenario.uuid2 (js "has a dog") (js "1.4"));
                 score := Fin (3 # 10) |} in
  Plugin.hybridMerge V T 5 = [strong; t; weak] /\
  (score t = Fin (4 # 5) /\
   (JsNumber.ge (score strong) (Fin (4 # 5)) = true -> (0 < 1)%nat) /\
   (JsNumber.lt (score strong) (Fin (4 # 5)) = true -> (1 < 0)%nat)) /\
  (score t = Fin (4 # 5) /\
   (JsNumber.ge (score weak) (Fin (4 # 5)) = true -> (2 < 1)%nat) /\
   (JsNumber.lt (score weak) (Fin (4 # 5)) = true -> (1 < 2)%nat)).
Proof.
  intros V T t strong weak.
  split; [vm_compute; reflexivity |]. split.
  - apply (text_only_rank Scenario.knnTwo Scenario.textTwo (Fin (1 # 10)) 5 1 0 t strong).
    + vm_compute. reflexivity.
    + vm_compute. reflexivity.
    + vm_compute. intros [H | [H | []]]; discriminate H.
    + vm_compute. tauto.
  - apply (text_only_rank Scenario.knnTwo Scenario.textTwo (Fin (1 # 10)) 5 1 2 t weak).
    + vm_compute. reflexivity.
    + vm_compute. reflexivity.
    + vm_compute. intros [H | [H | []]]; discriminate H.
    + vm_compute. tauto.
Defined.

(** * Further properties *)

(** ** Initialisation of the store *)

Section StoreInitialisation.
Import RedisMemoryDB.
Variable w : World.
Variable cfg : Config.

Lemma db_settled_noop (s : State) :
  dbSettled (db s) -> snd (ensureInitialized w s) = s.
Proof.
  intros Hs. unfold ensureInitialized. unfold_m.
  destruct (client (db s)) as [[] |] eqn:Hc; [reflexivity | |];
    (destruct Hs as [Hs | [p Hs]]; [congruence | now rewrite Hs]).
Qed.

Lemma sameConnection_settled (d d' : DbFields) :
  sameConnection d d' -> dbSettled d -> dbSettled d'.
Proof. intros (Hc & Hp & _) [H | H]; [left | right]; congruence. Qed.

Lemma sameConnection_trans (d1 d2 d3 : DbFields) :
  sameConnection d1 d2 -> sameConnection d2 d3 -> sameConnection d1 d3.
Proof. intros (? & ? & ?) (? & ? & ?). repeat split; congruence. Qed.

Lemma sameConnection_eq (d d' : DbFields) : d' = d -> sameConnection d d'.
Proof. intros ->. repeat split. Qed.

(** Once settled, the methods of the store leave its fields alone. *)
Lemma settled_store_db (e : NewEntry) (s : State) :
  dbSettled (db s) -> db (snd (store w cfg e s)) = db s.
Proof.
  intros Hs. pose proof (db_settled_noop s Hs) as Hn.
  unfold store. unfold_m.
  destruct (ensureInitialized w s) as [[[] | err] s0]; simpl in Hn; subst s0;
    reflexivity.
Qed.

Lemma settled_search_db (v : list number) (limit : nat) (minScore : number)
    (s : State) :
  dbSettled (db s) -> db (snd (search w v limit minScore s)) = db s.
Proof.
  intros Hs. pose proof (db_settled_noop s Hs) as Hn.
  unfold search. unfold_m.
  destruct (ensureInitialized w s) as [[[] | err] s0]; simpl in Hn; subst s0;
    [| reflexivity].
  simpl. now destruct (ft_search_knn w (tick s) (keys s) v limit).
Qed.

Lemma settled_textSearch_db (query : jsstring) (limit : nat) (s : State) :
  dbSettled (db s) -> db (snd (textSearch w query limit s)) = db s.
Proof.
  intros Hs. pose proof (db_settled_noop s Hs) as Hn.
  unfold textSearch. unfold_m.
  destruct (ensureInitialized w s) as [[[] | err] s0]; simpl in Hn; subst s0;
    [| reflexivity].
  simpl. now destruct (ft_search_text w (tick s) (keys s) _ limit).
Qed.

Lemma settled_delete_db (i : jsstring) (s : State) :
  dbSettled (db s) -> db (snd (delete w cfg i s)) = db s.
Proof.
  intros Hs. pose proof (db_settled_noop s Hs) as Hn.
  unfold delete. unfold_m.
  destruct (ensureInitialized w s) as [[[] | err] s0]; simpl in Hn; subst s0;
    [| reflexivity].
  destruct (Regex.matches uuidRegex i); [| reflexivity].
  simpl. now destruct (keys s !! key_of cfg i).
Qed.

(** The embedding wrapper reports the dimension and nothing else. *)
Lemma emb_doInitialize_connection (s : State) :
  sameConnection (db s) (db (snd (Embeddings.doInitialize w s))).
Proof.
  unfold sameConnection, Embeddings.doInitialize, setVectorDim. unfold_m.
  destruct (createEmbeddingProvider w (tick s)); simpl; [| repeat split].
  destruct (embedQuery w (S (tick s)) (js "test")); simpl; repeat split.
Qed.

Lemma emb_ensureInitialized_connection (s : State) :
  sameConnection (db s) (db (snd (Embeddings.ensureInitialized w s))).
Proof.
  pose proof (emb_doInitialize_connection s) as Hd.
  unfold Embeddings.ensureInitialized. unfold_m.
  destruct (provider (emb s)); [repeat split |].
  destruct (emb_initPromise (emb s)); [repeat split |].
  destruct (Embeddings.doInitialize w s) as [o s']. exact Hd.
Qed.

Lemma embed_connection (t : jsstring) (s : State) :
  sameConnection (db s) (db (snd (Embeddings.embed w t s))).
Proof.
  pose proof (emb_ensureInitialized_connection s) as He.
  unfold Embeddings.embed. unfold_m.
  destruct (Embeddings.ensureInitialized w s) as [[[] | err] s']; exact He.
Qed.

Lemma later_connection (s s' : State) :
  dbSettled (db s) -> later w cfg s s' -> sameConnection (db s) (db s').
Proof.
  intros Hs Hlater.
  induction Hlater as [| s' _ IH | e s' _ IH | v limit minScore s' _ IH
                       | query limit s' _ IH | i s' _ IH | t s' _ IH
                       | t ks s' _ IH].
  - now apply sameConnection_eq.
  - rewrite db_settled_noop; [exact IH | now apply (sameConnection_settled (db s))].
  - rewrite settled_store_db; [exact IH | now apply (sameConnection_settled (db s))].
  - rewrite settled_search_db; [exact IH | now apply (sameConnection_settled (db s))].
  - rewrite settled_textSearch_db; [exact IH | now apply (sameConnection_settled (db s))].
  - rewrite settled_delete_db; [exact IH | now apply (sameConnection_settled (db s))].
  - eapply sameConnection_trans; [exact IH | apply embed_connection].
  - exact IH.
Qed.

(** X1. Initialisation happens once: after [ensureInitialized] has
    succeeded, it succeeds again without a single external call in every
    later state of the running plugin, whatever was stored, searched,
    deleted or embedded in between (the embedding wrapper reporting a new
    vector dimension included) and whatever happened to the keyspace.
    [disconnect] is not among these steps: after it the store connects
    anew. *)
Theorem db_initialised_once (s s1 s2 : State) :
  ensureInitialized w s = (Returns tt, s1) ->
  later w cfg s1 s2 ->
  ensureInitialized w s2 = (Returns tt, s2).
Proof.
  intros Hinit Hlater. apply db_ready_noop.
  pose proof (db_ready_after w s s1 Hinit) as Hready.
  assert (Hs : dbSettled (db s1)).
  { destruct Hready as [H | H]; [now left | right; rewrite H; eauto]. }
  destruct (later_connection s1 s2 Hs Hlater) as (Hc & Hp & _).
  destruct Hready as [H | H]; [left | right]; congruence.
Qed.

Lemma db_init_rejected (s : State) (e : jserror) :
  client (db s) <> Some true ->
  db_initPromise (db s) = Some (Throws e) ->
  ensureInitialized w s = (Throws e, s).
Proof.
  intros Hc Hp. unfold ensureInitialized. unfold_m. rewrite Hp.
  destruct (client (db s)) as [[] |]; congruence.
Qed.

(** X2. A refused connection is remembered: when [connect] throws during
    the first initialisation, the call throws that error, and in every
    later state of the running plugin every operation of the store throws
    the same error without contacting Redis again, a malformed id
    included. [disconnect] is not among these steps: after it the store
    tries again. *)
Theorem db_connect_failure_sticky (s : State) (e : jserror) :
  client (db s) <> Some true ->
  db_initPromise (db s) = None ->
  connect w (tick s) = Throws e ->
  exists s1,
    ensureInitialized w s = (Throws e, s1) /\
    tick s1 = S (tick s) /\ keys s1 = keys s /\
    forall s2, later w cfg s1 s2 ->
      ensureInitialized w s2 = (Throws e, s2) /\
      (forall v limit minScore, search w v limit minScore s2 = (Throws e, s2)) /\
      (forall query limit, textSearch w query limit s2 = (Throws e, s2)) /\
      (forall entry, store w cfg entry s2 = (Throws e, s2)) /\
      (forall i, delete w cfg i s2 = (Throws e, s2)).
Proof.
  intros Hc Hp Hconn.
  assert (Hrun : exists s1, ensureInitialized w s = (Throws e, s1) /\
            tick s1 = S (tick s) /\ keys s1 = keys s /\
            client (db s1) = Some false /\
            db_initPromise (db s1) = Some (Throws e)).
  { unfold ensureInitialized, doInitialize, setClient, setInitPromise.
    unfold_m. rewrite Hp.
    destruct (client (db s)) as [[] |]; [congruence | |];
      simpl; rewrite Hconn; simpl; eexists; repeat split; reflexivity. }
  destruct Hrun as (s1 & Hrun & Ht & Hk & Hc1 & Hp1).
  exists s1. split; [exact Hrun |]. split; [exact Ht |]. split; [exact Hk |].
  intros s2 Hlater.
  assert (Hs : dbSettled (db s1)) by (right; rewrite Hp1; eauto).
  destruct (later_connection s1 s2 Hs Hlater) as (Hc2 & Hp2 & _).
  assert (Hrej : ensureInitialized w s2 = (Throws e, s2))
    by (apply db_init_rejected; congruence).
  split; [exact Hrej |].
  repeat split; intros; unfold search, textSearch, store, delete, bind;
    now rewrite Hrej.
Qed.

(** X3. A failed index creation is reported once and not retried while
    the plugin runs: when the connection opens but [FT.CREATE] throws,
    the first call throws that error; the client is open by then, so in
    every later state of the running plugin [ensureInitialized] returns
    at once, with no index created and without asking for one.
    [disconnect] is not among these steps: after it the index is looked
    for again. *)
Theorem db_index_failure_not_retried (s : State) (e0 e : jserror) :
  client (db s) <> Some true ->
  db_initPromise (db s) = None ->
  indexCreated (db s) = false ->
  connect w (tick s) = Returns tt ->
  ft_info w (S (tick s)) = Throws e0 ->
  ft_create w (S (S (tick s))) (vectorDim (db s)) = Throws e ->
  exists s1,
    ensureInitialized w s = (Throws e, s1) /\
    client (db s1) = Some true /\
    indexCreated (db s1) = false /\
    forall s2, later w cfg s1 s2 ->
      ensureInitialized w s2 = (Returns tt, s2) /\ indexCreated (db s2) = false.
Proof.
  intros Hc Hp Hi Hconn Hinfo Hcreate.
  assert (Hrun : exists s1, ensureInitialized w s = (Throws e, s1) /\
            client (db s1) = Some true /\ indexCreated (db s1) = false).
  { unfold ensureInitialized, doInitialize, ensureIndex, setClient,
      setInitPromise, setIndexCreated.
    unfold_m. rewrite Hp.
    destruct (client (db s)) as [[] |]; [congruence | |];
      simpl; rewrite Hconn; simpl; rewrite Hi; simpl; rewrite Hinfo; simpl;
      rewrite Hcreate; simpl; eexists; repeat split; reflexivity. }
  destruct Hrun as (s1 & Hrun & Hc1 & Hi1).
  exists s1. split; [exact Hrun |]. split; [exact Hc1 |]. split; [exact Hi1 |].
  intros s2 Hlater.
  destruct (later_connection s1 s2 (or_introl Hc1) Hlater) as (Hc2 & _ & Hi2).
  split; [| congruence].
  apply db_ready_noop. left. congruence.
Qed.

End StoreInitialisation.

(** ** The tools, hooks and commands only reach later states *)

Section LaterStates.
Import JsString RedisMemoryDB Plugin CaptureHook.
Variable w : World.
Variable cfg : Config.

Lemma staysLater_ret {A} (a : A) : staysLater w cfg (ret a).
Proof. intros s0 s H. exact H. Qed.

Lemma staysLater_extern {A} (f : nat -> outcome A) : staysLater w cfg (extern f).
Proof. intros s0 s H. exact (later_outside w cfg s0 (S (tick s)) (keys s) s H). Qed.

Lemma staysLater_bind {A B} (m : M A) (k : A -> M B) :
  staysLater w cfg m -> (forall a, staysLater w cfg (k a)) ->
  staysLater w cfg (bind m k).
Proof.
  intros Hm Hk s0 s H. unfold bind. specialize (Hm s0 s H).
  destruct (m s) as [[a | e] s1]; simpl in *; [now apply Hk | exact Hm].
Qed.

Lemma staysLater_tryCatch {A} (m : M A) (h : jserror -> M A) :
  staysLater w cfg m -> (forall e, staysLater w cfg (h e)) ->
  staysLater w cfg (tryCatch m h).
Proof.
  intros Hm Hh s0 s H. unfold tryCatch. specialize (Hm s0 s H).
  destruct (m s) as [[a | e] s1]; simpl in *; [exact Hm | now apply Hh].
Qed.

Lemma staysLater_recallResults (query : jsstring) (limit : nat) (mode : SearchMode) :
  staysLater w cfg (recallResults w query limit mode).
Proof.
  destruct mode; simpl.
  - apply staysLater_bind; [intros s0 s; apply later_embed | intros v].
    intros s0 s; apply later_search.
  - intros s0 s; apply later_textSearch.
  - apply staysLater_bind; [intros s0 s; apply later_embed | intros v].
    apply staysLater_bind; [intros s0 s; apply later_search | intros V].
    apply staysLater_bind; [intros s0 s; apply later_textSearch | intros T].
    (intros s0 s H; exact H).
Qed.

Lemma staysLater_captureLoop (toLowerCase : jsstring -> jsstring)
    (items : list TextWithRole) :
  forall n, staysLater w cfg (captureLoop w cfg toLowerCase items n).
Proof.
  induction items as [| item rest IH]; intros n; cbn [captureLoop].
  - (intros s0 s H; exact H).
  - apply staysLater_bind; [intros s0 s; apply later_embed | intros v].
    apply staysLater_bind; [intros s0 s; apply later_search | intros existing].
    destruct existing; [| apply IH].
    apply staysLater_bind; [intros s0 s H; exact H | intros info].
    apply staysLater_bind; [intros s0 s; apply later_store | intros _].
    apply IH.
Qed.

(** Every tool, hook and command leaves the plugin in a later state. *)
Lemma tools_stay_later (toFixed0 : number -> jsstring)
    (toLowerCase : jsstring -> jsstring) :
  (forall query limit mode, staysLater w cfg (memory_recall w toFixed0 query limit mode)) /\
  (forall txt imp cat, staysLater w cfg (memory_store w cfg txt imp cat)) /\
  (forall query memoryId, staysLater w cfg (memory_forget w cfg query memoryId)) /\
  (forall query limit mode, staysLater w cfg (cliSearchResults w query limit mode)) /\
  (forall i, staysLater w cfg (Commands.cliDelete w cfg i)) /\
  (forall prompt, staysLater w cfg (before_agent_start w cfg prompt)) /\
  (forall event, staysLater w cfg (agent_end w cfg toLowerCase event)).
Proof.
  repeat split.
  - intros query limit mode. unfold memory_recall.
    apply staysLater_bind; [apply staysLater_recallResults | intros results].
    destruct results; (intros s0 s H; exact H).
  - intros txt imp cat. unfold memory_store.
    apply staysLater_bind; [intros s0 s; apply later_embed | intros v].
    apply staysLater_bind; [intros s0 s; apply later_search | intros existing].
    destruct existing; [| (intros s0 s H; exact H)].
    apply staysLater_bind; [intros s0 s H; exact H | intros info].
    apply staysLater_bind; [intros s0 s; apply later_store | intros stored].
    (intros s0 s H; exact H).
  - intros query memoryId. unfold memory_forget.
    destruct (truthy memoryId) as [i |].
    { apply staysLater_bind; [intros s0 s; apply later_delete | intros b].
      (intros s0 s H; exact H). }
    destruct (truthy query) as [q |]; [| (intros s0 s H; exact H)].
    apply staysLater_bind; [intros s0 s; apply later_embed | intros v].
    apply staysLater_bind; [intros s0 s; apply later_search | intros results].
    destruct results as [| r0 rest]; [(intros s0 s H; exact H) |].
    destruct (_ && _); [| (intros s0 s H; exact H)].
    apply staysLater_bind; [intros s0 s; apply later_delete | intros b].
    (intros s0 s H; exact H).
  - intros query limit mode. destruct mode; simpl.
    + apply staysLater_bind; [intros s0 s; apply later_embed | intros v].
      intros s0 s; apply later_search.
    + intros s0 s; apply later_textSearch.
    + apply staysLater_bind; [intros s0 s; apply later_embed | intros v].
      apply staysLater_bind; [intros s0 s; apply later_search | intros V].
      apply staysLater_bind; [intros s0 s; apply later_textSearch | intros T].
      (intros s0 s H; exact H).
  - intros i. unfold Commands.cliDelete.
    apply staysLater_bind; [intros s0 s; apply later_delete | intros b].
    destruct b; (intros s0 s H; exact H).
  - intros prompt. unfold before_agent_start.
    destruct (truthy prompt) as [p |]; [| (intros s0 s H; exact H)].
    destruct (length p <? 5)%nat; [(intros s0 s H; exact H) |].
    apply staysLater_tryCatch; [| intros e; (intros s0 s H; exact H)].
    destruct (negb (autoRecall cfg)); [(intros s0 s H; exact H) |].
    apply staysLater_bind; [intros s0 s; apply later_embed | intros v].
    apply staysLater_bind; [intros s0 s; apply later_search | intros results].
    destruct results; (intros s0 s H; exact H).
  - intros event. unfold agent_end.
    destruct (negb (autoCapture cfg)); [(intros s0 s H; exact H) |].
    destruct (messages event) as [[| m ms] |]; try (intros s0 s H; exact H).
    destruct (negb (success event)); [(intros s0 s H; exact H) |].
    apply staysLater_tryCatch; [| intros e; (intros s0 s H; exact H)].
    cbv zeta. destruct (List.filter capturable (extractTexts (m :: ms)));
      [(intros s0 s H; exact H) |].
    apply staysLater_bind; [apply staysLater_captureLoop | intros _].
    (intros s0 s H; exact H).
Qed.

End LaterStates.

(** ** Teardown and reconnection *)

Section Teardown.
Import RedisMemoryDB Lifecycle.
Variable w : World.
Variable quit : nat -> outcome unit.

(** X4. [disconnect] forgets the client and the initialisation promise,
    a remembered failure included, and keeps the keyspace and the
    [indexCreated] flag; it calls [quit] only on an open client. The next
    operation therefore connects anew: it throws what this new [connect]
    throws, and when [connect] succeeds and the index was created before,
    initialisation is that one call. *)
Theorem disconnect_resets (s : State) :
  (client (db s) = Some true -> quit (tick s) = Returns tt) ->
  exists s',
    disconnect quit s = (Returns tt, s') /\
    client (db s') = None /\ db_initPromise (db s') = None /\
    indexCreated (db s') = indexCreated (db s) /\
    keys s' = keys s /\ emb s' = emb s /\
    (client (db s) <> Some true -> tick s' = tick s) /\
    (forall e, connect w (tick s') = Throws e ->
       exists s'', ensureInitialized w s' = (Throws e, s'')) /\
    (connect w (tick s') = Returns tt -> indexCreated (db s) = true ->
       exists s'', ensureInitialized w s' = (Returns tt, s'') /\
         tick s'' = S (tick s') /\ client (db s'') = Some true).
Proof.
  intros Hquit.
  assert (Hrun : exists s', disconnect quit s = (Returns tt, s') /\
            db s' = {| client := None; db_initPromise := None;
                       indexCreated := indexCreated (db s);
                       vectorDim := vectorDim (db s) |} /\
            keys s' = keys s /\ emb s' = emb s /\
            (client (db s) <> Some true -> tick s' = tick s)).
  { unfold disconnect. unfold_m.
    destruct (client (db s)) as [[] |] eqn:Hc; simpl.
    - rewrite Hquit by reflexivity. simpl.
      eexists. repeat split; try reflexivity. congruence.
    - eexists. repeat split; reflexivity.
    - eexists. repeat split; reflexivity. }
  destruct Hrun as (s' & Hrun & Hdb & Hk & He & Ht).
  exists s'. rewrite Hdb. simpl. repeat split; auto.
  - intros e Hconn.
    unfold ensureInitialized, doInitialize, setClient, setInitPromise.
    unfold_m. rewrite Hdb. simpl. rewrite Hconn. simpl. eauto.
  - intros Hconn Hidx.
    unfold ensureInitialized, doInitialize, ensureIndex, setClient,
      setInitPromise.
    unfold_m. rewrite Hdb. simpl. rewrite Hconn. simpl.
    rewrite !Hdb. simpl. rewrite Hidx. simpl.
    eexists. repeat split; reflexivity.
Qed.

End Teardown.

(** ** Initialisation of the embedding wrapper *)

Section EmbeddingInitialisation.
Import JsString Embeddings.
Variable w : World.

(** X5. The first successful initialisation of the wrapper reports the
    length of the test embedding to the store as its vector dimension and
    records the provider as [id/model]; the embeddings that follow leave
    the store's fields alone. *)
Theorem emb_dimension_reported (s : State) (p : Provider)
    (testVector : list number) :
  provider (emb s) = None ->
  emb_initPromise (emb s) = None ->
  createEmbeddingProvider w (tick s) = Returns p ->
  embedQuery w (S (tick s)) (js "test") = Returns testVector ->
  exists s1,
    ensureInitialized w s = (Returns tt, s1) /\
    vectorDim (db s1) = List.length testVector /\
    providerInfo (emb s1) = provider_id p ++ js "/" ++ provider_model p /\
    tick s1 = S (S (tick s)) /\
    forall s2 t, emb s2 = emb s1 ->
      embed w t s2 = (embedQuery w (tick s2) t, advance s2).
Proof.
  intros Hp Hi Hcreate Htest.
  assert (Hrun : exists s1, ensureInitialized w s = (Returns tt, s1) /\
            vectorDim (db s1) = List.length testVector /\
            providerInfo (emb s1) = provider_id p ++ js "/" ++ provider_model p /\
            tick s1 = S (S (tick s)) /\ provider (emb s1) = Some p).
  { unfold ensureInitialized, doInitialize, RedisMemoryDB.setVectorDim.
    unfold_m. rewrite Hp, Hi. simpl. rewrite Hcreate. simpl. rewrite Htest. simpl.
    eexists. repeat split; reflexivity. }
  destruct Hrun as (s1 & Hrun & Hdim & Hinfo & Ht & Hp1).
  exists s1. repeat split; auto.
  intros s2 t He. apply embed_ready. left. rewrite He, Hp1. eauto.
Qed.

(** X6. When the provider is created but the test embedding throws, the
    initialisation throws that error and the dimension is not reported;
    yet the provider stays in place, so every later [embed] goes straight
    to the provider, and the store keeps the dimension it had. *)
Theorem emb_test_failure_keeps_provider (s : State) (p : Provider)
    (e : jserror) :
  provider (emb s) = None ->
  emb_initPromise (emb s) = None ->
  createEmbeddingProvider w (tick s) = Returns p ->
  embedQuery w (S (tick s)) (js "test") = Throws e ->
  exists s1,
    ensureInitialized w s = (Throws e, s1) /\
    provider (emb s1) = Some p /\
    db s1 = db s /\
    forall s2 t, emb s2 = emb s1 ->
      embed w t s2 = (embedQuery w (tick s2) t, advance s2) /\
      db (advance s2) = db s2.
Proof.
  intros Hp Hi Hcreate Htest.
  assert (Hrun : exists s1, ensureInitialized w s = (Throws e, s1) /\
            provider (emb s1) = Some p /\ db s1 = db s).
  { unfold ensureInitialized, doInitialize, RedisMemoryDB.setVectorDim.
    unfold_m. rewrite Hp, Hi. simpl. rewrite Hcreate. simpl. rewrite Htest. simpl.
    eexists. repeat split; reflexivity. }
  destruct Hrun as (s1 & Hrun & Hp1 & Hdb).
  exists s1. repeat split; auto.
  apply embed_ready. left. rewrite H, Hp1. eauto.
Qed.

(** X7. When the provider cannot be created the failure is permanent:
    the first call throws the error and every later [embed] throws the
    same error without asking for a provider again. *)
Theorem emb_provider_failure_sticky (s : State) (e : jserror) :
  provider (emb s) = None ->
  emb_initPromise (emb s) = None ->
  createEmbeddingProvider w (tick s) = Throws e ->
  exists s1,
    ensureInitialized w s = (Throws e, s1) /\
    tick s1 = S (tick s) /\ db s1 = db s /\ keys s1 = keys s /\
    forall s2 t, emb s2 = emb s1 -> embed w t s2 = (Throws e, s2).
Proof.
  intros Hp Hi Hcreate.
  assert (Hrun : exists s1, ensureInitialized w s = (Throws e, s1) /\
            tick s1 = S (tick s) /\ db s1 = db s /\ keys s1 = keys s /\
            provider (emb s1) = None /\
            emb_initPromise (emb s1) = Some (Throws e)).
  { unfold ensureInitialized, doInitialize.
    unfold_m. rewrite Hp, Hi. simpl. rewrite Hcreate. simpl.
    eexists. repeat split; try reflexivity. simpl. exact Hp. }
  destruct Hrun as (s1 & Hrun & Ht & Hdb & Hk & Hp1 & Hi1).
  exists s1. repeat split; auto.
  intros s2 t He. unfold embed, ensureInitialized. unfold_m.
  now rewrite He, Hp1, Hi1.
Qed.

End EmbeddingInitialisation.

Lemma db_initialised_once_witness :
  let w := Scenario.world [] in
  let cfg := Scenario.config in
  let s1 := snd (RedisMemoryDB.ensureInitialized w (initialState ∅)) in
  let s2 := snd (RedisMemoryDB.store w cfg
                   {| new_text := js "likes tea"; new_vector := [Fin 1; Fin 0];
                      new_importance := Fin (7 # 10); new_category := js "fact";
                      new_role := None; new_embeddingModel := None |}
                   (snd (Embeddings.embed w (js "likes tea") s1))) in
  vectorDim (db s2) <> vectorDim (db s1) /\ keys s2 <> keys s1 /\
  RedisMemoryDB.ensureInitialized w s2 = (Returns tt, s2).
Proof.
  intros w cfg s1 s2.
  split; [vm_compute; discriminate |]. split; [vm_compute; discriminate |].
  apply (db_initialised_once w cfg (initialState ∅) s1 s2); [reflexivity |].
  unfold s2. apply later_store, later_embed, later_now.
Defined.

Lemma db_connect_failure_sticky_witness :
  let w := Faults.world (Throws Faults.refused) (Returns tt) (Returns tt)
             (Returns Faults.toyProvider) (fun _ => Returns [Fin 1; Fin 0]) in
  let s1 := snd (RedisMemoryDB.ensureInitialized w (initialState ∅)) in
  let s2 := snd (Embeddings.embed w (js "likes tea") s1) in
  RedisMemoryDB.ensureInitialized w (initialState ∅) = (Throws Faults.refused, s1) /\
  vectorDim (db s2) <> vectorDim (db s1) /\
  RedisMemoryDB.search w [Fin 1; Fin 0] 5 (Fin (1 # 2)) s2 = (Throws Faults.refused, s2) /\
  RedisMemoryDB.delete w Scenario.config (js "not-a-uuid") s2
    = (Throws Faults.refused, s2).
Proof.
  intros w s1 s2.
  destruct (db_connect_failure_sticky w Scenario.config (initialState ∅) Faults.refused)
    as (s1' & Hrun & _ & _ & Hlater);
    [discriminate | reflexivity | reflexivity |].
  assert (Hs1 : s1' = s1) by (unfold s1; now rewrite Hrun).
  subst s1'. split; [exact Hrun |]. split; [vm_compute; discriminate |].
  destruct (Hlater s2) as (_ & Hsearch & _ & _ & Hdelete).
  { unfold s2. apply later_embed, later_now. }
  split; [apply Hsearch | apply Hdelete].
Defined.

Lemma db_index_failure_not_retried_witness :
  let w := Faults.world (Returns tt) (Throws Faults.noIndex)
             (Throws Faults.createFailed) (Returns Faults.toyProvider)
             (fun _ => Returns [Fin 1; Fin 0]) in
  let s1 := snd (RedisMemoryDB.ensureInitialized w (initialState ∅)) in
  let s2 := snd (RedisMemoryDB.search w [Fin 1; Fin 0] 5 (Fin (1 # 2))
                   (snd (Embeddings.embed w (js "likes tea") s1))) in
  RedisMemoryDB.ensureInitialized w (initialState ∅)
    = (Throws Faults.createFailed, s1) /\
  vectorDim (db s2) <> vectorDim (db s1) /\
  RedisMemoryDB.ensureInitialized w s2 = (Returns tt, s2) /\
  indexCreated (db s2) = false.
Proof.
  intros w s1 s2.
  destruct (db_index_failure_not_retried w Scenario.config (initialState ∅)
              Faults.noIndex Faults.createFailed)
    as (s1' & Hrun & _ & _ & Hlater);
    [discriminate | reflexivity | reflexivity | reflexivity | reflexivity
    | reflexivity |].
  assert (Hs1 : s1' = s1) by (unfold s1; now rewrite Hrun).
  subst s1'. split; [exact Hrun |]. split; [vm_compute; discriminate |].
  apply (Hlater s2). unfold s2. apply later_search, later_embed, later_now.
Defined.

Lemma disconnect_resets_witness :
  let w := Scenario.world [] in
  let s := snd (RedisMemoryDB.ensureInitialized w (initialState ∅)) in
  exists s' s'',
    Lifecycle.disconnect (fun _ => Returns tt) s = (Returns tt, s') /\
    client (db s') = None /\
    RedisMemoryDB.ensureInitialized w s' = (Returns tt, s'') /\
    tick s'' = S (tick s').
Proof.
  intros w s.
  destruct (disconnect_resets w (fun _ => Returns tt) s)
    as (s' & Hrun & Hc & _ & _ & _ & _ & _ & _ & Hagain); [reflexivity |].
  destruct Hagain as (s'' & Hinit & Ht & _); [reflexivity | reflexivity |].
  exists s', s''. auto.
Defined.

Lemma emb_dimension_reported_witness :
  let w := Scenario.world [] in
  exists s1,
    Embeddings.ensureInitialized w (initialState ∅) = (Returns tt, s1) /\
    vectorDim (db s1) = 2%nat /\
    providerInfo (emb s1) = js "local/toy".
Proof.
  intros w.
  destruct (emb_dimension_reported w (initialState ∅)
              {| provider_id := js "local"; provider_model := js "toy" |}
              [Fin 1; Fin 0])
    as (s1 & Hrun & Hdim & Hinfo & _); try reflexivity.
  exists s1. auto.
Defined.

Lemma emb_test_failure_keeps_provider_witness :
  let w := Faults.world (Returns tt) (Returns tt) (Returns tt)
             (Returns Faults.toyProvider)
             (fun t => if decide (t = js "test") then Throws Faults.embedFailed
                       else Returns [Fin 1; Fin 0]) in
  exists s1,
    Embeddings.ensureInitialized w (initialState ∅) = (Throws Faults.embedFailed, s1) /\
    vectorDim (db s1) = 1536%nat /\
    Embeddings.embed w (js "I like tea") s1 = (Returns [Fin 1; Fin 0], advance s1).
Proof.
  intros w.
  destruct (emb_test_failure_keeps_provider w (initialState ∅) Faults.toyProvider
              Faults.embedFailed)
    as (s1 & Hrun & _ & Hdb & Hlater); try reflexivity.
  exists s1. split; [exact Hrun |]. split; [now rewrite Hdb |].
  now destruct (Hlater s1 (js "I like tea") eq_refl) as [-> _].
Defined.

Lemma emb_provider_failure_sticky_witness :
  let w := Faults.world (Returns tt) (Returns tt) (Returns tt)
             (Throws Faults.noProvider) (fun _ => Returns [Fin 1; Fin 0]) in
  exists s1,
    Embeddings.ensureInitialized w (initialState ∅) = (Throws Faults.noProvider, s1) /\
    Embeddings.embed w (js "I like tea") s1 = (Throws Faults.noProvider, s1).
Proof.
  intros w.
  destruct (emb_provider_failure_sticky w (initialState ∅) Faults.noProvider)
    as (s1 & Hrun & _ & _ & _ & Hlater); try reflexivity.
  exists s1. split; [exact Hrun | now apply Hlater].
Defined.

(** ** Storing and deleting records *)

Section StoreRecords.
Import JsString RedisMemoryDB.
Variable w : World.
Variable cfg : Config.

Lemma store_initialised (entry : NewEntry) (s s1 : State) :
  ensureInitialized w s = (Returns tt, s1) ->
  let fullEntry :=
    {| id := randomUUID w (tick s1); text := new_text entry;
       vector := new_vector entry; importance := new_importance entry;
       category := new_category entry; createdAt := dateNow w (S (tick s1));
       role := new_role entry; embeddingModel := new_embeddingModel entry |} in
  store w cfg entry s =
    (Returns fullEntry,
     {| tick := S (S (tick s1));
        keys := <[key_of cfg (id fullEntry) := fullEntry]> (keys s);
        db := db s1; emb := emb s1 |}).
Proof.
  intros Hinit. pose proof (ensureInitialized_keys w _ _ _ Hinit) as Hk.
  unfold store. unfold_m. rewrite Hinit. simpl. now rewrite Hk.
Qed.

Lemma key_of_inj (i j : jsstring) : key_of cfg i = key_of cfg j -> i = j.
Proof.
  unfold key_of. intros H. apply app_inv_head in H. now apply app_inv_head in H.
Qed.

(** X8. What [store] writes can be read back: the entry it returns is the
    record under [keyPrefix:id], it carries the caller's text, vector,
    importance, category, role and model unchanged together with the
    generated id and time, and no other key of the keyspace changes. *)
Theorem store_writes_entry (entry : NewEntry) (s s1 : State) :
  ensureInitialized w s = (Returns tt, s1) ->
  exists e s',
    store w cfg entry s = (Returns e, s') /\
    keys s' !! key_of cfg (id e) = Some e /\
    id e = randomUUID w (tick s1) /\ createdAt e = dateNow w (S (tick s1)) /\
    text e = new_text entry /\ vector e = new_vector entry /\
    importance e = new_importance entry /\ category e = new_category entry /\
    role e = new_role entry /\ embeddingModel e = new_embeddingModel entry /\
    forall k, k <> key_of cfg (id e) -> keys s' !! k = keys s !! k.
Proof.
  intros Hinit. rewrite (store_initialised entry s s1 Hinit).
  eexists _, _. split; [reflexivity |]. simpl.
  split; [apply lookup_insert_eq |].
  repeat (split; [reflexivity |]).
  intros k Hk. now apply lookup_insert_ne.
Qed.

(** X9. Deleting what was just stored undoes the store: when the
    generated id has the UUID shape and its key was free, [delete] of the
    returned id answers true and the keyspace is what it was before the
    store. *)
Theorem store_then_delete (entry : NewEntry) (s s1 : State) :
  ensureInitialized w s = (Returns tt, s1) ->
  Regex.matches uuidRegex (randomUUID w (tick s1)) = true ->
  keys s !! key_of cfg (randomUUID w (tick s1)) = None ->
  exists e s' s'',
    store w cfg entry s = (Returns e, s') /\
    delete w cfg (id e) s' = (Returns true, s'') /\
    keys s'' = keys s.
Proof.
  intros Hinit Hshape Hfresh. rewrite (store_initialised entry s s1 Hinit).
  eexists _, _, _. split; [reflexivity |]. simpl.
  erewrite delete_initialised.
  2: { apply db_ready_noop. simpl. now apply (db_ready_after w s). }
  rewrite Hshape. simpl. rewrite lookup_insert_eq.
  split; [reflexivity |]. simpl. now apply delete_insert_id.
Qed.

(** X10. [store] performs no uniqueness check: storing the same entry
    twice writes two records with the same text under the two generated
    ids, and the keyspace grows by two when both keys were free. *)
Theorem store_twice_two_records (entry : NewEntry) (s s1 : State) :
  ensureInitialized w s = (Returns tt, s1) ->
  randomUUID w (tick s1) <> randomUUID w (S (S (tick s1))) ->
  keys s !! key_of cfg (randomUUID w (tick s1)) = None ->
  keys s !! key_of cfg (randomUUID w (S (S (tick s1)))) = None ->
  exists e1 s' e2 s'',
    store w cfg entry s = (Returns e1, s') /\
    store w cfg entry s' = (Returns e2, s'') /\
    id e1 <> id e2 /\ text e1 = text e2 /\ vector e1 = vector e2 /\
    keys s'' !! key_of cfg (id e1) = Some e1 /\
    keys s'' !! key_of cfg (id e2) = Some e2 /\
    size (keys s'') = S (S (size (keys s))).
Proof.
  intros Hinit Hne Hf1 Hf2. rewrite (store_initialised entry s s1 Hinit).
  eexists _, _, _, _. split; [reflexivity |].
  erewrite store_initialised.
  2: { apply db_ready_noop. simpl. now apply (db_ready_after w s). }
  split; [reflexivity |]. simpl.
  assert (Hk : key_of cfg (randomUUID w (S (S (tick s1))))
               <> key_of cfg (randomUUID w (tick s1))).
  { intros H. apply key_of_inj in H. congruence. }
  split; [exact Hne |]. split; [reflexivity |]. split; [reflexivity |].
  split; [rewrite lookup_insert_ne by exact Hk; apply lookup_insert_eq |].
  split; [apply lookup_insert_eq |].
  rewrite map_size_insert_None.
  - now rewrite map_size_insert_None.
  - now rewrite lookup_insert_ne by congruence.
Qed.

End StoreRecords.

Lemma store_writes_entry_witness :
  let w := Scenario.world [] in
  let entry := {| new_text := js "likes tea"; new_vector := [Fin 1; Fin 0];
                  new_importance := Fin (7 # 10); new_category := js "fact";
                  new_role := Some (js "user"); new_embeddingModel := None |} in
  exists e s',
    RedisMemoryDB.store w Scenario.config entry (initialState ∅) = (Returns e, s') /\
    keys s' !! RedisMemoryDB.key_of Scenario.config Scenario.uuid1 = Some e /\
    text e = js "likes tea" /\ vector e = [Fin 1; Fin 0].
Proof.
  intros w entry.
  destruct (store_writes_entry w Scenario.config entry (initialState ∅)
              (snd (RedisMemoryDB.ensureInitialized w (initialState ∅))) eq_refl)
    as (e & s' & Hrun & Hget & Hid & _ & Htext & Hvec & _).
  exists e, s'. rewrite Hid in Hget. auto.
Defined.

Lemma store_then_delete_witness :
  let w := Scenario.world [] in
  let entry := {| new_text := js "likes tea"; new_vector := [Fin 1; Fin 0];
                  new_importance := Fin (7 # 10); new_category := js "fact";
                  new_role := Some (js "user"); new_embeddingModel := None |} in
  let s := initialState (Scenario.oneRecord Scenario.uuid2 (js "has a dog")) in
  exists e s' s'',
    RedisMemoryDB.store w Scenario.config entry s = (Returns e, s') /\
    RedisMemoryDB.delete w Scenario.config (id e) s' = (Returns true, s'') /\
    keys s'' = keys s.
Proof.
  intros w entry s.
  apply (store_then_delete w Scenario.config entry s
           (snd (RedisMemoryDB.ensureInitialized w s))); reflexivity.
Defined.

Lemma store_twice_two_records_witness :
  let w := Faults.world (Returns tt) (Returns tt) (Returns tt)
             (Returns Faults.toyProvider) (fun _ => Returns [Fin 1; Fin 0]) in
  let entry := {| new_text := js "likes tea"; new_vector := [Fin 1; Fin 0];
                  new_importance := Fin (7 # 10); new_category := js "fact";
                  new_role := Some (js "user"); new_embeddingModel := None |} in
  exists e1 s' e2 s'',
    RedisMemoryDB.store w Scenario.config entry (initialState ∅) = (Returns e1, s') /\
    RedisMemoryDB.store w Scenario.config entry s' = (Returns e2, s'') /\
    id e1 <> id e2 /\ text e1 = text e2 /\ vector e1 = vector e2 /\
    keys s'' !! RedisMemoryDB.key_of Scenario.config (id e1) = Some e1 /\
    keys s'' !! RedisMemoryDB.key_of Scenario.config (id e2) = Some e2 /\
    size (keys s'') = S (S (size (keys (initialState ∅)))).
Proof.
  intros w entry.
  apply (store_twice_two_records w Scenario.config entry (initialState ∅)
           (snd (RedisMemoryDB.ensureInitialized w (initialState ∅))));
    [reflexivity | discriminate | reflexivity | reflexivity].
Defined.

(** ** Operations that only read *)

Section ReadOnly.
Import JsString RedisMemoryDB Plugin.
Variable w : World.
Variable cfg : Config.

Lemma keepsKeys_ret {A} (a : A) : keepsKeys (ret a).
Proof. intros s. reflexivity. Qed.

Lemma keepsKeys_throw {A} (e : jserror) : keepsKeys (@throw A e).
Proof. intros s. reflexivity. Qed.

Lemma keepsKeys_extern {A} (f : nat -> outcome A) : keepsKeys (extern f).
Proof. intros s. reflexivity. Qed.

Lemma keepsKeys_bind {A B} (m : M A) (k : A -> M B) :
  keepsKeys m -> (forall a, keepsKeys (k a)) -> keepsKeys (bind m k).
Proof.
  intros Hm Hk s. unfold bind. specialize (Hm s).
  destruct (m s) as [[a | e] s1]; simpl in *; [| exact Hm].
  rewrite <- Hm. apply Hk.
Qed.

Lemma keepsKeys_tryCatch {A} (m : M A) (h : jserror -> M A) :
  keepsKeys m -> (forall e, keepsKeys (h e)) -> keepsKeys (tryCatch m h).
Proof.
  intros Hm Hh s. unfold tryCatch. specialize (Hm s).
  destruct (m s) as [[a | e] s1]; simpl in *; [exact Hm |].
  rewrite <- Hm. apply Hh.
Qed.

Lemma keepsKeys_db_init : keepsKeys (ensureInitialized w).
Proof. intros s. apply db_ensureInitialized_frame. Qed.

Lemma keepsKeys_emb_init : keepsKeys (Embeddings.ensureInitialized w).
Proof. intros s. apply emb_ensureInitialized_frame. Qed.

Lemma keepsKeys_search (v : list number) (limit : nat) (minScore : number) :
  keepsKeys (search w v limit minScore).
Proof.
  unfold search. apply keepsKeys_bind; [apply keepsKeys_db_init | intros _].
  apply keepsKeys_bind; [intros s; reflexivity | intros ks].
  apply keepsKeys_bind; [apply keepsKeys_extern | intros docs].
  apply keepsKeys_ret.
Qed.

Lemma keepsKeys_textSearch (query : jsstring) (limit : nat) :
  keepsKeys (textSearch w query limit).
Proof.
  unfold textSearch. apply keepsKeys_bind; [apply keepsKeys_db_init | intros _].
  apply keepsKeys_bind; [intros s; reflexivity | intros ks].
  apply keepsKeys_bind; [apply keepsKeys_extern | intros docs].
  apply keepsKeys_ret.
Qed.

Lemma keepsKeys_embed (t : jsstring) : keepsKeys (Embeddings.embed w t).
Proof.
  unfold Embeddings.embed.
  apply keepsKeys_bind; [apply keepsKeys_emb_init | intros _].
  apply keepsKeys_extern.
Qed.

Lemma keepsKeys_recallResults (query : jsstring) (limit : nat) (mode : SearchMode) :
  keepsKeys (recallResults w query limit mode).
Proof.
  destruct mode; simpl.
  - apply keepsKeys_bind; [apply keepsKeys_embed | intros v].
    apply keepsKeys_search.
  - apply keepsKeys_textSearch.
  - apply keepsKeys_bind; [apply keepsKeys_embed | intros v].
    apply keepsKeys_bind; [apply keepsKeys_search | intros V].
    apply keepsKeys_bind; [apply keepsKeys_textSearch | intros T].
    apply keepsKeys_ret.
Qed.

(** X11. Searching, recalling and the pre-turn hook only read: whatever
    they return or throw, the keyspace after [search], [textSearch],
    [memory_recall] in any mode, the [redis-memory search] command and
    [before_agent_start] is the keyspace before. *)
Theorem recall_is_read_only (toFixed0 : number -> jsstring) :
  (forall v limit minScore, keepsKeys (search w v limit minScore)) /\
  (forall query limit, keepsKeys (textSearch w query limit)) /\
  (forall query limit mode, keepsKeys (memory_recall w toFixed0 query limit mode)) /\
  (forall query limit mode, keepsKeys (cliSearchResults w query limit mode)) /\
  (forall prompt, keepsKeys (before_agent_start w cfg prompt)).
Proof.
  split; [apply keepsKeys_search |]. split; [apply keepsKeys_textSearch |].
  split; [| split].
  - intros query limit mode. unfold memory_recall.
    apply keepsKeys_bind; [apply keepsKeys_recallResults | intros results].
    destruct results; apply keepsKeys_ret.
  - intros query limit mode. destruct mode; simpl.
    + apply keepsKeys_bind; [apply keepsKeys_embed | intros v].
      apply keepsKeys_search.
    + apply keepsKeys_textSearch.
    + apply keepsKeys_bind; [apply keepsKeys_embed | intros v].
      apply keepsKeys_bind; [apply keepsKeys_search | intros V].
      apply keepsKeys_bind; [apply keepsKeys_textSearch | intros T].
      apply keepsKeys_ret.
  - intros prompt. unfold before_agent_start.
    destruct (truthy prompt) as [p |]; [| apply keepsKeys_ret].
    destruct (length p <? 5)%nat; [apply keepsKeys_ret |].
    apply keepsKeys_tryCatch; [| intros e; apply keepsKeys_ret].
    destruct (negb (autoRecall cfg)); [apply keepsKeys_ret |].
    apply keepsKeys_bind; [apply keepsKeys_embed | intros v].
    apply keepsKeys_bind; [apply keepsKeys_search | intros results].
    destruct results; apply keepsKeys_ret.
Qed.

End ReadOnly.

(** ** What the tools write and remove *)

Section ToolEffects.
Import JsNumber JsString RedisMemoryDB Plugin.
Variable w : World.
Variable cfg : Config.

(** X12. A call of [memory_store] writes at most one record. When it
    throws or reports a duplicate the keyspace is untouched; when it
    reports "created" exactly the record under the reported id was
    written, with the text verbatim, the role "user", the provider info as
    model, and importance 0.7 and category "other" unless given. *)
Theorem memory_store_effect (txt : jsstring) (imp : option number)
    (cat : option jsstring) (s s' : State)
    (o : outcome (ToolResult StoreDetails)) :
  memory_store w cfg txt imp cat s = (o, s') ->
  match o with
  | Throws _ => keys s' = keys s
  | Returns r =>
      match details r with
      | StoreDuplicate _ _ => keys s' = keys s
      | StoreCreated i m =>
          exists e, keys s' = <[key_of cfg i := e]> (keys s) /\
            id e = i /\ text e = txt /\
            importance e = default (Fin (7 # 10)) imp /\
            category e = default (js "other") cat /\
            role e = Some (js "user") /\ embeddingModel e = Some m
      end
  end.
Proof.
  unfold memory_store. unfold bind at 1.
  pose proof (keepsKeys_embed w txt s) as Hke.
  destruct (Embeddings.embed w txt s) as [[v | e] sa] eqn:Hembed; simpl in Hke.
  2: { intros [= <- <-]. exact Hke. }
  unfold bind at 1.
  pose proof (keepsKeys_search w v 1 (Fin (19 # 20)) sa) as Hks.
  destruct (search w v 1 (Fin (19 # 20)) sa) as [[existing | e] sb] eqn:Hsearch;
    simpl in Hks.
  2: { intros [= <- <-]. congruence. }
  apply search_inv in Hsearch as (sb0 & docs & Hinit & _ & _ & ->).
  apply db_ready_after in Hinit as Hdb.
  destruct existing as [| existing0 others].
  2: { intros [= <- <-]. simpl in *. congruence. }
  unfold Embeddings.getProviderInfo. unfold bind at 1.
  unfold bind at 1, getEmb at 1, ret at 1. unfold bind at 1.
  rewrite (store_ready w cfg _ (advance sb0) Hdb).
  unfold_m. simpl. intros [= <- <-]. simpl.
  simpl in Hks. rewrite Hks, Hke.
  eexists. split; [reflexivity | repeat split; reflexivity].
Qed.

Lemma delete_effect (i : jsstring) (s s' : State) (o : outcome bool) :
  delete w cfg i s = (o, s') ->
  (o = Returns true /\ Regex.matches uuidRegex i = true /\
   is_Some (keys s !! key_of cfg i) /\
   keys s' = base.delete (key_of cfg i) (keys s)) \/
  (o <> Returns true /\ keys s' = keys s).
Proof.
  destruct (ensureInitialized w s) as [[[] | e] s1] eqn:Hinit.
  - rewrite (delete_initialised w cfg i s s1 Hinit).
    pose proof (ensureInitialized_keys w _ _ _ Hinit) as Hk.
    destruct (Regex.matches uuidRegex i).
    + destruct (keys s !! key_of cfg i) as [e |] eqn:He; intros [= <- <-]; simpl.
      * left. rewrite ?bool_decide_eq_true_2 by eauto. eauto.
      * right. rewrite ?bool_decide_eq_false_2 by (intros [? ?]; discriminate).
        split; [discriminate | now apply delete_id].
    + intros [= <- <-]. right. split; [discriminate | exact Hk].
  - unfold delete, bind. rewrite Hinit. intros [= <- <-].
    right. split; [discriminate |]. now apply (ensureInitialized_keys w s s1 (Throws e)).
Qed.

(** X13. A call of [memory_forget] removes at most one record, and only
    a record that exists under a well-formed id; in that case, and only
    then, the keyspace changes and the call reports "deleted" for that
    id. *)
Theorem memory_forget_removes_at_most_one (query memoryId : option jsstring)
    (s s' : State) (o : outcome (ToolResult ForgetDetails)) :
  memory_forget w cfg query memoryId s = (o, s') ->
  keys s' = keys s \/
  exists i c, Regex.matches uuidRegex i = true /\
    is_Some (keys s !! key_of cfg i) /\
    keys s' = base.delete (key_of cfg i) (keys s) /\
    o = Returns {| content := c; details := ForgetDeleted i |}.
Proof.
  unfold memory_forget.
  destruct (truthy memoryId) as [i |].
  { unfold bind.
    destruct (delete w cfg i s) as [[b | e] s1] eqn:Hd;
      apply delete_effect in Hd as [(Ho & Hm & Hsome & Hk) | (_ & Hk)];
      intros [= <- <-]; eauto 8; discriminate. }
  destruct (truthy query) as [q |]; [| intros [= <- <-]; now left].
  unfold bind at 1.
  pose proof (keepsKeys_embed w q s) as Hke.
  destruct (Embeddings.embed w q s) as [[v | e] sa]; simpl in Hke.
  2: { intros [= <- <-]. now left. }
  unfold bind at 1.
  pose proof (keepsKeys_search w v 5 (Fin (7 # 10)) sa) as Hks.
  destruct (search w v 5 (Fin (7 # 10)) sa) as [[results | e] sb]; simpl in Hks.
  2: { intros [= <- <-]. left. congruence. }
  destruct results as [| r0 rest]; [intros [= <- <-]; left; congruence |].
  destruct (_ && _); [| intros [= <- <-]; left; congruence].
  unfold bind.
  destruct (delete w cfg (id (entry r0)) sb) as [[b | e] s1] eqn:Hd;
    apply delete_effect in Hd as [(Ho & Hm & Hsome & Hk) | (_ & Hk)];
    intros [= <- <-]; try discriminate.
  - right. exists (id (entry r0)). eexists.
    rewrite Hks, Hke in Hsome, Hk. eauto.
  - left. congruence.
  - left. congruence.
Qed.

End ToolEffects.

Section ForgetByQuery.
Import JsNumber JsString RedisMemoryDB Plugin.
Variable w : World.
Variable cfg : Config.

(** X14. [memory_forget] by query, once the embedding and the search
    (limit 5, threshold 0.7) have returned: no result gives "found 0"; a
    single result scoring above 0.9 is deleted by its id, and the call
    throws the invalid-id error instead when that id is not a UUID; in
    every other case, several results with a perfect score among them
    included, nothing is deleted and all results are listed as
    candidates. *)
Theorem memory_forget_by_query (query memoryId : option jsstring)
    (q : jsstring) (v : list number) (results : list MemorySearchResult)
    (s s1 s2 : State) :
  truthy memoryId = None ->
  truthy query = Some q ->
  Embeddings.embed w q s = (Returns v, s1) ->
  search w v 5 (Fin (7 # 10)) s1 = (Returns results, s2) ->
  (results = [] ->
     memory_forget w cfg query memoryId s =
       (Returns {| content := js "No matching memories found.";
                   details := ForgetFound0 |}, s2)) /\
  (forall r, results = [r] -> gt (score r) (Fin (9 # 10)) = true ->
     Regex.matches uuidRegex (id (entry r)) = true ->
     exists s3,
       memory_forget w cfg query memoryId s =
         (Returns {| content := js "Forgotten: " ++ [34] ++ text (entry r) ++ [34];
                     details := ForgetDeleted (id (entry r)) |}, s3) /\
       keys s3 = base.delete (key_of cfg (id (entry r))) (keys s)) /\
  (forall r, results = [r] -> gt (score r) (Fin (9 # 10)) = true ->
     Regex.matches uuidRegex (id (entry r)) = false ->
     memory_forget w cfg query memoryId s
       = (Throws (InvalidMemoryId (id (entry r))), s2)) /\
  ((2 <= List.length results)%nat \/
   (exists r, results = [r] /\ gt (score r) (Fin (9 # 10)) = false) ->
     exists c,
       memory_forget w cfg query memoryId s =
         (Returns {| content := c;
                     details := ForgetCandidates (map candidateOf results) |}, s2)).
Proof.
  intros Hid Hq Hembed Hsearch.
  pose proof (keepsKeys_embed w q s) as Hke. rewrite Hembed in Hke.
  pose proof (keepsKeys_search w v 5 (Fin (7 # 10)) s1) as Hks.
  rewrite Hsearch in Hks. simpl in Hke, Hks.
  assert (Hinit : ensureInitialized w s2 = (Returns tt, s2)).
  { apply search_inv in Hsearch as (s0 & docs & Hinit & _ & _ & ->).
    apply db_ready_noop. simpl. now apply (db_ready_after w s1). }
  assert (Hrun : memory_forget w cfg query memoryId s =
            match results with
            | [] =>
                (Returns {| content := js "No matching memories found.";
                            details := ForgetFound0 |}, s2)
            | r0 :: rest =>
                if (match rest with [] => true | _ => false end)
                   && gt (score r0) (Fin (9 # 10))
                then
                  match delete w cfg (id (entry r0)) s2 with
                  | (Returns _, s3) =>
                      (Returns {| content := js "Forgotten: " ++ [34]
                                             ++ text (entry r0) ++ [34];
                                  details := ForgetDeleted (id (entry r0)) |}, s3)
                  | (Throws e, s3) => (Throws e, s3)
                  end
                else
                  (Returns {| content :=
                                js "Found " ++ natToString (List.length results)
                                ++ js " candidates. Specify memoryId:" ++ [10]
                                ++ join [10]
                                     (map (fun r => js "- [" ++ slice0 (id (entry r)) 8
                                                    ++ js "] " ++ slice0 (text (entry r)) 60
                                                    ++ js "...") results);
                              details := ForgetCandidates (map candidateOf results) |},
                   s2)
            end).
  { unfold memory_forget. rewrite Hid, Hq. unfold bind at 1. rewrite Hembed.
    unfold bind at 1. rewrite Hsearch.
    destruct results as [| r0 rest]; [reflexivity |].
    destruct (_ && _); reflexivity. }
  rewrite Hrun. clear Hrun.
  split; [intros ->; reflexivity |]. split; [| split].
  - intros r -> Hgt Hok. rewrite Hgt. cbn [andb].
    rewrite (delete_initialised w cfg _ s2 s2 Hinit), Hok.
    eexists. split; [reflexivity |]. simpl. congruence.
  - intros r -> Hgt Hbad. rewrite Hgt. cbn [andb].
    now rewrite (delete_initialised w cfg _ s2 s2 Hinit), Hbad.
  - intros [Hlen | (r & -> & Hgt)].
    + destruct results as [| r0 [| r1 rest]]; simpl in Hlen; try lia.
      cbn [andb]. eexists. reflexivity.
    + rewrite Hgt. cbn [andb]. eexists. reflexivity.
Qed.

(** X15. The delete command tells the two outcomes apart that the
    [memory_forget] tool merges: with the store initialised and a
    well-formed id it prints "Deleted memory" exactly when a record was
    stored under the id and "Memory not found" otherwise; a malformed id
    makes it throw. *)
Theorem cliDelete_reports (i : jsstring) (s s1 : State) :
  ensureInitialized w s = (Returns tt, s1) ->
  (Regex.matches uuidRegex i = true -> is_Some (keys s !! key_of cfg i) ->
     exists s2, Commands.cliDelete w cfg i s = (Returns (js "Deleted memory: " ++ i), s2) /\
       keys s2 = base.delete (key_of cfg i) (keys s)) /\
  (Regex.matches uuidRegex i = true -> keys s !! key_of cfg i = None ->
     exists s2, Commands.cliDelete w cfg i s = (Returns (js "Memory not found: " ++ i), s2) /\
       keys s2 = keys s) /\
  (Regex.matches uuidRegex i = false ->
     Commands.cliDelete w cfg i s = (Throws (InvalidMemoryId i), s1)).
Proof.
  intros Hinit. unfold Commands.cliDelete, bind.
  rewrite (delete_initialised w cfg i s s1 Hinit).
  split; [| split].
  - intros -> [e He]. rewrite He. simpl. eexists. split; reflexivity.
  - intros -> Hnone. rewrite Hnone. simpl. eexists. split; [reflexivity |].
    simpl. now apply delete_id.
  - intros ->. reflexivity.
Qed.

End ForgetByQuery.

Lemma memory_store_effect_witness :
  let w := Scenario.world [] in
  let run := Plugin.memory_store w Scenario.config (js "I like tea") None None
               (initialState ∅) in
  exists e,
    keys (snd run) = <[RedisMemoryDB.key_of Scenario.config Scenario.uuid1 := e]>
                       (keys (initialState ∅)) /\
    id e = Scenario.uuid1 /\ text e = js "I like tea" /\
    importance e = Fin (7 # 10) /\ category e = js "other" /\
    role e = Some (js "user") /\ embeddingModel e = Some (js "local/toy").
Proof.
  intros w run.
  apply (memory_store_effect w Scenario.config (js "I like tea") None None
           (initialState ∅) (snd run) (fst run)).
  vm_compute. reflexivity.
Defined.

Lemma memory_forget_removes_at_most_one_witness :
  let w := Scenario.world [] in
  let s := initialState (Scenario.oneRecord Scenario.uuid1 (js "likes tea")) in
  let run := Plugin.memory_forget w Scenario.config None (Some Scenario.uuid1) s in
  keys (snd run) = keys s \/
  exists i c, Regex.matches RedisMemoryDB.uuidRegex i = true /\
    is_Some (keys s !! RedisMemoryDB.key_of Scenario.config i) /\
    keys (snd run) = base.delete (RedisMemoryDB.key_of Scenario.config i) (keys s) /\
    fst run = Returns {| Plugin.content := c; Plugin.details := Plugin.ForgetDeleted i |}.
Proof.
  intros w s run.
  apply (memory_forget_removes_at_most_one w Scenario.config None
           (Some Scenario.uuid1) s (snd run) (fst run)).
  vm_compute. reflexivity.
Defined.

Lemma memory_forget_by_query_witness :
  let w := Scenario.world [] in
  let s := initialState (Scenario.oneRecord Scenario.uuid1 (js "likes tea")) in
  exists s3,
    Plugin.memory_forget w Scenario.config (Some (js "tea")) None s =
      (Returns {| Plugin.content := js "Forgotten: " ++ [34] ++ js "likes tea" ++ [34];
                  Plugin.details := Plugin.ForgetDeleted Scenario.uuid1 |}, s3) /\
    keys s3 = base.delete (RedisMemoryDB.key_of Scenario.config Scenario.uuid1) (keys s).
Proof.
  intros w s.
  pose (r := {| entry := RedisMemoryDB.entryOf
                  (Scenario.document Scenario.uuid1 (js "likes tea") (js "0"));
                score := Fin 1 |}).
  destruct (memory_forget_by_query w Scenario.config (Some (js "tea")) None
              (js "tea") [Fin 1; Fin 0] [r] s
              (snd (Embeddings.embed w (js "tea") s))
              (snd (RedisMemoryDB.search w [Fin 1; Fin 0] 5 (Fin (7 # 10))
                      (snd (Embeddings.embed w (js "tea") s)))))
    as (_ & Hdel & _); [reflexivity | reflexivity | reflexivity
                       | vm_compute; reflexivity |].
  apply (Hdel r); reflexivity.
Defined.

Lemma cliDelete_reports_witness :
  let w := Scenario.world [] in
  let s := initialState (Scenario.oneRecord Scenario.uuid1 (js "likes tea")) in
  (exists s2, Commands.cliDelete w Scenario.config Scenario.uuid1 s
     = (Returns (js "Deleted memory: 123e4567-e89b-42d3-a456-426614174000"), s2) /\
     keys s2 = base.delete (RedisMemoryDB.key_of Scenario.config Scenario.uuid1) (keys s)) /\
  (exists s2, Commands.cliDelete w Scenario.config Scenario.uuid2 s
     = (Returns (js "Memory not found: 0f8fad5b-d9cb-469f-a165-70867728950e"), s2) /\
     keys s2 = keys s).
Proof.
  intros w s.
  split.
  - apply (cliDelete_reports w Scenario.config Scenario.uuid1 s
             (snd (RedisMemoryDB.ensureInitialized w s)));
      [reflexivity | reflexivity | eexists; reflexivity].
  - apply (cliDelete_reports w Scenario.config Scenario.uuid2 s
             (snd (RedisMemoryDB.ensureInitialized w s))); reflexivity.
Defined.

(** ** The injected context and the capture filter *)

Section HookAndFilter.
Import JsString Plugin.
Variable w : World.
Variable cfg : Config.

Lemma startsWith_app (p rest : jsstring) : startsWith (p ++ rest) p = true.
Proof.
  induction p as [| c p IH]; simpl; [now destruct rest |].
  now rewrite N.eqb_refl, IH.
Qed.

Lemma includes_app (a p b : jsstring) : includes (a ++ p ++ b) p = true.
Proof.
  induction a as [| c a IH]; simpl.
  - pose proof (startsWith_app p b) as H.
    destruct (p ++ b); cbn [includes]; now rewrite H.
  - rewrite IH. apply orb_true_r.
Qed.

Lemma shouldCapture_delimiter (a b : jsstring) :
  Capture.shouldCapture (a ++ js "<relevant-memories>" ++ b) = false.
Proof.
  unfold Capture.shouldCapture. rewrite includes_app.
  now destruct (_ || _).
Qed.

(** The two shapes of what the hook returns. *)
Lemma before_agent_start_shapes (prompt : option jsstring) (s : State) :
  exists ctx s', before_agent_start w cfg prompt s = (Returns ctx, s') /\
    (ctx = MEMORY_SYSTEM_PROMPT \/
     exists block, ctx = (MEMORY_SYSTEM_PROMPT ++ [10; 10])
                         ++ js "<relevant-memories>" ++ block).
Proof.
  unfold before_agent_start.
  destruct (truthy prompt) as [p |]; [| eexists _, _; split; [reflexivity | now left]].
  destruct (length p <? 5)%nat; [eexists _, _; split; [reflexivity | now left] |].
  unfold tryCatch.
  destruct (negb (autoRecall cfg)); [eexists _, _; split; [reflexivity | now left] |].
  unfold bind at 1.
  destruct (Embeddings.embed w p s) as [[v | e] s1];
    [| eexists _, _; split; [reflexivity | now left]].
  unfold bind at 1.
  destruct (RedisMemoryDB.search w v 3 (Fin (3 # 10)) s1) as [[results | e] s2];
    [| eexists _, _; split; [reflexivity | now left]].
  destruct results as [| r rest]; [eexists _, _; split; [reflexivity | now left] |].
  eexists _, _. split; [reflexivity |]. right.
  eexists. rewrite <- !app_assoc. reflexivity.
Qed.

(** X16. What the recall hook injects is never captured as a memory: for
    every event, [shouldCapture] rejects the context the hook returns,
    the guidance text alone as well as the guidance followed by a memory
    block. *)
Theorem injected_context_not_captured (prompt : option jsstring) (s : State) :
  exists ctx s', before_agent_start w cfg prompt s = (Returns ctx, s') /\
    Capture.shouldCapture ctx = false.
Proof.
  destruct (before_agent_start_shapes prompt s) as (ctx & s' & Hrun & Hshape).
  exists ctx, s'. split; [exact Hrun |].
  destruct Hshape as [-> | (block & ->)].
  - vm_compute. reflexivity.
  - apply shouldCapture_delimiter.
Qed.

End HookAndFilter.

(** ** Text search without the embedding provider *)

Section TextWithoutEmbeddings.
Import JsString RedisMemoryDB Plugin.

Lemma db_ensureInitialized_oracles (w w' : World) (s : State) :
  (forall t, connect w t = connect w' t) ->
  (forall t, ft_info w t = ft_info w' t) ->
  (forall t d, ft_create w t d = ft_create w' t d) ->
  ensureInitialized w s = ensureInitialized w' s.
Proof.
  intros Hc Hi Hcr.
  unfold ensureInitialized, doInitialize, ensureIndex, setClient,
    setInitPromise, setIndexCreated.
  unfold_m.
  destruct (client (db s)) as [[] |]; try reflexivity;
    (destruct (db_initPromise (db s)); [reflexivity |]);
    simpl; rewrite Hc; (destruct (connect w' (tick s)); [| reflexivity]);
    simpl; (destruct (indexCreated (db s)); [reflexivity |]);
    simpl; rewrite Hi; (destruct (ft_info w' (S (tick s))); [reflexivity |]);
    simpl; rewrite Hcr; reflexivity.
Qed.

(** X17. Keyword search needs no embedding provider: [memory_recall] in
    text mode gives the same result and the same state in any two worlds
    that agree on the Redis side, whatever their embedding providers do,
    and it leaves the embedding wrapper as it was. *)
Theorem text_recall_ignores_embeddings (w w' : World)
    (toFixed0 : number -> jsstring) (query : jsstring)
    (limit : option nat) (s : State) :
  (forall t, connect w t = connect w' t) ->
  (forall t, ft_info w t = ft_info w' t) ->
  (forall t d, ft_create w t d = ft_create w' t d) ->
  (forall t ks q n, ft_search_text w t ks q n = ft_search_text w' t ks q n) ->
  memory_recall w toFixed0 query limit (Some ModeText) s
    = memory_recall w' toFixed0 query limit (Some ModeText) s /\
  emb (snd (memory_recall w toFixed0 query limit (Some ModeText) s)) = emb s.
Proof.
  intros Hc Hi Hcr Ht.
  assert (Heq : textSearch w query (default 5%nat limit) s
                = textSearch w' query (default 5%nat limit) s).
  { unfold textSearch, bind.
    rewrite (db_ensureInitialized_oracles w w' s Hc Hi Hcr).
    destruct (ensureInitialized w' s) as [[[] | e] s1]; [| reflexivity].
    unfold getKeys, extern. now rewrite Ht. }
  unfold memory_recall, recallResults. simpl. unfold bind at 1 3.
  rewrite Heq. split; [reflexivity |].
  pose proof (db_ensureInitialized_frame w' s) as [_ He].
  unfold textSearch, bind.
  destruct (ensureInitialized w' s) as [[[] | e] s1]; simpl in *; [| exact He].
  unfold getKeys, extern.
  destruct (ft_search_text w' _ _ _ _) as [docs | e]; simpl; [| exact He].
  now destruct (textMapped docs).
Qed.

End TextWithoutEmbeddings.

Lemma text_recall_ignores_embeddings_witness :
  let docs := [Scenario.textDocument Scenario.uuid1 (js "likes tea")] in
  let w := Scenario.world docs in
  let w' := {| connect := connect w; ft_info := ft_info w; ft_create := ft_create w;
               ft_search_knn := fun _ _ _ _ => Throws Faults.noIndex;
               ft_search_text := ft_search_text w;
               createEmbeddingProvider := fun _ => Throws Faults.noProvider;
               embedQuery := fun _ _ => Throws Faults.embedFailed;
               randomUUID := randomUUID w; dateNow := dateNow w |} in
  Plugin.memory_recall w (fun _ => js "100") (js "tea") None (Some Plugin.ModeText)
    (initialState ∅)
  = Plugin.memory_recall w' (fun _ => js "100") (js "tea") None (Some Plugin.ModeText)
      (initialState ∅) /\
  emb (snd (Plugin.memory_recall w (fun _ => js "100") (js "tea") None
              (Some Plugin.ModeText) (initialState ∅)))
  = emb (initialState ∅).
Proof.
  intros docs w w'.
  apply (text_recall_ignores_embeddings w w'); reflexivity.
Defined.

(** ** Escaping the text query *)

Section Escaping.
Import RedisMemoryDB.

Lemma escapeQuery_cons (c : N) (q : jsstring) :
  escapeQuery (c :: q) =
  if isSpecial c then 92 :: c :: escapeQuery q else c :: escapeQuery q.
Proof. unfold escapeQuery. simpl. now destruct (isSpecial c). Qed.

Lemma not_special_not_backslash (c : N) : isSpecial c = false -> N.eqb c 92 = false.
Proof.
  intros H. destruct (N.eqb_spec c 92) as [-> | ?]; [discriminate | reflexivity].
Qed.

(** X18. Escaping loses nothing: reading the escaped query with each
    backslash making the next character literal gives the query back, so
    two different queries never escape to the same text; a query without
    special characters is passed as it is. *)
Theorem escapeQuery_round_trip :
  (forall q, unescapeQuery (escapeQuery q) = q) /\
  (forall q1 q2, escapeQuery q1 = escapeQuery q2 -> q1 = q2) /\
  (forall q, forallb (fun c => negb (isSpecial c)) q = true -> escapeQuery q = q).
Proof.
  assert (Hrt : forall q, unescapeQuery (escapeQuery q) = q).
  { induction q as [| c q IH]; [reflexivity |].
    rewrite escapeQuery_cons. destruct (isSpecial c) eqn:E.
    - cbn [unescapeQuery]. rewrite N.eqb_refl. now rewrite IH.
    - cbn [unescapeQuery]. rewrite (not_special_not_backslash c E). now rewrite IH. }
  split; [exact Hrt |]. split.
  - intros q1 q2 H. rewrite <- (Hrt q1), <- (Hrt q2). now rewrite H.
  - induction q as [| c q IH]; [reflexivity |].
    cbn [forallb]. intros H. apply andb_prop in H as [Hc Hq].
    rewrite escapeQuery_cons. apply negb_true_iff in Hc. rewrite Hc.
    now rewrite IH.
Qed.

End Escaping.

(** * The capture hook and the configuration *)

(** ** Auto-capture *)

Section CaptureHookFacts.
Import JsNumber JsString JsData RedisMemoryDB CaptureHook.
Variable w : World.
Variable cfg : Config.
Variable toLowerCase : jsstring -> jsstring.

Lemma store_effect (entry : NewEntry) (s s' : State) (o : outcome MemoryEntry) :
  store w cfg entry s = (o, s') ->
  match o with
  | Returns e =>
      keys s' = <[key_of cfg (id e) := e]> (keys s) /\
      text e = new_text entry /\ vector e = new_vector entry /\
      importance e = new_importance entry /\ category e = new_category entry /\
      role e = new_role entry /\ embeddingModel e = new_embeddingModel entry
  | Throws _ => keys s' = keys s
  end.
Proof.
  destruct (ensureInitialized w s) as [[[] | e] s1] eqn:Hinit.
  - rewrite (store_initialised w cfg entry s s1 Hinit). intros [= <- <-].
    simpl. repeat split; reflexivity.
  - unfold store, bind. rewrite Hinit. intros [= <- <-].
    now apply (ensureInitialized_keys w s s1 (Throws e)).
Qed.

Lemma writeAll_cons (e : MemoryEntry) (added : list MemoryEntry) (ks : keyspace) :
  writeAll cfg (e :: added) ks = writeAll cfg added (<[key_of cfg (id e) := e]> ks).
Proof. reflexivity. Qed.

Lemma capturedFrom_weaken (item : TextWithRole) (items : list TextWithRole)
    (added : list MemoryEntry) :
  Forall (capturedFrom toLowerCase items) added ->
  Forall (capturedFrom toLowerCase (item :: items)) added.
Proof.
  intros Hall. eapply Forall_impl; [exact Hall |].
  intros e (i & Hin & H). exists i. split; [now right | exact H].
Qed.

Lemma captureLoop_effect (items : list TextWithRole) :
  forall (n : nat) (s s' : State) (o : outcome nat),
    captureLoop w cfg toLowerCase items n s = (o, s') ->
    exists added,
      keys s' = writeAll cfg added (keys s) /\
      (List.length added <= List.length items)%nat /\
      Forall (capturedFrom toLowerCase items) added /\
      match o with
      | Returns m => m = (n + List.length added)%nat
      | Throws _ => True
      end.
Proof.
  induction items as [| item rest IH]; intros n s s' o.
  - intros [= <- <-]. exists []. simpl. repeat split; auto.
  - cbn [captureLoop]. unfold bind at 1.
    pose proof (keepsKeys_embed w (item_text item) s) as Hke.
    destruct (Embeddings.embed w (item_text item) s) as [[v | e] sa]; simpl in Hke.
    2: { intros [= <- <-]. exists []. simpl. repeat split; auto. lia. }
    unfold bind at 1.
    pose proof (keepsKeys_search w v 1 (Fin (19 # 20)) sa) as Hks.
    destruct (search w v 1 (Fin (19 # 20)) sa) as [[existing | e] sb]; simpl in Hks.
    2: { intros [= <- <-]. exists []. simpl. repeat split; auto; [congruence | lia]. }
    destruct existing as [| existing0 others].
    + unfold bind at 1. unfold Embeddings.getProviderInfo at 1.
      unfold bind at 1, getEmb at 1, ret at 1. unfold bind at 1.
      match goal with |- context [store w cfg ?ne sb] =>
        pose proof (store_effect ne sb) as Hst;
        destruct (store w cfg ne sb) as [[e1 | e] sc]
      end.
      2: { intros [= <- <-]. specialize (Hst _ _ eq_refl). simpl in Hst.
           exists []. simpl. repeat split; auto; [congruence | lia]. }
      specialize (Hst _ _ eq_refl).
      destruct Hst as (Hk & Ht & _ & Hi & Hc & Hr & _). simpl in Ht, Hi, Hc, Hr.
      intros Hrun. apply IH in Hrun as (added & Hka & Hlen & Hall & Ho).
      exists (e1 :: added). rewrite writeAll_cons.
      split; [rewrite Hka, Hk; congruence |]. split; [simpl; lia |].
      split.
      * constructor; [| now apply capturedFrom_weaken].
        exists item. split; [now left | auto].
      * destruct o; [simpl; lia | exact I].
    + intros Hrun. apply IH in Hrun as (added & Hka & Hlen & Hall & Ho).
      exists added. split; [congruence |]. split; [simpl; lia |].
      split; [now apply capturedFrom_weaken | exact Ho].
Qed.

Lemma In_firstn_inv {A : Type} (n : nat) (l : list A) (x : A) :
  In x (firstn n l) -> In x l.
Proof.
  revert l. induction n as [| n IH]; intros [| y l]; simpl; try tauto.
  intros [-> | H]; [now left | right; now apply IH].
Qed.

Lemma extractTexts_roles (msgs : list jsdata) (item : TextWithRole) :
  In item (extractTexts msgs) ->
  item_role item = js "user" \/ item_role item = js "assistant".
Proof.
  unfold extractTexts. rewrite in_flat_map. intros (msg & _ & Hin).
  destruct (negb (isObject msg)); [destruct Hin |].
  destruct (getField msg (js "role")) as [| | | | r | |]; try (now destruct Hin).
  assert (Hr : bool_decide (r = js "user") || bool_decide (r = js "assistant") = true ->
               r = js "user" \/ r = js "assistant").
  { intros H. apply orb_true_iff in H as [H | H]; apply bool_decide_eq_true in H; auto. }
  destruct (bool_decide (r = js "user") || bool_decide (r = js "assistant"));
    [specialize (Hr eq_refl) | destruct Hin].
  destruct (getField msg (js "content")) as [| | | | c | blocks |];
    try (now destruct Hin).
  - destruct Hin as [<- | []]. exact Hr.
  - unfold blockTexts in Hin. rewrite in_flat_map in Hin.
    destruct Hin as (block & _ & Hin).
    destruct (_ && _); [| destruct Hin].
    destruct (getField block (js "text")); try (now destruct Hin).
    destruct Hin as [<- | []]. exact Hr.
Qed.

Lemma shouldCapture_true (t : jsstring) :
  Capture.shouldCapture t = true ->
  (10 <= length t <= 500)%nat /\ includes t (js "<relevant-memories>") = false.
Proof.
  unfold Capture.shouldCapture.
  destruct (Nat.ltb_spec (length t) 10), (Nat.ltb_spec 500 (length t));
    cbn [orb]; try discriminate.
  destruct (includes t (js "<relevant-memories>")); [discriminate |].
  intros _. split; [lia | reflexivity].
Qed.

Lemma detectCategory_known (t : jsstring) :
  In (Category.detectCategory toLowerCase t) Category.MEMORY_CATEGORIES.
Proof.
  unfold Category.detectCategory, Category.MEMORY_CATEGORIES.
  repeat match goal with |- context [if ?b then _ else _] => destruct b end;
    cbn [In]; auto 10.
Qed.

Lemma capturable_true (item : TextWithRole) :
  capturable item = true -> Capture.shouldCapture (item_text item) = true.
Proof. unfold capturable. now destruct (item_text item). Qed.

(** X20. The capture hook never throws, and a turn adds at most three
    records. Whatever the embedding provider and the store do, the
    keyspace afterwards is the keyspace before with at most three entries
    written, each for a text that passes [shouldCapture] (so between 10
    and 500 code units and without the recall delimiter), taken from a
    message of role user or assistant, with importance 0.7 and the
    category [detectCategory] gives it, one of the five categories. *)
Theorem capture_writes_bounded (event : AgentEndEvent) (s s' : State)
    (o : outcome unit) :
  agent_end w cfg toLowerCase event s = (o, s') ->
  o = Returns tt /\
  exists added,
    keys s' = writeAll cfg added (keys s) /\
    (List.length added <= 3)%nat /\
    forall e, In e added ->
      Capture.shouldCapture (text e) = true /\
      (10 <= length (text e) <= 500)%nat /\
      includes (text e) (js "<relevant-memories>") = false /\
      importance e = Fin (7 # 10) /\
      (role e = Some (js "user") \/ role e = Some (js "assistant")) /\
      category e = Category.detectCategory toLowerCase (text e) /\
      In (category e) Category.MEMORY_CATEGORIES.
Proof.
  assert (Hnone : forall s0 : State, o = Returns tt -> s' = s0 -> o = Returns tt /\
            exists added, keys s' = writeAll cfg added (keys s0) /\
              (List.length added <= 3)%nat /\
              forall e, In e added ->
                Capture.shouldCapture (text e) = true /\
                (10 <= length (text e) <= 500)%nat /\
                includes (text e) (js "<relevant-memories>") = false /\
                importance e = Fin (7 # 10) /\
                (role e = Some (js "user") \/ role e = Some (js "assistant")) /\
                category e = Category.detectCategory toLowerCase (text e) /\
                In (category e) Category.MEMORY_CATEGORIES).
  { intros s0 -> ->. split; [reflexivity |]. exists []. simpl.
    split; [reflexivity |]. split; [lia | intros e []]. }
  unfold agent_end.
  destruct (negb (autoCapture cfg)); [intros [= <- <-]; now apply Hnone |].
  destruct (messages event) as [[| m ms] |];
    try (intros [= <- <-]; now apply Hnone).
  destruct (negb (success event)); [intros [= <- <-]; now apply Hnone |].
  unfold tryCatch.
  cbv zeta.
  remember (List.filter capturable (extractTexts (m :: ms))) as toCapture
    eqn:HtoCapture.
  destruct toCapture as [| i0 more]; [intros [= <- <-]; now apply Hnone |].
  unfold bind.
  destruct (captureLoop w cfg toLowerCase (firstn 3 (i0 :: more)) 0 s)
    as [o1 s1] eqn:Hloop.
  apply captureLoop_effect in Hloop as (added & Hk & Hlen & Hall & _).
  intros Hrun.
  assert (Ho : o = Returns tt /\ s' = s1).
  { destruct o1; simpl in Hrun; inversion Hrun; auto. }
  destruct Ho as [-> ->]. split; [reflexivity |].
  exists added. split; [exact Hk |].
  split.
  { etransitivity; [exact Hlen |]. rewrite length_firstn. lia. }
  intros e He. rewrite Forall_forall in Hall.
  destruct (Hall e) as (item & Hin & Ht & Hr & Hi & Hc).
  { now apply list_elem_of_In. }
  apply In_firstn_inv in Hin. rewrite HtoCapture in Hin.
  apply filter_In in Hin as [Hex Hcap].
  apply capturable_true in Hcap. rewrite <- Ht in Hcap.
  destruct (shouldCapture_true _ Hcap) as [Hl Hd].
  split; [exact Hcap |]. split; [exact Hl |]. split; [exact Hd |].
  split; [exact Hi |].
  split; [rewrite Hr; destruct (extractTexts_roles _ _ Hex) as [-> | ->]; auto |].
  split; [congruence |]. rewrite Hc. apply detectCategory_known.
Qed.

(** X21. The hook leaves the whole state as it is, store and embedding
    provider not even initialised, when capture is switched off, when the
    turn did not succeed, and when no text of a user or assistant message
    passes [shouldCapture] (no messages at all included). *)
Theorem capture_skipped (event : AgentEndEvent) (s : State) :
  autoCapture cfg = false \/ success event = false \/
  (forall msgs, messages event = Some msgs ->
     Forall (fun item => Capture.shouldCapture (item_text item) = false)
            (extractTexts msgs)) ->
  agent_end w cfg toLowerCase event s = (Returns tt, s).
Proof.
  intros H. unfold agent_end.
  destruct (autoCapture cfg); cbn [negb]; [| reflexivity].
  destruct (messages event) as [[| m ms] |]; try reflexivity.
  destruct (success event); cbn [negb]; [| reflexivity].
  destruct H as [H | [H | H]]; try discriminate.
  specialize (H _ eq_refl).
  assert (Hf : List.filter capturable (extractTexts (m :: ms)) = []).
  { induction (extractTexts (m :: ms)) as [| item items IH]; [reflexivity |].
    inversion H as [| ? ? Hitem Hitems]; subst. cbn [List.filter].
    unfold capturable at 1. rewrite Hitem.
    destruct (item_text item); now apply IH. }
  cbv zeta. rewrite Hf. reflexivity.
Qed.

(** X22. A failure in the middle of a capture is swallowed and nothing
    is rolled back: when the first capturable text has been embedded,
    found new and stored, and the embedding of the second one fails, the
    hook still returns normally and the first entry stays in the
    keyspace. *)
Theorem capture_keeps_earlier_entries (event : AgentEndEvent)
    (msgs : list jsdata) (i1 i2 : TextWithRole) (more : list TextWithRole)
    (v1 : list number) (e1 : MemoryEntry) (err : jserror)
    (s sa sb sc sd : State) :
  autoCapture cfg = true -> success event = true ->
  messages event = Some msgs ->
  List.filter capturable (extractTexts msgs) = i1 :: i2 :: more ->
  Embeddings.embed w (item_text i1) s = (Returns v1, sa) ->
  search w v1 1 (Fin (19 # 20)) sa = (Returns [], sb) ->
  store w cfg
    {| new_text := item_text i1; new_vector := v1; new_importance := Fin (7 # 10);
       new_category := Category.detectCategory toLowerCase (item_text i1);
       new_role := Some (item_role i1);
       new_embeddingModel := Some (providerInfo (emb sb)) |} sb = (Returns e1, sc) ->
  Embeddings.embed w (item_text i2) sc = (Throws err, sd) ->
  agent_end w cfg toLowerCase event s = (Returns tt, sd) /\
  keys sd = <[key_of cfg (id e1) := e1]> (keys s) /\
  text e1 = item_text i1.
Proof.
  intros Hauto Hsucc Hmsgs Hf Hembed Hsearch Hstore Hembed2.
  unfold agent_end. rewrite Hauto, Hmsgs, Hsucc. cbn [negb].
  destruct msgs as [| m ms]; [discriminate |].
  cbv zeta. rewrite Hf. cbn [firstn captureLoop].
  unfold tryCatch. unfold bind at 1. unfold bind at 1. rewrite Hembed.
  unfold bind at 1. rewrite Hsearch.
  unfold bind at 1. unfold Embeddings.getProviderInfo at 1.
  unfold bind at 1, getEmb at 1, ret at 1. unfold bind at 1.
  rewrite Hstore. unfold bind at 1. rewrite Hembed2.
  split; [reflexivity |].
  pose proof (keepsKeys_embed w (item_text i1) s) as Hk1. rewrite Hembed in Hk1.
  pose proof (keepsKeys_search w v1 1 (Fin (19 # 20)) sa) as Hk2.
  rewrite Hsearch in Hk2.
  pose proof (keepsKeys_embed w (item_text i2) sc) as Hk3. rewrite Hembed2 in Hk3.
  apply store_effect in Hstore as (Hk & Ht & _). simpl in *.
  split; [congruence | exact Ht].
Qed.

End CaptureHookFacts.

Lemma capture_writes_bounded_witness :
  let w := Scenario.worldKnn [] [] in
  let run := CaptureHook.agent_end w CaptureScenario.config CaptureScenario.toLowerCase
               CaptureScenario.event (initialState ∅) in
  fst run = Returns tt /\
  exists added,
    keys (snd run) = writeAll CaptureScenario.config added ∅ /\
    (List.length added <= 3)%nat.
Proof.
  intros w run.
  destruct (capture_writes_bounded w CaptureScenario.config CaptureScenario.toLowerCase
              CaptureScenario.event (initialState ∅) (snd run) (fst run))
    as (Ho & added & Hk & Hlen & _).
  - apply surjective_pairing.
  - split; [exact Ho |]. exists added. split; [exact Hk | exact Hlen].
Defined.

Lemma capture_skipped_witness :
  CaptureHook.agent_end (Scenario.world []) CaptureScenario.config
    CaptureScenario.toLowerCase CaptureScenario.smallTalk (initialState ∅)
  = (Returns tt, initialState ∅).
Proof.
  apply capture_skipped. right. right. intros msgs [= <-].
  assert (Htexts : CaptureHook.extractTexts
                     [CaptureScenario.message (js "user") (JsData.DStr (js "hi"));
                      CaptureScenario.message (js "assistant")
                        (JsData.DStr (js "Hello there"))]
                   = [{| CaptureHook.item_text := js "hi";
                         CaptureHook.item_role := js "user" |};
                      {| CaptureHook.item_text := js "Hello there";
                         CaptureHook.item_role := js "assistant" |}])
    by (vm_compute; reflexivity).
  rewrite Htexts.
  constructor; [vm_compute; reflexivity |].
  constructor; [vm_compute; reflexivity | constructor].
Defined.

Lemma capture_keeps_earlier_entries_witness :
  let w := Faults.world (Returns tt) (Returns tt) (Returns tt)
             (Returns Faults.toyProvider) CaptureScenario.failsOnReminder in
  exists e1 sd,
    CaptureHook.agent_end w CaptureScenario.config CaptureScenario.toLowerCase
      CaptureScenario.event (initialState ∅) = (Returns tt, sd) /\
    keys sd = <[RedisMemoryDB.key_of CaptureScenario.config (id e1) := e1]> ∅ /\
    text e1 = CaptureScenario.preference.
Proof.
  intros w. eexists _, _.
  eapply (capture_keeps_earlier_entries w CaptureScenario.config
            CaptureScenario.toLowerCase CaptureScenario.event
            CaptureScenario.conversation
            {| CaptureHook.item_text := CaptureScenario.preference;
               CaptureHook.item_role := js "user" |}
            {| CaptureHook.item_text := CaptureScenario.reminder;
               CaptureHook.item_role := js "assistant" |} []).
  - reflexivity.
  - reflexivity.
  - reflexivity.
  - vm_compute; reflexivity.
  - vm_compute; reflexivity.
  - vm_compute; reflexivity.
  - vm_compute; reflexivity.
  - vm_compute; reflexivity.
Defined.

(** ** Environment references in the configuration *)

Section EnvFacts.
Import JsString JsData ConfigSchema.
Variable env : jsstring -> option jsstring.

Lemma scan_plain (s : jsstring) :
  includes s [36; 123] = false ->
  scan Outside s = map Chr s /\
  (startsWith s [123] = false -> scan Dollar s = Chr 36 :: map Chr s).
Proof.
  induction s as [| c s IH]; [intros _; split; reflexivity |].
  cbn [includes]. intros H. apply orb_false_iff in H as [Hstart Hrest].
  destruct (IH Hrest) as [IHo IHd]. cbn [scan map].
  assert (Hd : c = 36 -> startsWith s [123] = false).
  { intros ->. cbn [startsWith] in Hstart. rewrite N.eqb_refl in Hstart.
    destruct s as [| d s]; [reflexivity |]. cbn [startsWith andb] in *.
    exact Hstart. }
  split.
  - destruct (N.eqb_spec c 36) as [Hc | Hc].
    + rewrite IHd by auto. now subst.
    + now rewrite IHo.
  - intros Hbrace. cbn [startsWith] in Hbrace.
    destruct (N.eqb_spec c 123) as [-> | Hc];
      [rewrite N.eqb_refl in Hbrace; destruct s; discriminate |].
    destruct (N.eqb_spec c 36) as [Hc' | Hc'].
    + rewrite IHd by auto. now subst.
    + now rewrite IHo.
Qed.

Lemma replaceRefs_plain (f : jsstring -> checked jsstring) (s : jsstring) :
  replaceRefs f (map Chr s) = Ok s.
Proof.
  induction s as [| c s IH]; [reflexivity |]. cbn [map replaceRefs]. now rewrite IH.
Qed.

Lemma fillRefs_plain (s : jsstring) : fillRefs env (map Chr s) = s.
Proof.
  unfold fillRefs. induction s as [| c s IH]; [reflexivity |]. simpl. now rewrite IH.
Qed.

(** X23. A value without the two characters that open a reference is
    returned as it is by [resolveEnvVars], in every environment; the
    explicit test for them in [resolveEnvVarsOptional] changes no
    result. *)
Theorem resolveEnvVars_plain (value : jsstring) :
  includes value (js "${") = false ->
  resolveEnvVars env value = Ok value /\
  fillRefs env (scan Outside value) = value.
Proof.
  intros H. destruct (scan_plain value H) as [Hs _].
  unfold resolveEnvVars. rewrite Hs. split; [apply replaceRefs_plain |].
  apply fillRefs_plain.
Qed.

Lemma replaceRefs_outcome (parts : list part) :
  match replaceRefs (fun envVar => match env envVar with
                                   | Some (c :: v) => Ok (c :: v)
                                   | _ => Err (EnvNotSet envVar)
                                   end) parts with
  | Ok r =>
      Forall (isSet env)
        (flat_map (fun p => match p with Ref n => [n] | _ => [] end) parts) /\
      fillRefs env parts = r
  | Err e =>
      exists pre n post,
        flat_map (fun p => match p with Ref n => [n] | _ => [] end) parts
        = pre ++ n :: post /\
        Forall (isSet env) pre /\ ~ isSet env n /\ e = EnvNotSet n
  end.
Proof.
  unfold fillRefs. induction parts as [| [c | n] parts IH]; cbn [replaceRefs flat_map].
  - split; [constructor | reflexivity].
  - destruct (replaceRefs _ parts) as [r | e]; cbn [andThen app].
    + destruct IH as [Hall Hr]. split; [exact Hall | now rewrite Hr].
    + exact IH.
  - destruct (env n) as [[| c v] |] eqn:Hn; cbn [andThen].
    + eexists [], n, _. split; [reflexivity |]. split; [constructor |].
      split; [| reflexivity]. intros (c & v & H). congruence.
    + destruct (replaceRefs _ parts) as [r | e]; cbn [andThen].
      * destruct IH as [Hall Hr]. split.
        -- constructor; [now exists c, v | exact Hall].
        -- cbn [default]. now rewrite Hr.
      * destruct IH as (pre & m & post & Hrefs & Hpre & Hm & ->).
        exists (n :: pre), m, post. cbn [app]. rewrite Hrefs.
        split; [reflexivity |]. split; [| auto].
        constructor; [now exists c, v | exact Hpre].
    + eexists [], n, _. split; [reflexivity |]. split; [constructor |].
      split; [| reflexivity]. intros (c & v & H). congruence.
Qed.

(** X24. [resolveEnvVars] succeeds exactly when every variable the value
    refers to is set and not empty, and then [resolveEnvVarsOptional]
    gives the same text (for a value that is not empty); otherwise it
    throws for the first variable from the left that is unset or empty,
    where [resolveEnvVarsOptional] would have put nothing. *)
Theorem resolveEnvVars_outcome (value : jsstring) :
  match resolveEnvVars env value with
  | Ok r =>
      Forall (isSet env) (refsOf value) /\
      (value <> [] -> resolveEnvVarsOptional env (Some value) = Some r)
  | Err e =>
      exists pre n post,
        refsOf value = pre ++ n :: post /\
        Forall (isSet env) pre /\ ~ isSet env n /\ e = EnvNotSet n
  end.
Proof.
  pose proof (replaceRefs_outcome (scan Outside value)) as H.
  unfold resolveEnvVars, refsOf.
  destruct (replaceRefs _ (scan Outside value)) as [r | e]; [| exact H].
  destruct H as [Hall Hr]. split; [exact Hall |].
  intros Hne. unfold resolveEnvVarsOptional.
  destruct value as [| c v]; [congruence |].
  destruct (includes (c :: v) (js "${")) eqn:Hinc; cbn [negb].
  - now rewrite Hr.
  - destruct (scan_plain _ Hinc) as [Hs _]. rewrite Hs in Hr.
    rewrite <- Hr. now rewrite fillRefs_plain.
Qed.

Lemma scan_name (post : jsstring) (name : jsstring) :
  forall acc : jsstring,
    Forall (fun c => c <> 125) name -> acc ++ name <> [] ->
    scan (Name acc) (name ++ 125 :: post) = Ref (acc ++ name) :: scan Outside post.
Proof.
  induction name as [| c name IH]; intros acc Hname Hne.
  - rewrite app_nil_r in *. cbn [app scan]. rewrite N.eqb_refl.
    destruct acc; [congruence | reflexivity].
  - inversion Hname as [| ? ? Hc Hrest]; subst. cbn [app scan].
    destruct (N.eqb_spec c 125) as [? | _]; [congruence |].
    rewrite IH; [| exact Hrest | now destruct acc].
    now rewrite <- app_assoc.
Qed.

Lemma scan_prefix (pre rest : jsstring) :
  Forall (fun c => c <> 36) pre ->
  scan Outside (pre ++ rest) = map Chr pre ++ scan Outside rest.
Proof.
  induction pre as [| c pre IH]; intros Hpre; [reflexivity |].
  inversion Hpre as [| ? ? Hc Hrest]; subst. cbn [app scan map].
  destruct (N.eqb_spec c 36) as [? | _]; [congruence |].
  now rewrite IH.
Qed.

Lemma replaceRefs_app (f : jsstring -> checked jsstring) (pre : jsstring)
    (parts : list part) :
  replaceRefs f (map Chr pre ++ parts)
  = andThen (replaceRefs f parts) (fun out => Ok (pre ++ out)).
Proof.
  induction pre as [| c pre IH]; cbn [map app replaceRefs].
  - now destruct (replaceRefs f parts).
  - rewrite IH. now destruct (replaceRefs f parts).
Qed.

(** X25. One reference at a time: in a value made of a text without a
    dollar sign, a reference to a variable whose name is not empty and
    has no closing brace, and a rest, the variable's value is inserted as
    it is, without being scanned for references of its own, and the rest
    is resolved independently; an unset or empty variable is the
    error. *)
Theorem resolveEnvVars_reference (pre name post : jsstring) :
  Forall (fun c => c <> 36) pre ->
  name <> [] -> Forall (fun c => c <> 125) name ->
  resolveEnvVars env (pre ++ js "${" ++ name ++ js "}" ++ post)
  = match env name with
    | Some (c :: v) =>
        andThen (resolveEnvVars env post) (fun out => Ok (pre ++ (c :: v) ++ out))
    | _ => Err (EnvNotSet name)
    end.
Proof.
  intros Hpre Hne Hname. unfold resolveEnvVars.
  rewrite scan_prefix by exact Hpre.
  change (js "${" ++ name ++ js "}" ++ post) with (36 :: 123 :: name ++ 125 :: post).
  cbn [scan]. change (36 =? 36) with true. change (123 =? 123) with true. cbv iota.
  rewrite (scan_name post name []) by auto.
  rewrite replaceRefs_app. cbn [app replaceRefs].
  destruct (env name) as [[| c v] |]; cbn [andThen]; try reflexivity.
  destruct (replaceRefs _ (scan Outside post)); reflexivity.
Qed.

End EnvFacts.

Lemma resolveEnvVars_plain_witness :
  ConfigSchema.resolveEnvVars ConfigScenario.env (js "redis://localhost:6379")
  = ConfigSchema.Ok (js "redis://localhost:6379").
Proof.
  apply (resolveEnvVars_plain ConfigScenario.env (js "redis://localhost:6379")).
  reflexivity.
Defined.

Lemma resolveEnvVars_reference_witness :
  ConfigSchema.resolveEnvVars ConfigScenario.env (js "${NESTED}")
  = ConfigSchema.Ok (js "${REDIS_HOST}").
Proof.
  apply (resolveEnvVars_reference ConfigScenario.env [] (js "NESTED") []).
  - constructor.
  - discriminate.
  - vm_compute. repeat constructor; discriminate.
Defined.

(** ** Parsing the configuration *)

Section ParseFacts.
Import JsString JsData ConfigSchema.
Variable env : jsstring -> option jsstring.

Lemma assertAllowedKeys_ok (value : jsdata) (names : list jsstring)
    (label : jsstring) (u : unit) :
  assertAllowedKeys value names label = Ok u ->
  Forall (fun key => In key names) (objectKeys value).
Proof.
  unfold assertAllowedKeys.
  destruct (List.filter _ (objectKeys value)) as [| k ks] eqn:Hf; [| discriminate].
  intros _. apply Forall_forall. intros key Hkey. apply list_elem_of_In in Hkey.
  destruct (bool_decide (key ∈ names)) eqn:Hd.
  - apply bool_decide_eq_true in Hd. now apply list_elem_of_In.
  - assert (Hin : In key (List.filter (fun key => negb (allowed names key))
                                      (objectKeys value))).
    { apply filter_In. split; [exact Hkey |]. unfold allowed. now rewrite Hd. }
    rewrite Hf in Hin. destruct Hin.
Qed.

Lemma providerOf_ok (p : jsdata) (name : jsstring) :
  providerOf p = Ok name -> In name validProviders.
Proof.
  destruct p as [| | | | s | |]; cbn [providerOf]; try discriminate.
  - intros [= <-]. unfold validProviders. cbn [In]. auto.
  - intros [= <-]. unfold validProviders. cbn [In]. auto.
  - destruct (bool_decide (s ∈ validProviders)) eqn:Hd; [| discriminate].
    intros [= <-]. apply bool_decide_eq_true in Hd. now apply list_elem_of_In.
Qed.

(** X26. What [parse] guarantees of a configuration it accepts: the
    value is an object whose keys, and those of its [redis] and
    [embedding] parts, are all known; the provider is one of openai,
    gemini, local and auto; with openai or gemini the API key is present
    and not empty; the URL is the resolved [redis.url]; and each of the
    two flags is set only by the boolean true. *)
Theorem parse_accepted (value : jsdata) (c : RedisMemoryConfig) :
  parse env value = Ok c ->
  Forall (fun key => In key [js "redis"; js "embedding"; js "indexName";
                             js "keyPrefix"; js "autoCapture"; js "autoRecall"])
         (objectKeys value) /\
  Forall (fun key => In key [js "url"; js "password"; js "tls"])
         (objectKeys (getField value (js "redis"))) /\
  Forall (fun key => In key [js "provider"; js "apiKey"; js "model"; js "baseUrl";
                             js "fallback"])
         (objectKeys (getField value (js "embedding"))) /\
  In (embedding_provider c) validProviders /\
  (embedding_provider c = js "openai" \/ embedding_provider c = js "gemini" ->
   exists k ks, embedding_apiKey c = Some (k :: ks)) /\
  (exists url, getField (getField value (js "redis")) (js "url") = DStr url /\
               resolveEnvVars env url = Ok (redis_url c)) /\
  (config_autoCapture c = true <-> getField value (js "autoCapture") = DBool true) /\
  (config_autoRecall c = true <-> getField value (js "autoRecall") = DBool true).
Proof.
  unfold parse. destruct value as [| | | | | | fields]; try discriminate.
  cbv beta iota zeta. remember (DObj fields) as cfg eqn:Hcfg. clear Hcfg fields.
  destruct (assertAllowedKeys cfg _ _) as [[] |] eqn:Htop; [| discriminate].
  cbn [andThen].
  destruct (toBoolean (getField cfg (js "redis"))); [| discriminate].
  destruct (getField (getField cfg (js "redis")) (js "url")) as [| | | | url | |] eqn:Hurl;
    try discriminate.
  destruct (assertAllowedKeys (getField cfg (js "redis")) _ _) as [[] |] eqn:Hredis;
    [| discriminate].
  cbn [andThen].
  destruct (negb (toBoolean (getField cfg (js "embedding")))); [discriminate |].
  destruct (assertAllowedKeys (getField cfg (js "embedding")) _ _) as [[] |] eqn:Hemb;
    [| discriminate].
  cbn [andThen].
  destruct (providerOf _) as [provider |] eqn:Hprov; [| discriminate].
  cbn [andThen].
  apply providerOf_ok in Hprov.
  remember (match getField (getField cfg (js "embedding")) (js "apiKey") with
            | DStr k => resolveEnvVarsOptional env (Some k)
            | _ => None
            end) as apiKey eqn:HapiKey.
  clear HapiKey.
  destruct ((bool_decide (provider = js "openai") || bool_decide (provider = js "gemini"))
            && negb _) eqn:Hkey; [discriminate |].
  destruct (resolveEnvVars env url) as [url' |] eqn:Hres; [| discriminate].
  cbn [andThen]. intros [= <-].
  cbv [embedding_provider embedding_apiKey redis_url config_autoCapture
       config_autoRecall].
  split; [now apply assertAllowedKeys_ok in Htop |].
  split; [now apply assertAllowedKeys_ok in Hredis |].
  split; [now apply assertAllowedKeys_ok in Hemb |].
  split; [exact Hprov |].
  split.
  { intros Hp. apply andb_false_iff in Hkey as [Hkey | Hkey].
    - apply orb_false_iff in Hkey as [H1 H2].
      apply bool_decide_eq_false in H1, H2. tauto.
    - apply negb_false_iff in Hkey.
      destruct apiKey as [[| k ks] |]; try discriminate. eauto. }
  split; [exists url; auto |].
  split.
  - destruct (getField cfg (js "autoCapture")) as [| | b | | | |];
      split; try discriminate; congruence.
  - destruct (getField cfg (js "autoRecall")) as [| | b | | | |];
      split; try discriminate; congruence.
Qed.

(** The configuration with the two required parts only. *)
Lemma parse_minimal (url : jsstring) (embedding : jsdata) :
  parse env (DObj [(js "redis", DObj [(js "url", DStr url)]);
                   (js "embedding", embedding)])
  = if negb (toBoolean embedding) then Err EmbeddingRequired
    else
      andThen (assertAllowedKeys embedding
                 [js "provider"; js "apiKey"; js "model"; js "baseUrl"; js "fallback"]
                 (js "embedding config")) (fun _ =>
      andThen (providerOf (getField embedding (js "provider"))) (fun provider =>
      let apiKey :=
        match getField embedding (js "apiKey") with
        | DStr k => resolveEnvVarsOptional env (Some k)
        | _ => None
        end in
      if (bool_decide (provider = js "openai") || bool_decide (provider = js "gemini"))
         && negb (match apiKey with Some (_ :: _) => true | _ => false end)
      then Err (ApiKeyRequired provider)
      else
        andThen (resolveEnvVars env url) (fun url' =>
        Ok {| redis_url := url'; redis_password := None; redis_tls := None;
              embedding_provider := provider; embedding_apiKey := apiKey;
              embedding_model := stringField embedding (js "model");
              embedding_baseUrl :=
                match getField embedding (js "baseUrl") with
                | DStr b => resolveEnvVarsOptional env (Some b)
                | _ => None
                end;
              embedding_fallback :=
                match getField embedding (js "fallback") with
                | DUndefined | DNull => DStr (js "none")
                | f => f
                end;
              config_indexName := DEFAULT_INDEX_NAME;
              config_keyPrefix := DEFAULT_KEY_PREFIX;
              config_autoCapture := false; config_autoRecall := false |}))).
Proof. reflexivity. Qed.

(** X27. The [embedding] part is only required to be truthy: a value
    without keys of its own, an empty object or array, the boolean true
    or a number other than zero, is accepted and gives the provider auto
    without API key and the fallback none. *)
Theorem parse_embedding_without_keys (url url' : jsstring) (embedding : jsdata) :
  resolveEnvVars env url = Ok url' ->
  toBoolean embedding = true -> objectKeys embedding = [] ->
  parse env (DObj [(js "redis", DObj [(js "url", DStr url)]);
                   (js "embedding", embedding)])
  = Ok {| redis_url := url'; redis_password := None; redis_tls := None;
          embedding_provider := js "auto"; embedding_apiKey := None;
          embedding_model := None; embedding_baseUrl := None;
          embedding_fallback := DStr (js "none");
          config_indexName := js "idx:openclaw:memories";
          config_keyPrefix := js "openclaw:memory";
          config_autoCapture := false; config_autoRecall := false |}.
Proof.
  intros Hurl Htrue Hkeys. rewrite parse_minimal, Htrue. cbn [negb].
  unfold assertAllowedKeys. rewrite Hkeys. cbn [List.filter andThen].
  assert (Hget : forall key, getField embedding key = DUndefined).
  { intros key. destruct embedding as [| | | | | | fields]; try reflexivity.
    destruct fields; [reflexivity | discriminate]. }
  unfold stringField. rewrite !Hget. cbn [providerOf andThen].
  change (bool_decide (js "auto" = js "openai")) with false.
  change (bool_decide (js "auto" = js "gemini")) with false.
  cbn [orb andb]. rewrite Hurl. reflexivity.
Qed.

(** X28. An API key given as a reference to a variable that is unset or
    empty counts as missing: with the provider openai or gemini [parse]
    throws the API-key error, before it looks at the variables of
    [redis.url]. *)
Theorem parse_unset_api_key (url name provider : jsstring) :
  provider = js "openai" \/ provider = js "gemini" ->
  name <> [] -> Forall (fun c => c <> 125) name -> ~ isSet env name ->
  parse env (DObj [(js "redis", DObj [(js "url", DStr url)]);
                   (js "embedding",
                    DObj [(js "provider", DStr provider);
                          (js "apiKey", DStr (js "${" ++ name ++ js "}"))])])
  = Err (ApiKeyRequired provider).
Proof.
  intros Hp Hne Hname Hunset. rewrite parse_minimal.
  assert (Hkey : resolveEnvVarsOptional env (@Some jsstring (js "${" ++ name ++ js "}"))
                 = Some []).
  { change (js "${" ++ name ++ js "}") with (36 :: 123 :: name ++ [125]).
    assert (Hinc : includes (36 :: 123 :: name ++ [125]) (js "${") = true)
      by (destruct name; [congruence | reflexivity]).
    unfold resolveEnvVarsOptional. rewrite Hinc. cbn [negb scan].
    change (36 =? 36) with true. change (123 =? 123) with true. cbv iota.
    rewrite (scan_name [] name []) by auto.
    cbn [app scan fillRefs flat_map]. rewrite app_nil_r.
    destruct (env name) as [[| c v] |] eqn:He; try reflexivity.
    exfalso. apply Hunset. now exists c, v. }
  remember (js "${" ++ name ++ js "}") as k eqn:Hk in *. clear Hk.
  assert (Hkeys : assertAllowedKeys
                    (DObj [(js "provider", DStr provider); (js "apiKey", DStr k)])
                    [js "provider"; js "apiKey"; js "model"; js "baseUrl"; js "fallback"]
                    (js "embedding config") = Ok tt) by (vm_compute; reflexivity).
  assert (Hprovider : getField (DObj [(js "provider", DStr provider);
                                      (js "apiKey", DStr k)]) (js "provider")
                      = DStr provider) by reflexivity.
  assert (HapiKey : getField (DObj [(js "provider", DStr provider);
                                    (js "apiKey", DStr k)]) (js "apiKey")
                    = DStr k) by reflexivity.
  assert (Hvalid : providerOf (DStr provider) = Ok provider).
  { destruct Hp as [-> | ->]; vm_compute; reflexivity. }
  assert (Hmust : bool_decide (provider = js "openai")
                  || bool_decide (provider = js "gemini") = true).
  { destruct Hp as [-> | ->]; vm_compute; reflexivity. }
  rewrite Hkeys, Hprovider, HapiKey, Hvalid. cbn [toBoolean negb andThen].
  cbv beta iota zeta. rewrite Hkey, Hmust. reflexivity.
Qed.

End ParseFacts.

Lemma parse_accepted_witness :
  let c :=
    {| ConfigSchema.redis_url := js "redis://cache.internal:6379";
       ConfigSchema.redis_password := None; ConfigSchema.redis_tls := None;
       ConfigSchema.embedding_provider := js "local";
       ConfigSchema.embedding_apiKey := None;
       ConfigSchema.embedding_model := None; ConfigSchema.embedding_baseUrl := None;
       ConfigSchema.embedding_fallback := JsData.DStr (js "none");
       ConfigSchema.config_indexName := js "idx:openclaw:memories";
       ConfigSchema.config_keyPrefix := js "openclaw:memory";
       ConfigSchema.config_autoCapture := false;
       ConfigSchema.config_autoRecall := false |} in
  ConfigSchema.parse ConfigScenario.env
    (ConfigScenario.raw (JsData.DObj [(js "provider", JsData.DStr (js "local"))]))
  = ConfigSchema.Ok c /\
  In (ConfigSchema.embedding_provider c) ConfigSchema.validProviders.
Proof.
  intros c.
  assert (H : ConfigSchema.parse ConfigScenario.env
                (ConfigScenario.raw (JsData.DObj [(js "provider", JsData.DStr (js "local"))]))
              = ConfigSchema.Ok c) by (vm_compute; reflexivity).
  split; [exact H |].
  destruct (parse_accepted ConfigScenario.env _ c H) as (_ & _ & _ & Hp & _).
  exact Hp.
Defined.

Lemma parse_embedding_without_keys_witness :
  exists c,
    ConfigSchema.parse ConfigScenario.env
      (ConfigScenario.raw (JsData.DNum (Fin 7))) = ConfigSchema.Ok c /\
    ConfigSchema.embedding_provider c = js "auto".
Proof.
  eexists. split.
  - apply (parse_embedding_without_keys ConfigScenario.env
             (js "redis://${REDIS_HOST}:6379") (js "redis://cache.internal:6379")
             (JsData.DNum (Fin 7))); reflexivity.
  - reflexivity.
Defined.

Lemma parse_unset_api_key_witness :
  ConfigSchema.parse ConfigScenario.env
    (ConfigScenario.raw
       (JsData.DObj [(js "provider", JsData.DStr (js "openai"));
                     (js "apiKey", JsData.DStr (js "${OPENAI_API_KEY}"))]))
  = ConfigSchema.Err (ConfigSchema.ApiKeyRequired (js "openai")).
Proof.
  apply (parse_unset_api_key ConfigScenario.env (js "redis://${REDIS_HOST}:6379")
           (js "OPENAI_API_KEY") (js "openai")).
  - now left.
  - discriminate.
  - vm_compute. repeat constructor; discriminate.
  - intros (c & v & H). vm_compute in H. discriminate.
Defined.
